(** * The configuration console of the vaporlight LED board

    A shallow embedding of [led-boards/console_prompt.c]: the command
    handlers, the argument parser and the dispatcher, over an explicit
    machine state (configuration, pending input lines, trace of calls
    to the outside world). *)

From stdpp Require Import base numbers list strings pretty.
From Stdlib Require Import Ascii.

Local Open Scope Z_scope.

(** ** Machine integers *)

(** [int x = u;] for an [unsigned int u]: the 32-bit two's complement
    reading of the same bit pattern. *)
Definition to_int (u : Z) : Z := (u + 2 ^ 31) mod 2 ^ 32 - 2 ^ 31.

(** [unsigned int u = x;]: reduction modulo 2^32. *)
Definition to_uint (x : Z) : Z := x mod 2 ^ 32.

(** [(uint16_t) x] *)
Definition to_uint16 (x : Z) : Z := x mod 2 ^ 16.

(** The values an [unsigned int] can hold. *)
Definition is_uint (u : Z) : Prop := 0 <= u < 2 ^ 32.

(** ** Status codes ([error.h]) *)

(** Modelled from the spec: the enumeration [error_t] of [error.h], which
    is outside [console_prompt.c].  [E_SUCCESS] is the zero value
    tested by [if (error)]; [E_OTHER] stands for every further status a
    collaborator may forward. *)
Inductive error_t : Type :=
| E_SUCCESS
| E_ARG_FORMAT
| E_MISSING_ARGS
| E_NOCONFIG
| E_FLASH_WRITE
| E_OTHER (code : Z).

#[global] Instance error_t_eq_dec : EqDecision error_t.
Proof. solve_decision. Defined.

(** [if (error)]: any status but [E_SUCCESS] is true in C. *)
Definition failed (e : error_t) : bool :=
  match e with
  | E_SUCCESS => false
  | _ => true
  end.

(** ** Fixed-point numbers ([fixedpoint.h]) *)

(** Modelled from the spec: [fixed_t] and its constructors live in
    [fixedpoint.h], outside [console_prompt.c].  A value is
    a signed 32-bit integer counting 65536ths. *)
Record fixed_t : Type := Fixed { raw : Z }.

#[global] Instance fixed_t_eq_dec : EqDecision fixed_t.
Proof. solve_decision. Defined.

#[global] Instance fixed_t_inhabited : Inhabited fixed_t := populate (Fixed 0).

(** Modelled from the spec: [fixnum], the constructor from an integer
    (scales up by 2^16). *)
Definition fixnum (n : Z) : fixed_t := Fixed (to_int (n * 65536)).

(** Modelled from the spec: [fixfract], the constructor from a fraction
    numerator (the numerator is the bit pattern, value = n/65536). *)
Definition fixfract (n : Z) : fixed_t := Fixed (to_int n).

(** Modelled from the spec: [fixadd], fixed-point addition. *)
Definition fixadd (a b : fixed_t) : fixed_t := Fixed (to_int (raw a + raw b)).

(** Modelled from the spec: [FIXNUM(1.0)], the constant one. *)
Definition FIXNUM_1_0 : fixed_t := Fixed 65536.

(** ** The configuration ([config.h]) *)

(** Modelled from the spec: the layout of [led_info_t] and of the global
    [config] (section 3 of the specification); [config.h] is outside
    [console_prompt.c].  C arrays are lists, written by index. *)
Record led_info_t : Type := LedInfo {
  channels : list Z;
  color_matrix : list fixed_t;
  peak_Y : list fixed_t
}.

(** Modelled from the spec: the global [config], with the module
    address, a heat limit per sensor and the settings of every LED. *)
Record config_entry_t : Type := Config {
  my_address : Z;
  heat_limit : list Z;
  led_infos : list led_info_t
}.

#[global] Instance led_info_t_inhabited : Inhabited led_info_t :=
  populate (LedInfo [] [] []).

Definition set_my_address (a : Z) (c : config_entry_t) : config_entry_t :=
  Config a (heat_limit c) (led_infos c).

(** [config.heat_limit[i] = x] *)
Definition set_heat_limit (i : nat) (x : Z) (c : config_entry_t) : config_entry_t :=
  Config (my_address c) (<[i := x]> (heat_limit c)) (led_infos c).

(** [config.led_infos[led].channels[i] = x] *)
Definition set_channel (led i : nat) (x : Z) (c : config_entry_t) : config_entry_t :=
  Config (my_address c) (heat_limit c)
    (alter (fun info => LedInfo (<[i := x]> (channels info))
                                (color_matrix info) (peak_Y info))
           led (led_infos c)).

(** [config.led_infos[led].color_matrix[i] = x] *)
Definition set_color_matrix_cell (led i : nat) (x : fixed_t) (c : config_entry_t)
  : config_entry_t :=
  Config (my_address c) (heat_limit c)
    (alter (fun info => LedInfo (channels info)
                                (<[i := x]> (color_matrix info)) (peak_Y info))
           led (led_infos c)).

(** [config.led_infos[led].peak_Y[i] = x] *)
Definition set_peak_Y (led i : nat) (x : fixed_t) (c : config_entry_t)
  : config_entry_t :=
  Config (my_address c) (heat_limit c)
    (alter (fun info => LedInfo (channels info) (color_matrix info)
                                (<[i := x]> (peak_Y info)))
           led (led_infos c)).

(** [invert_3x3(matrix, config.led_infos[led].color_matrix)]: the nine
    output cells replace the LED's matrix. *)
Definition set_color_matrix (led : nat) (m : list fixed_t) (c : config_entry_t)
  : config_entry_t :=
  Config (my_address c) (heat_limit c)
    (alter (fun info => LedInfo (channels info) m (peak_Y info))
           led (led_infos c)).

(** ** The outside world *)

(** Every call that leaves the console module is recorded, in order. *)
Inductive event : Type :=
| EWrite (msg : string)                 (* console_write *)
| EUintD (n : Z)                        (* console_uint_d *)
| ESetBrightness (channel value : Z)    (* pwm_set_brightness *)
| ESendFrame                            (* pwm_send_frame *)
| ESaveConfig (c : config_entry_t)      (* save_config *)
| ELoadConfig                           (* load_config *)
| EReset.                               (* write to SCB_AIRCR *)

(** The machine state the console runs on: the global [config], the
    lines still to be delivered by [console_getline], and the calls made
    so far. *)
Record State : Type := MkState {
  config : config_entry_t;
  input : list (list ascii);
  trace : list event
}.

Definition with_config (c : config_entry_t) (s : State) : State :=
  MkState c (input s) (trace s).
Definition with_input (i : list (list ascii)) (s : State) : State :=
  MkState (config s) i (trace s).
Definition emit (e : event) (s : State) : State :=
  MkState (config s) (input s) (trace s ++ [e]).

(** The build constants and the collaborators of the console that are
    declared in the headers it includes ([config.h], [pwm.h], [color.h],
    [fixedpoint.h], [console.h]) and defined elsewhere.  What a collaborator answers
    may depend on the calls made before. *)
Class Board : Type := {
  MODULE_LENGTH : Z;
  RGB_LED_COUNT : Z;
  HEAT_SENSOR_LEN : Z;
  CONSOLE_READ_BASE : Z;
  convert_channel_index : Z -> Z;
  pwm_set_brightness : list event -> Z -> Z -> error_t;
  pwm_send_frame : list event -> error_t;
  color_correct : led_info_t -> Z -> Z -> Z -> list Z;
  invert_3x3 : list fixed_t -> list fixed_t;
  config_valid : config_entry_t -> bool;
  save_config : list event -> config_entry_t -> error_t;
  load_config : list event -> config_entry_t -> error_t * config_entry_t
}.

(** ** The monad of console code *)

(** A computation either returns, waits forever in [console_getline]
    because no line is left, or exhausts the recursion budget of the
    model. *)
Inductive outcome (A : Type) : Type :=
| Ret (a : A) (s : State)
| Blocked
| OutOfFuel.
Arguments Ret {A} a s.
Arguments Blocked {A}.
Arguments OutOfFuel {A}.

Definition M (A : Type) : Type := State -> outcome A.

Definition ret {A} (a : A) : M A := fun s => Ret a s.

Definition bind {A B} (m : M A) (k : A -> M B) : M B :=
  fun s =>
    match m s with
    | Ret a s' => k a s'
    | Blocked => Blocked
    | OutOfFuel => OutOfFuel
    end.

Notation "x <- m ;; k" := (bind m (fun x => k))
  (at level 100, m at next level, right associativity).
Notation "m ;;; k" := (bind m (fun _ => k))
  (at level 100, right associativity).

Definition get_config : M config_entry_t := fun s => Ret (config s) s.
Definition modify_config (f : config_entry_t -> config_entry_t) : M unit :=
  fun s => Ret tt (with_config (f (config s)) s).
Definition log (e : event) : M unit := fun s => Ret tt (emit e s).

(** [for (int i = start; i < start + count; i++) acc = body(i, acc);] *)
Fixpoint for_fold {A} (start : nat) (count : nat) (body : nat -> A -> M A) (acc : A)
  : M A :=
  match count with
  | O => ret acc
  | S count' => acc' <- body start acc ;; for_fold (S start) count' body acc'
  end.

(** A [for] loop whose body may [return] a status: [Some e] leaves the
    function with [e], [None] goes on. *)
Fixpoint for_try (start : nat) (count : nat) (body : nat -> M (option error_t))
  : M (option error_t) :=
  match count with
  | O => ret None
  | S count' =>
      r <- body start ;;
      match r with
      | Some e => ret (Some e)
      | None => for_try (S start) count' body
      end
  end.

(** ** Console input and output ([console.h]) *)

Definition CRLF : string := String "013" (String "010" EmptyString).

(** The terminating NUL of a C string. *)
Definition NUL : ascii := "000"%char.

(** [line[pos]]: past the end of the text stands the terminating NUL. *)
Definition char_at (line : list ascii) (pos : nat) : ascii := nth pos line NUL.

Definition console_write (msg : string) : M unit := log (EWrite msg).
Definition console_uint_d (n : Z) : M unit := log (EUintD n).

(** Modelled from the spec: [console_getline] belongs to the external
    line reader.  It delivers the next line of the input stream and
    blocks while there is none. *)
Definition console_getline : M (list ascii) :=
  fun s =>
    match input s with
    | [] => Blocked
    | line :: rest => Ret line (with_input rest s)
    end.

Definition code (c : ascii) : Z := Z.of_N (N_of_ascii c).

Definition isalnum (c : ascii) : bool :=
  ((code "a" <=? code c) && (code c <=? code "z"))
  || ((code "0" <=? code c) && (code c <=? code "9"))
  || ((code "A" <=? code c) && (code c <=? code "Z")).

Definition isspace (c : ascii) : bool :=
  Ascii.eqb c " " || Ascii.eqb c "010" || Ascii.eqb c "009"
  || Ascii.eqb c "012" || Ascii.eqb c "011" || Ascii.eqb c "013".

(** How many leading characters of [rest] satisfy [pred]. *)
Fixpoint skip_count (pred : ascii -> bool) (rest : list ascii) : nat :=
  match rest with
  | c :: rest' => if pred c then S (skip_count pred rest') else O
  | [] => O
  end.

(** The macro [SKIP_WHILE(pred, string, position)]; the result is the
    new value of [position].  The loop stops at the terminating NUL at
    the latest, as neither predicate holds of it. *)
Definition SKIP_WHILE (pred : ascii -> bool) (line : list ascii) (pos : nat) : nat :=
  (pos + skip_count pred (drop pos line))%nat.

(** Modelled from the spec: the value of a digit character, for radixes
    up to 36. *)
Definition digit_value (c : ascii) : option Z :=
  if (code "0" <=? code c) && (code c <=? code "9") then Some (code c - code "0")
  else if (code "a" <=? code c) && (code c <=? code "z") then Some (code c - code "a" + 10)
  else if (code "A" <=? code c) && (code c <=? code "Z") then Some (code c - code "A" + 10)
  else None.

(** Modelled from the spec: where an integer token ends, at white
    space or at the end of the line. *)
Definition token_end (c : ascii) : bool := Ascii.eqb c NUL || isspace c.

(** Modelled from the spec: the digit loop of [parse_int].  It returns
    the value read, as an [unsigned int], and the number of characters
    consumed, or nothing on a character that is no digit of the radix. *)
Fixpoint parse_digits (base : Z) (rest : list ascii) (acc : Z) : option (Z * nat) :=
  match rest with
  | [] => Some (acc, O)
  | c :: rest' =>
      if token_end c then Some (acc, O)
      else
        match digit_value c with
        | Some d =>
            if d <? base then
              match parse_digits base rest' (to_uint (acc * base + d)) with
              | Some (v, n) => Some (v, S n)
              | None => None
              end
            else None
        | None => None
        end
  end.

(** Modelled from the spec: [parse_int(line, &pos, &target, base)] of
    [console.c], outside [console_prompt.c]: parse one non-negative
    integer in the given radix, advancing the position; on malformed
    digits fail with [E_ARG_FORMAT].  The result is the status, the new
    position and the value stored in the target. *)
Definition parse_int (line : list ascii) (pos : nat) (base : Z) : error_t * nat * Z :=
  if token_end (char_at line pos) then (E_ARG_FORMAT, pos, 0)
  else
    match parse_digits base (drop pos line) 0 with
    | Some (v, n) => (E_SUCCESS, (pos + n)%nat, v)
    | None => (E_ARG_FORMAT, pos, 0)
    end.

(** Modelled from the spec: [console_ask_int(prompt, base)] of
    [console.c], outside [console_prompt.c]: show the prompt, read
    a line and parse an integer in the given radix from it.  The spec
    does not say what a malformed answer leads to; the model asks
    again. *)
Fixpoint console_ask_int_from (prompt : string) (base : Z)
    (lines : list (list ascii)) (s : State) : outcome Z :=
  match lines with
  | [] => Blocked
  | line :: rest =>
      let s' := with_input rest (emit (EWrite prompt) s) in
      match parse_int line 0 base with
      | (E_SUCCESS, _, v) => Ret v s'
      | _ => console_ask_int_from prompt base rest s'
      end
  end.

(** Modelled from the spec: [console_ask_int] proper, on the lines the
    state holds. *)
Definition console_ask_int (prompt : string) (base : Z) : M Z :=
  fun s => console_ask_int_from prompt base (input s) s.

(** ** The argument parser *)

(** The loop of [parse_args]: [count] arguments are still to be read
    from position [pos]; [args] holds the ones read so far. *)
Fixpoint parse_args_loop (base : Z) (line : list ascii) (count : nat) (pos : nat)
    (args : list Z) : error_t * list Z :=
  match count with
  | O => (E_SUCCESS, args)
  | S count' =>
      if Ascii.eqb (char_at line pos) NUL then (E_MISSING_ARGS, args)
      else
        match parse_int line pos base with
        | (error, pos', value) =>
            if failed error then (error, args)
            else parse_args_loop base line count' (SKIP_WHILE isspace line pos')
                                 (args ++ [value])
        end
  end.

(** ** The command handlers *)

(** A command handler receives the parsed arguments. *)
Definition command_handler_t : Type := list Z -> M error_t.

(** One command of the console. *)
Record console_command_t : Type := Command {
  key : ascii;
  arg_length : nat;
  handler : command_handler_t;
  usage : string;
  does_exit : bool
}.

Definition LINE_LENGTH : Z := 80.
Definition MAX_ARG_LEN : nat := 4.

Definition ADDR_OUT_OF_RANGE : string :=
  "Address out of range (0x00 to 0xfd)" +:+ CRLF.
Definition WARN_BROADCAST_ADDR : string :=
  "Warning: Setting address to broadcast" +:+ CRLF.
Definition BRIGHTNESS_OUT_OF_RANGE : string :=
  "Brightness out of range (0 to 0xffff)" +:+ CRLF.
Definition HEAT_LIMIT_OUT_OF_RANGE : string :=
  "Heat limit out of range (0 to 0xffff)" +:+ CRLF.
Definition NO_CONFIG_FOUND : string := "No configuration in flash" +:+ CRLF.
Definition UNKNOWN_FLASH_ERROR : string := "Internal flash error" +:+ CRLF.
Definition FLASH_WRITE_FAILED : string := "Writing to flash failed." +:+ CRLF.
Definition CONFIG_IS_INVALID : string := "Invalid configuration state." +:+ CRLF.
Definition RELOADING_CONFIG : string := "Reloading configuration..." +:+ CRLF.
Definition SAVING_CONFIG : string := "Saving configuration..." +:+ CRLF.
Definition BEGINNING_ECHO : string :=
  "Echoing... Finish with q on a single line" +:+ CRLF.
Definition PASTE_NOW : string :=
  "Paste a file with one command per line, finish with q" +:+ CRLF.
Definition ENTER_MATRIX : string := "Enter correction matrix" +:+ CRLF.
Definition ENTER_MAX_Y : string := "Enter maximum Y value" +:+ CRLF.

Definition COLOR_NAMES : list string :=
  ["red" +:+ CRLF; "green" +:+ CRLF; "blue" +:+ CRLF].

Definition VALUE_NAMES : list string :=
  ["x (in 65536ths) = "; "y (in 65536ths) = "; "Y (integer part) = ";
   "Y (fractional part in 65536ths) = "].

Definition WRONG_COMMAND : string := "Unknown command" +:+ CRLF.
Definition ARGUMENTS_ARE_MISSING : string := "Not enough arguments" +:+ CRLF.
Definition ARGUMENTS_ARE_INVALID : string := "Argument not a valid integer" +:+ CRLF.
Definition UNKNOWN_PARSER_ERROR : string :=
  "Error occurred while parsing input" +:+ CRLF.
Definition ERROR_RUNNING_COMMAND : string :=
  "Error occured while running command" +:+ CRLF.
Definition USAGE : string := "Usage: ".

(** Modelled from the spec: the indices into an [rgb] triple, which
    [color.h] declares; red, green, blue is the order of the primaries
    throughout. *)
Definition RED : nat := 0.
Definition GREEN : nat := 1.
Definition BLUE : nat := 2.

(** [args[i]] *)
Definition arg (args : list Z) (i : nat) : Z := args !!! i.

Section Console.
Context {B : Board}.

(** [XSTR(X)]: the text of the macro's value. *)
Definition XSTR (x : Z) : string := pretty x.

Definition CHANNEL_OUT_OF_RANGE : string :=
  "PWM channel index out of range (0 to " +:+ XSTR MODULE_LENGTH +:+ "-1)" +:+ CRLF.
Definition LED_OUT_OF_RANGE : string :=
  "RGB LED index out of range (0 to " +:+ XSTR RGB_LED_COUNT +:+ "-1)" +:+ CRLF.
Definition SENSOR_OUT_OF_RANGE : string :=
  "Heat sensor index out of range (0 to " +:+ XSTR HEAT_SENSOR_LEN +:+ "-1)" +:+ CRLF.

(** Calls of the collaborators: the call is recorded, the answer is the
    board's. *)
Definition call_pwm_set_brightness (channel value : Z) : M error_t :=
  fun s => Ret (pwm_set_brightness (trace s) channel value)
               (emit (ESetBrightness channel value) s).

Definition call_pwm_send_frame : M error_t :=
  fun s => Ret (pwm_send_frame (trace s)) (emit ESendFrame s).

Definition call_save_config : M error_t :=
  fun s => Ret (save_config (trace s) (config s)) (emit (ESaveConfig (config s)) s).

Definition call_load_config : M error_t :=
  fun s =>
    let r := load_config (trace s) (config s) in
    Ret (fst r) (with_config (snd r) (emit ELoadConfig s)).

Definition check_range (value limit : Z) (message : string) : M error_t :=
  if (value <? 0) || (value >=? limit) then
    console_write message ;;; ret E_ARG_FORMAT
  else ret E_SUCCESS.

Definition check_channel_index (index : Z) (message : string) : M error_t :=
  check_range index MODULE_LENGTH message.

Definition check_led_index (index : Z) (message : string) : M error_t :=
  check_range index RGB_LED_COUNT message.

Definition check_short (value : Z) (message : string) : M error_t :=
  check_range value 0x10000 message.

Definition run_set_addr : command_handler_t := fun args =>
  let addr := to_int (arg args 0) in
  if (addr <? 0) || (addr >? 0xfd) then
    console_write ADDR_OUT_OF_RANGE ;;; ret E_ARG_FORMAT
  else
    (if addr =? 0xfd then console_write WARN_BROADCAST_ADDR else ret tt) ;;;
    modify_config (set_my_address addr) ;;;
    ret E_SUCCESS.

Definition run_set_brightness : command_handler_t := fun args =>
  let index := to_int (arg args 0) in
  let brightness := to_int (arg args 1) in
  e <- check_channel_index index CHANNEL_OUT_OF_RANGE ;;
  if failed e then ret E_ARG_FORMAT else
  e <- check_short brightness BRIGHTNESS_OUT_OF_RANGE ;;
  if failed e then ret E_ARG_FORMAT else
  let pwm_channel := convert_channel_index index in
  error <- call_pwm_set_brightness pwm_channel (to_uint16 brightness) ;;
  if failed error then ret error else
  call_pwm_send_frame.

Definition run_set_color : command_handler_t := fun args =>
  let index := to_int (arg args 0) in
  let x := to_int (arg args 1) in
  let y := to_int (arg args 2) in
  let Y := to_int (arg args 3) in
  e <- check_led_index index LED_OUT_OF_RANGE ;;
  if failed e then ret E_ARG_FORMAT else
  cfg <- get_config ;;
  let info := led_infos cfg !!! Z.to_nat index in
  let rgb := color_correct info x y Y in
  console_write "Color correction: " ;;;
  console_uint_d (rgb !!! RED) ;;; console_write " " ;;;
  console_uint_d (rgb !!! GREEN) ;;; console_write " " ;;;
  console_uint_d (rgb !!! BLUE) ;;; console_write CRLF ;;;
  r <- for_try 0 3 (fun i =>
         error <- call_pwm_set_brightness (channels info !!! i) (rgb !!! i) ;;
         if failed error then ret (Some error) else ret None) ;;
  match r with
  | Some error => ret error
  | None => call_pwm_send_frame
  end.

Definition run_calibrate_led : command_handler_t := fun args =>
  let index := to_int (arg args 0) in
  e <- check_led_index index LED_OUT_OF_RANGE ;;
  if failed e then ret E_ARG_FORMAT else
  matrix <- for_fold 0 3 (fun c matrix =>
      console_write (COLOR_NAMES !!! c) ;;;
      matrix <- for_fold 0 2 (fun v matrix =>
          input <- console_ask_int (VALUE_NAMES !!! v) 10 ;;
          ret (<[(3 * v + c)%nat := fixfract input]> matrix)) matrix ;;
      Y_int <- console_ask_int (VALUE_NAMES !!! 2%nat) 10 ;;
      Y_frac <- console_ask_int (VALUE_NAMES !!! 3%nat) 10 ;;
      let Y := fixadd (fixnum Y_int) (fixfract Y_frac) in
      modify_config (set_peak_Y (Z.to_nat index) c Y) ;;;
      ret matrix) (replicate 9 (Fixed 0)) ;;
  (* Fill in the homogenous coordinate entries *)
  matrix <- for_fold 0 3 (fun i matrix =>
      ret (<[(6 + i)%nat := FIXNUM_1_0]> matrix)) matrix ;;
  modify_config (set_color_matrix (Z.to_nat index) (invert_3x3 matrix)) ;;;
  ret E_SUCCESS.

(** The [do ... while] loop of [run_echo], by recursion on the lines
    still to come: it goes on for as long as the line read is "q". *)
Fixpoint run_echo_loop (lines : list (list ascii)) (s : State) : outcome unit :=
  match lines with
  | [] => Blocked
  | buf :: rest =>
      let s' := with_input rest s in
      if Ascii.eqb (char_at buf 0) "q" && Ascii.eqb (char_at buf 1) NUL
      then run_echo_loop rest s'
      else Ret tt s'
  end.

Definition run_echo : command_handler_t := fun _ =>
  console_write BEGINNING_ECHO ;;;
  (fun s => run_echo_loop (input s) s) ;;;
  ret E_SUCCESS.

(** The [do ... while] loop of [run_paste_file]; [prompt] is
    [run_command_prompt], [budget] bounds the number of rounds. *)
Fixpoint run_paste_loop (prompt : M bool) (budget : nat) : M unit :=
  match budget with
  | O => fun _ => OutOfFuel
  | S budget' =>
      should_exit <- prompt ;;
      if should_exit then ret tt else run_paste_loop prompt budget'
  end.

Definition run_paste_file (prompt : M bool) (budget : nat) : command_handler_t :=
  fun _ =>
    console_write PASTE_NOW ;;;
    run_paste_loop prompt budget ;;;
    ret E_SUCCESS.

Definition run_set_heat_limit : command_handler_t := fun args =>
  let index := to_int (arg args 0) in
  let limit := to_int (arg args 1) in
  e <- check_range index HEAT_SENSOR_LEN SENSOR_OUT_OF_RANGE ;;
  if failed e then ret E_ARG_FORMAT else
  e <- check_short limit HEAT_LIMIT_OUT_OF_RANGE ;;
  if failed e then ret E_ARG_FORMAT else
  modify_config (set_heat_limit (Z.to_nat index) limit) ;;;
  ret E_SUCCESS.

Definition run_reload_config : command_handler_t := fun _ =>
  console_write RELOADING_CONFIG ;;;
  error <- call_load_config ;;
  match error with
  | E_SUCCESS => ret tt
  | E_NOCONFIG => console_write NO_CONFIG_FOUND
  | _ => console_write UNKNOWN_FLASH_ERROR
  end ;;;
  ret error.

Definition run_set_correction : command_handler_t := fun args =>
  let led := to_int (arg args 0) in
  e <- check_led_index led LED_OUT_OF_RANGE ;;
  if failed e then ret E_ARG_FORMAT else
  console_write ENTER_MATRIX ;;;
  for_fold 0 9 (fun i _ =>
      input <- console_ask_int "" 10 ;;
      modify_config (set_color_matrix_cell (Z.to_nat led) i (Fixed (to_int input))))
    tt ;;;
  ret E_SUCCESS.

Definition run_set_pwm_channels : command_handler_t := fun args =>
  let led := to_int (arg args 0) in
  let rgb := [to_int (arg args 1); to_int (arg args 2); to_int (arg args 3)] in
  e <- check_led_index led LED_OUT_OF_RANGE ;;
  if failed e then ret E_ARG_FORMAT else
  r <- for_try 0 3 (fun i =>
         e <- check_channel_index (rgb !!! i) CHANNEL_OUT_OF_RANGE ;;
         if failed e then ret (Some E_ARG_FORMAT) else ret None) ;;
  match r with
  | Some error => ret error
  | None =>
      for_fold 0 3 (fun i _ =>
          modify_config (set_channel (Z.to_nat led) i (rgb !!! i))) tt ;;;
      ret E_SUCCESS
  end.

Definition run_quit : command_handler_t := fun _ => ret E_SUCCESS.

(** The reset request is a write to [SCB_AIRCR]; the statement after it
    is [return E_SUCCESS]. *)
Definition run_reset : command_handler_t := fun _ =>
  log EReset ;;; ret E_SUCCESS.

Definition run_save_config : command_handler_t := fun _ =>
  cfg <- get_config ;;
  if negb (config_valid cfg) then
    console_write CONFIG_IS_INVALID ;;; ret E_NOCONFIG
  else
    console_write SAVING_CONFIG ;;;
    error <- call_save_config ;;
    match error with
    | E_SUCCESS => ret tt
    | E_FLASH_WRITE => console_write FLASH_WRITE_FAILED
    | _ => console_write UNKNOWN_FLASH_ERROR
    end ;;;
    ret error.

Definition run_set_max_Y : command_handler_t := fun args =>
  let led := to_int (arg args 0) in
  e <- check_led_index led LED_OUT_OF_RANGE ;;
  if failed e then ret E_ARG_FORMAT else
  console_write ENTER_MAX_Y ;;;
  for_fold 0 3 (fun i _ =>
      input <- console_ask_int "" 16 ;;
      modify_config (set_peak_Y (Z.to_nat led) i (Fixed (to_int input))))
    tt ;;;
  ret E_SUCCESS.

(** ** The command table *)

(** The array [commands].  Two handlers are taken as arguments: [help],
    which is declared before the array and defined after it because it
    reads the array, and [paste], which runs the dispatcher. *)
Definition command_table (help paste : command_handler_t) : list console_command_t :=
  [ Command "a" 1 run_set_addr "a <address>: Set module address" false;
    Command "b" 2 run_set_brightness
      "b <channel> <brightness>: Set brightness of a single PWM channel" false;
    Command "c" 4 run_set_color "c <led> <x> <y> <Y>: Switch LED to xyY color" false;
    Command "C" 1 run_calibrate_led "C <led>: Set calibration of LED" false;
    Command "e" 0 run_echo "e: Begin echo mode" false;
    Command "f" 0 paste "f: Paste a command file" false;
    Command "h" 2 run_set_heat_limit "h <sensor> <heat-limit>: Set heat limit" false;
    Command "l" 0 run_reload_config "l: Reload configuration" false;
    Command "m" 1 run_set_correction "m <led>: set an LED's correction matrix" false;
    Command "p" 4 run_set_pwm_channels
      "p <led> <r-chan> <g-chan> <b-chan>: set an LED's PWM channels" false;
    Command "q" 0 run_quit "q: Quit to normal mode" true;
    Command "r" 0 run_reset "r: Reset" false;
    Command "s" 0 run_save_config "s: Save configuration" false;
    Command "y" 1 run_set_max_Y "y <led-index>: Set maximum Y value for LED" false;
    Command "?" 0 help "?: Show command usage messages" false ].

(** [run_help] prints the usage text of every entry of the array. *)
Fixpoint write_usages (table : list console_command_t) : M unit :=
  match table with
  | [] => ret tt
  | comm :: table' =>
      console_write (usage comm) ;;; console_write CRLF ;;; write_usages table'
  end.

Definition run_help_of (table : list console_command_t) : command_handler_t :=
  fun _ => write_usages table ;;; console_write CRLF ;;; ret E_SUCCESS.

(** The usage texts do not depend on the handlers, so [run_help] may
    read them from the array built around placeholders. *)
Definition run_help : command_handler_t :=
  run_help_of (command_table (fun _ => ret E_SUCCESS) (fun _ => ret E_SUCCESS)).

Definition commands (paste : command_handler_t) : list console_command_t :=
  command_table run_help paste.

Fixpoint get_command_in (table : list console_command_t) (k : ascii)
  : option console_command_t :=
  match table with
  | [] => None
  | comm :: table' =>
      if Ascii.eqb (key comm) k then Some comm else get_command_in table' k
  end.

Definition get_command (paste : command_handler_t) (k : ascii)
  : option console_command_t :=
  get_command_in (commands paste) k.

(** ** Parsing a command line *)

Definition parse_args (line : list ascii) (arg_length : nat) : error_t * list Z :=
  let pos := O in
  (* Skip over the command-key and following space. *)
  let pos := SKIP_WHILE isalnum line pos in
  let pos := SKIP_WHILE isspace line pos in
  parse_args_loop CONSOLE_READ_BASE line arg_length pos [].

(** ** The dispatcher *)

(** What the dispatcher prints for a parser failure. *)
Definition parser_diagnostic (error : error_t) : string :=
  match error with
  | E_MISSING_ARGS => ARGUMENTS_ARE_MISSING
  | E_ARG_FORMAT => ARGUMENTS_ARE_INVALID
  | _ => UNKNOWN_PARSER_ERROR
  end.

(** The body of [run_command_prompt] after the line is read, with the
    handler of the paste command given. *)
Definition dispatch (paste : command_handler_t) (line : list ascii) : M bool :=
  match get_command paste (char_at line 0) with
  | Some comm =>
      match parse_args line (arg_length comm) with
      | (error, args) =>
          if failed error then
            console_write (parser_diagnostic error) ;;;
            console_write USAGE ;;;
            console_write (usage comm) ;;;
            console_write CRLF ;;;
            ret false
          else
            e <- handler comm args ;;
            if failed e then
              console_write ERROR_RUNNING_COMMAND ;;; ret false
            else ret (does_exit comm)
      end
  | None => console_write WRONG_COMMAND ;;; ret false
  end.

(** [run_command_prompt] and [run_paste_file] call each other.  [fuel]
    bounds the depth of that recursion and the rounds of every paste
    loop; each round reads a line, so any [fuel] above the number of
    lines left is never used up (see [run_command_prompt_enough]). *)
Fixpoint run_command_prompt (fuel : nat) : M bool :=
  match fuel with
  | O => fun _ => OutOfFuel
  | S fuel' =>
      line <- console_getline ;;
      dispatch (run_paste_file (run_command_prompt fuel') fuel') line
  end.

End Console.

(** ** A board to run examples on *)

(** The text of a line as the character array [console_getline] fills. *)
Definition text (s : string) : list ascii := String.list_ascii_of_string s.

(** A board with sixteen PWM channels, five LEDs and six heat sensors,
    decimal console arguments, and collaborators that always succeed. *)
Definition example_board : Board := {|
  MODULE_LENGTH := 16;
  RGB_LED_COUNT := 5;
  HEAT_SENSOR_LEN := 6;
  CONSOLE_READ_BASE := 10;
  convert_channel_index := fun i => i;
  pwm_set_brightness := fun _ _ _ => E_SUCCESS;
  pwm_send_frame := fun _ => E_SUCCESS;
  color_correct := fun _ _ _ _ => [0; 0; 0];
  invert_3x3 := fun m => m;
  config_valid := fun c => my_address c <? 0xfe;
  save_config := fun _ _ => E_SUCCESS;
  load_config := fun _ c => (E_NOCONFIG, c)
|}.

(** The same board with a PWM driver that refuses every brightness. *)
Definition failing_pwm_board : Board := {|
  MODULE_LENGTH := 16;
  RGB_LED_COUNT := 5;
  HEAT_SENSOR_LEN := 6;
  CONSOLE_READ_BASE := 10;
  convert_channel_index := fun i => i;
  pwm_set_brightness := fun _ _ _ => E_OTHER 1;
  pwm_send_frame := fun _ => E_SUCCESS;
  color_correct := fun _ _ _ _ => [0; 0; 0];
  invert_3x3 := fun m => m;
  config_valid := fun c => my_address c <? 0xfe;
  save_config := fun _ _ => E_SUCCESS;
  load_config := fun _ c => (E_NOCONFIG, c)
|}.

(** The same board with the logical channels wired in reverse order. *)
Definition reversed_board : Board := {|
  MODULE_LENGTH := 16;
  RGB_LED_COUNT := 5;
  HEAT_SENSOR_LEN := 6;
  CONSOLE_READ_BASE := 10;
  convert_channel_index := fun i => 15 - i;
  pwm_set_brightness := fun _ _ _ => E_SUCCESS;
  pwm_send_frame := fun _ => E_SUCCESS;
  color_correct := fun _ _ _ _ => [0; 0; 0];
  invert_3x3 := fun m => m;
  config_valid := fun c => my_address c <? 0xfe;
  save_config := fun _ _ => E_SUCCESS;
  load_config := fun _ c => (E_NOCONFIG, c)
|}.

(** The same board with a flash that fails to write. *)
Definition failing_flash_board : Board := {|
  MODULE_LENGTH := 16;
  RGB_LED_COUNT := 5;
  HEAT_SENSOR_LEN := 6;
  CONSOLE_READ_BASE := 10;
  convert_channel_index := fun i => i;
  pwm_set_brightness := fun _ _ _ => E_SUCCESS;
  pwm_send_frame := fun _ => E_SUCCESS;
  color_correct := fun _ _ _ _ => [0; 0; 0];
  invert_3x3 := fun m => m;
  config_valid := fun c => my_address c <? 0xfe;
  save_config := fun _ _ => E_FLASH_WRITE;
  load_config := fun _ c => (E_NOCONFIG, c)
|}.

Definition example_led : led_info_t :=
  LedInfo [0; 1; 2] (replicate 9 (Fixed 0)) (replicate 3 (Fixed 0)).

Definition example_config : config_entry_t :=
  Config 1 (replicate 6 0) (replicate 5 example_led).

(** The state in which the given lines are about to be read. *)
Definition example_state (lines : list string) : State :=
  MkState example_config (map text lines) [].

(** ** Range-checked arguments *)

(** The arguments a handler checks against a range, each with the
    handler that reads it and its place in [args]. *)
Inductive checked_arg : Type :=
| AddressArg
| BrightnessChannelArg
| BrightnessValueArg
| ColorLedArg
| CalibrateLedArg
| HeatSensorArg
| HeatLimitArg
| CorrectionLedArg
| PwmLedArg
| PwmChannelRArg
| PwmChannelGArg
| PwmChannelBArg
| MaxYLedArg.

Section CheckedArguments.
Context {B : Board}.

Definition checked_handler (c : checked_arg) : command_handler_t :=
  match c with
  | AddressArg => run_set_addr
  | BrightnessChannelArg | BrightnessValueArg => run_set_brightness
  | ColorLedArg => run_set_color
  | CalibrateLedArg => run_calibrate_led
  | HeatSensorArg | HeatLimitArg => run_set_heat_limit
  | CorrectionLedArg => run_set_correction
  | PwmLedArg | PwmChannelRArg | PwmChannelGArg | PwmChannelBArg =>
      run_set_pwm_channels
  | MaxYLedArg => run_set_max_Y
  end.

Definition checked_position (c : checked_arg) : nat :=
  match c with
  | AddressArg | BrightnessChannelArg | ColorLedArg | CalibrateLedArg
  | HeatSensorArg | CorrectionLedArg | PwmLedArg | MaxYLedArg => 0
  | BrightnessValueArg | HeatLimitArg => 1
  | PwmChannelRArg => 1
  | PwmChannelGArg => 2
  | PwmChannelBArg => 3
  end.

(** A handler that only complained: it returned [E_ARG_FORMAT] after
    writing one message, and nothing else happened. *)
Definition rejected (r : outcome error_t) (s : State) : Prop :=
  exists msg, r = Ret E_ARG_FORMAT (emit (EWrite msg) s).

End CheckedArguments.

(** ** Commands with several arguments *)

(** The commands named [p], [h] and [b]. *)
Inductive multi_arg_command : Type :=
| SetPwmChannels
| SetHeatLimit
| SetBrightness.

(** [0 <= (int) u && (int) u < limit], the condition [check_range]
    accepts. *)
Definition in_range (u limit : Z) : bool :=
  (0 <=? to_int u) && (to_int u <? limit).

Section MultiArgCommands.
Context {B : Board}.

Definition multi_arg_handler (c : multi_arg_command) : command_handler_t :=
  match c with
  | SetPwmChannels => run_set_pwm_channels
  | SetHeatLimit => run_set_heat_limit
  | SetBrightness => run_set_brightness
  end.

(** All the range checks of the command pass. *)
Definition multi_arg_valid (c : multi_arg_command) (args : list Z) : bool :=
  match c with
  | SetPwmChannels =>
      in_range (arg args 0) RGB_LED_COUNT
      && in_range (arg args 1) MODULE_LENGTH
      && in_range (arg args 2) MODULE_LENGTH
      && in_range (arg args 3) MODULE_LENGTH
  | SetHeatLimit =>
      in_range (arg args 0) HEAT_SENSOR_LEN && in_range (arg args 1) 0x10000
  | SetBrightness =>
      in_range (arg args 0) MODULE_LENGTH && in_range (arg args 1) 0x10000
  end.

(** The configuration the command leaves when it goes through. *)
Definition multi_arg_effect (c : multi_arg_command) (args : list Z)
    (cfg : config_entry_t) : config_entry_t :=
  match c with
  | SetPwmChannels =>
      let led := Z.to_nat (to_int (arg args 0)) in
      set_channel led 2 (to_int (arg args 3))
        (set_channel led 1 (to_int (arg args 2))
           (set_channel led 0 (to_int (arg args 1)) cfg))
  | SetHeatLimit =>
      set_heat_limit (Z.to_nat (to_int (arg args 0))) (to_int (arg args 1)) cfg
  | SetBrightness => cfg
  end.

End MultiArgCommands.

(** ** Observing a run *)

(** The calls made between the state [s] and the later state [s']. *)
Definition new_events (s s' : State) : list event :=
  drop (length (trace s)) (trace s').

Definition is_save (e : event) : bool :=
  match e with
  | ESaveConfig _ => true
  | _ => false
  end.

(** What [run_save_config] prints after [save_config] has returned. *)
Definition save_diagnostic (error : error_t) : list event :=
  match error with
  | E_SUCCESS => []
  | E_FLASH_WRITE => [EWrite FLASH_WRITE_FAILED]
  | _ => [EWrite UNKNOWN_FLASH_ERROR]
  end.

(** The number a line gives to [console_ask_int], if it is well-formed
    in the radix. *)
Definition answer (base : Z) (line : list ascii) : option Z :=
  match parse_int line 0 base with
  | (E_SUCCESS, _, v) => Some v
  | _ => None
  end.

(** The four numbers entered for one primary, in the order in which
    [run_calibrate_led] asks for them. *)
Record primary_entry : Type := Primary {
  entry_x : Z;
  entry_y : Z;
  entry_Y_int : Z;
  entry_Y_frac : Z
}.

(** The lines [lines] are the answers that enter [p], in decimal. *)
Definition enters (lines : list (list ascii)) (p : primary_entry) : Prop :=
  answer 10 <$> lines
  = [Some (entry_x p); Some (entry_y p); Some (entry_Y_int p); Some (entry_Y_frac p)].

(** ** The shape of a command line *)

(** A digit of the radix. *)
Definition is_digit (base : Z) (c : ascii) : bool :=
  match digit_value c with
  | Some d => d <? base
  | None => false
  end.

(** A well-formed integer: one digit or more, all of the radix. *)
Definition well_formed_int (base : Z) (tok : list ascii) : Prop :=
  tok ≠ [] /\ forallb (is_digit base) tok = true.

(** White space only. *)
Definition blank (ws : list ascii) : Prop := forallb isspace ws = true.

(** [int_tokens base k txt tail]: the text [txt] is [k] well-formed
    integers, each followed by white space (which only the last one of
    the line may lack), and then [tail]. *)
Inductive int_tokens (base : Z) : nat -> list ascii -> list ascii -> Prop :=
| tokens_nil (tail : list ascii) : int_tokens base 0 tail tail
| tokens_cons (tok ws rest tail : list ascii) (k : nat) :
    well_formed_int base tok ->
    blank ws ->
    ws ≠ [] \/ rest = [] ->
    int_tokens base k rest tail ->
    int_tokens base (S k) (tok ++ ws ++ rest) tail.

(** The text does not begin with white space. *)
Definition starts_solid (txt : list ascii) : Prop :=
  match txt with
  | [] => True
  | c :: _ => isspace c = false
  end.

(** A text that is empty or begins with white space or NUL ends the
    token before it. *)
Definition ends_token (txt : list ascii) : Prop :=
  match txt with
  | [] => True
  | c :: _ => token_end c = true
  end.

(** A text that is empty or begins with a character that is neither a
    letter nor a digit ends the command key before it. *)
Definition ends_key (txt : list ascii) : Prop :=
  match txt with
  | [] => True
  | c :: _ => isalnum c = false
  end.

(** [malformed_int base txt]: the text begins with a token that is not
    a well-formed integer.  After digits of the radix, none or some, and
    before any white space or the end of the line, stands a character
    that is no digit of the radix: "x", "2x" and "5!" in decimal. *)
Definition malformed_int (base : Z) (txt : list ascii) : Prop :=
  exists (digits : list ascii) (c : ascii) (rest : list ascii),
    txt = digits ++ c :: rest
    /\ forallb (is_digit base) digits = true
    /\ token_end c = false
    /\ is_digit base c = false.

(** ** Termination of the model *)

(** The computation [m], started with fewer than [bound] lines left,
    never exhausts the recursion budget and puts no line back. *)
Definition settles_below {A} (bound : nat) (m : M A) : Prop :=
  forall s, (length (input s) < bound)%nat ->
    match m s with
    | Ret _ s' => (length (input s') <= length (input s))%nat
    | Blocked => True
    | OutOfFuel => False
    end.

(** The same from every state. *)
Definition settles {A} (m : M A) : Prop :=
  forall s,
    match m s with
    | Ret _ s' => (length (input s') <= length (input s))%nat
    | Blocked => True
    | OutOfFuel => False
    end.

(** The computation [m], started with fewer than [bound] lines left,
    never exhausts the recursion budget and reads a line at least. *)
Definition reads_below {A} (bound : nat) (m : M A) : Prop :=
  forall s, (length (input s) < bound)%nat ->
    match m s with
    | Ret _ s' => (length (input s') < length (input s))%nat
    | Blocked => True
    | OutOfFuel => False
    end.

(** The dispatcher without a recursion budget: the budget it is given
    exceeds the number of lines left, which is all it can use. *)
Definition run_command_prompt_on {B : Board} (s : State) : outcome bool :=
  run_command_prompt (S (length (input s))) s.

(** [m2] does what [m1] does wherever [m1] has budget enough. *)
Definition agrees {A} (m1 m2 : M A) : Prop :=
  forall s, m1 s ≠ OutOfFuel -> m2 s = m1 s.

(** ** The status screen *)

(** The calls [show_status_prompt] makes to the console, in order. *)
Inductive screen_item : Type :=
| SWrite (msg : string)            (* console_write *)
| SPutchar (c : ascii)             (* console_putchar *)
| SUint2d (n : Z)                  (* console_uint_2d *)
| SUint3d (n : Z)                  (* console_uint_3d *)
| SUint5d (n : Z)                  (* console_uint_5d *)
| SFixed (x : fixed_t) (digits : Z). (* console_fixed *)

#[global] Instance screen_item_eq_dec : EqDecision screen_item.
Proof. solve_decision. Defined.

Definition MODULE_ADDRESS : string := "Module address: ".
Definition IS_BROADCAST : string := " (broadcast)".
Definition HEAT_SETTINGS_HEAD : string :=
  "Heat sensor settings:" +:+ CRLF +:+ "Sensor  Limit" +:+ CRLF.
Definition LED_SETTINGS_HEAD : string :=
  "LED settings:" +:+ CRLF
  +:+ "LED  channel  correction matrix            Y_max" +:+ CRLF.
Definition CONSOLE_PROMPT : string := "> ".

(** [for (int i = start; i < start + count; i++) body(i);] for a body
    that only writes to the console. *)
Fixpoint for_items (start count : nat) (body : nat -> list screen_item)
  : list screen_item :=
  match count with
  | O => []
  | S count' => body start ++ for_items (S start) count' body
  end.

Section StatusScreen.
Context {B : Board}.

(** The text of [GIT_VERSION_ID], which the build writes to
    [git_version.h]. *)
Variable GIT_VERSION_ID : string.

Definition PROGRAM_ID : string := "vaporware build " +:+ GIT_VERSION_ID +:+ CRLF.

(** The lines of one LED on the status screen: the body of the loop over
    [l] in [show_status_prompt]. *)
Definition show_led (l : nat) (info : led_info_t) : list screen_item :=
  for_items 0 3 (fun c =>
    (if decide (c = 0%nat) then [SUint3d (Z.of_nat l)] else [SWrite "   "])
    ++ [SWrite "  "; SUint2d (channels info !!! c); SWrite "       "]
    ++ for_items 0 3 (fun i =>
         [SFixed (color_matrix info !!! (3 * c + i)%nat) 10; SPutchar " "])
    ++ [SWrite "  "; SFixed (peak_Y info !!! c) 10; SWrite CRLF])
  ++ [SWrite CRLF].

(** [show_status_prompt] reads the global [config] and writes to the
    console; it is given as the sequence of its console calls. *)
Definition show_status_prompt (cfg : config_entry_t) : list screen_item :=
  [SWrite PROGRAM_ID; SWrite MODULE_ADDRESS; SUint3d (my_address cfg)]
  ++ (if my_address cfg =? 0xfd then [SWrite IS_BROADCAST] else [])
  ++ [SWrite (CRLF +:+ CRLF); SWrite HEAT_SETTINGS_HEAD]
  ++ for_items 0 (Z.to_nat HEAT_SENSOR_LEN) (fun i =>
       [SWrite "   "; SUint2d (Z.of_nat i); SWrite "   ";
        SUint5d (heat_limit cfg !!! i); SWrite CRLF])
  ++ [SWrite CRLF; SWrite LED_SETTINGS_HEAD]
  ++ for_items 0 (Z.to_nat RGB_LED_COUNT) (fun l =>
       show_led l (led_infos cfg !!! l))
  ++ [SWrite CONSOLE_PROMPT].

End StatusScreen.

(** The numbers shown with five digits. *)
Definition shown_limits (screen : list screen_item) : list Z :=
  omap (fun item => match item with SUint5d n => Some n | _ => None end) screen.

(** The fixed-point numbers shown. *)
Definition shown_fixed (screen : list screen_item) : list fixed_t :=
  omap (fun item => match item with SFixed x _ => Some x | _ => None end) screen.

(** The numbers shown with two digits. *)
Definition shown_2d (screen : list screen_item) : list Z :=
  omap (fun item => match item with SUint2d n => Some n | _ => None end) screen.

(** The fixed-point numbers of one LED in the order of the screen: each
    row of the matrix, then the peak luminance of that row's primary. *)
Definition led_fixed (info : led_info_t) : list fixed_t :=
  [ color_matrix info !!! 0%nat; color_matrix info !!! 1%nat;
    color_matrix info !!! 2%nat; peak_Y info !!! 0%nat;
    color_matrix info !!! 3%nat; color_matrix info !!! 4%nat;
    color_matrix info !!! 5%nat; peak_Y info !!! 1%nat;
    color_matrix info !!! 6%nat; color_matrix info !!! 7%nat;
    color_matrix info !!! 8%nat; peak_Y info !!! 2%nat ].

(** The three channels of one LED. *)
Definition led_channels (info : led_info_t) : list Z :=
  [channels info !!! 0%nat; channels info !!! 1%nat; channels info !!! 2%nat].

(** ** What a computation leaves alone *)

(** [m] returns with the configuration it found. *)
Definition keeps_config {A} (m : M A) : Prop :=
  forall s a s', m s = Ret a s' -> config s' = config s.

(** [m] returns no status but [E_SUCCESS]. *)
Definition only_success (m : M error_t) : Prop :=
  forall s e s', m s = Ret e s' -> e = E_SUCCESS.

(** The keys of the commands that write to the configuration or run
    other commands. *)
Definition writing_keys : list ascii :=
  ["a"; "C"; "f"; "h"; "l"; "m"; "p"; "y"]%char.

(** When [m] returns a status other than [E_SUCCESS], the configuration
    is as [m] found it. *)
Definition failure_keeps_config (m : M error_t) : Prop :=
  forall s e s', m s = Ret e s' -> e ≠ E_SUCCESS -> config s' = config s.

(** ** The complaint of a command *)

(** The commands that take an LED index and nothing else that is
    checked: [c], [C], [m], [y]. *)
Inductive led_command : Type :=
| SetColor
| CalibrateLed
| SetCorrection
| SetMaxY.

Section Complaints.
Context {B : Board}.

Definition led_handler (c : led_command) : command_handler_t :=
  match c with
  | SetColor => run_set_color
  | CalibrateLed => run_calibrate_led
  | SetCorrection => run_set_correction
  | SetMaxY => run_set_max_Y
  end.

(** The message of the first range check that fails, in the order in
    which the handler makes the checks. *)
Definition first_complaint (c : multi_arg_command) (args : list Z) : option string :=
  match c with
  | SetPwmChannels =>
      if negb (in_range (arg args 0) RGB_LED_COUNT) then Some LED_OUT_OF_RANGE
      else if negb (in_range (arg args 1) MODULE_LENGTH
                    && in_range (arg args 2) MODULE_LENGTH
                    && in_range (arg args 3) MODULE_LENGTH)
      then Some CHANNEL_OUT_OF_RANGE
      else None
  | SetHeatLimit =>
      if negb (in_range (arg args 0) HEAT_SENSOR_LEN) then Some SENSOR_OUT_OF_RANGE
      else if negb (in_range (arg args 1) 0x10000) then Some HEAT_LIMIT_OUT_OF_RANGE
      else None
  | SetBrightness =>
      if negb (in_range (arg args 0) MODULE_LENGTH) then Some CHANNEL_OUT_OF_RANGE
      else if negb (in_range (arg args 1) 0x10000) then Some BRIGHTNESS_OUT_OF_RANGE
      else None
  end.

End Complaints.

(** ** The calls of the set-color command *)

(** What [run_set_color] prints before it drives the PWM. *)
Definition color_banner (rgb : list Z) : list event :=
  [ EWrite "Color correction: "; EUintD (rgb !!! RED); EWrite " ";
    EUintD (rgb !!! GREEN); EWrite " "; EUintD (rgb !!! BLUE); EWrite CRLF ].

(** The call that sets primary [i] of an LED to its corrected value. *)
Definition color_call (info : led_info_t) (rgb : list Z) (i : nat) : event :=
  ESetBrightness (channels info !!! i) (rgb !!! i).

(** ** Reloading and direct entry *)

(** What [run_reload_config] prints after [load_config] has returned. *)
Definition load_diagnostic (error : error_t) : list event :=
  match error with
  | E_SUCCESS => []
  | E_NOCONFIG => [EWrite NO_CONFIG_FOUND]
  | _ => [EWrite UNKNOWN_FLASH_ERROR]
  end.

(** The configuration after the cells [start], [start + 1], ... have
    been written with the values [vals] by [write]. *)
Fixpoint write_cells (write : nat -> Z -> config_entry_t -> config_entry_t)
    (start : nat) (vals : list Z) (cfg : config_entry_t) : config_entry_t :=
  match vals with
  | [] => cfg
  | v :: vals' => write_cells write (S start) vals' (write start v cfg)
  end.

(** The lines [lines] answer [console_ask_int] with the values [vals] in
    the radix [base]. *)
Definition answers (base : Z) (lines : list (list ascii)) (vals : list Z) : Prop :=
  answer base <$> lines = Some <$> vals.

(** The value [(fixed_t){ input }] for an [unsigned int] input. *)
Definition raw_fixed (v : Z) : fixed_t := Fixed (to_int v).

(** ** Help, echo and paste *)

(** The two writes of [run_help] for one command. *)
Definition usage_lines (comm : console_command_t) : list event :=
  [EWrite (usage comm); EWrite CRLF].

(** The line keeps the loop of [run_echo] going: it is "q". *)
Definition echo_goes_on (buf : list ascii) : bool :=
  Ascii.eqb (char_at buf 0) "q" && Ascii.eqb (char_at buf 1) NUL.

(** [rounds prompt n s s']: [n] rounds of the dispatcher lead from [s]
    to [s'], and none of them says to exit. *)
Inductive rounds (prompt : M bool) : nat -> State -> State -> Prop :=
| rounds_done (s : State) : rounds prompt 0 s s
| rounds_more (n : nat) (s s1 s' : State) :
    prompt s = Ret false s1 ->
    rounds prompt n s1 s' ->
    rounds prompt (S n) s s'.

(** ** Integers on a command line *)

(** Integer tokens, each with the white space after it, and the rest of
    the line after the last of them. *)
Fixpoint join_tokens (toks : list (list ascii * list ascii)) (tail : list ascii)
  : list ascii :=
  match toks with
  | [] => tail
  | (tok, ws) :: toks' => tok ++ ws ++ join_tokens toks' tail
  end.

(** Every token is a well-formed integer and is followed by white
    space, which only a token that ends the line may lack. *)
Fixpoint tokens_ok (base : Z) (toks : list (list ascii * list ascii))
    (tail : list ascii) : Prop :=
  match toks with
  | [] => True
  | (tok, ws) :: toks' =>
      well_formed_int base tok /\ blank ws
      /\ (ws ≠ [] \/ join_tokens toks' tail = [])
      /\ tokens_ok base toks' tail
  end.

(** The number a well-formed integer stands for, as [parse_int] reads
    it. *)
Definition token_value (base : Z) (tok : list ascii) : Z :=
  match parse_digits base tok 0 with
  | Some (v, _) => v
  | None => 0
  end.

(** * Properties *)

(** ** Integer conversions *)

Lemma to_int_small (u : Z) : 0 <= u < 2 ^ 31 -> to_int u = u.
Proof.
  intros H. unfold to_int.
  rewrite Z.mod_small by lia. lia.
Qed.

Lemma to_int_big (u : Z) : 2 ^ 31 <= u < 2 ^ 32 -> to_int u = u - 2 ^ 32.
Proof.
  intros H. unfold to_int.
  replace (u + 2 ^ 31) with ((u - 2 ^ 31) + 1 * 2 ^ 32) by lia.
  rewrite Z.mod_add by lia.
  rewrite Z.mod_small by lia. lia.
Qed.

(** An [unsigned int] that does not fit an [int] reads as negative. *)
Lemma to_int_big_negative (u : Z) : 2 ^ 31 <= u < 2 ^ 32 -> to_int u < 0.
Proof. intros H. rewrite to_int_big by done. lia. Qed.

Lemma to_int_range (u : Z) : - 2 ^ 31 <= to_int u < 2 ^ 31.
Proof.
  unfold to_int.
  pose proof (Z.mod_pos_bound (u + 2 ^ 31) (2 ^ 32)). lia.
Qed.

Lemma to_uint16_small (x : Z) : 0 <= x < 0x10000 -> to_uint16 x = x.
Proof. intros H. unfold to_uint16. apply Z.mod_small. lia. Qed.

(** ** Range checks *)

Section Handlers.
Context {B : Board}.

Lemma check_range_ok (value limit : Z) (message : string) (s : State) :
  0 <= value < limit ->
  check_range value limit message s = Ret E_SUCCESS s.
Proof.
  intros H. unfold check_range.
  destruct (value <? 0) eqn:E1; [lia|].
  destruct (value >=? limit) eqn:E2; [lia|]. done.
Qed.

Lemma check_range_fail (value limit : Z) (message : string) (s : State) :
  ¬ (0 <= value < limit) ->
  check_range value limit message s = Ret E_ARG_FORMAT (emit (EWrite message) s).
Proof.
  intros H. unfold check_range.
  destruct (value <? 0) eqn:E1; [done|].
  destruct (value >=? limit) eqn:E2; [done|]. lia.
Qed.

(** ** Setting the module address *)

(** C2.  Let [a] be the argument of the set-address command, an
    [unsigned int].  If [a] lies in [0, 0xfd], the handler returns
    [E_SUCCESS], the module address is [a] afterwards, the rest of the
    configuration is untouched, and the broadcast warning is written
    exactly when [a = 0xfd] (nothing is written otherwise).  If [a] lies
    outside, the handler returns [E_ARG_FORMAT], writes the
    address-out-of-range text and leaves the configuration as it was. *)
Theorem run_set_addr_correct (a : Z) (more : list Z) (s : State) :
  is_uint a ->
  (0 <= a <= 0xfd ->
     exists s',
       run_set_addr (a :: more) s = Ret E_SUCCESS s'
       /\ my_address (config s') = a
       /\ heat_limit (config s') = heat_limit (config s)
       /\ led_infos (config s') = led_infos (config s)
       /\ input s' = input s
       /\ trace s' = trace s ++ (if decide (a = 0xfd)
                                  then [EWrite WARN_BROADCAST_ADDR] else []))
  /\ (¬ (0 <= a <= 0xfd) ->
     exists s',
       run_set_addr (a :: more) s = Ret E_ARG_FORMAT s'
       /\ config s' = config s
       /\ input s' = input s
       /\ trace s' = trace s ++ [EWrite ADDR_OUT_OF_RANGE]).
Proof.
  intros [Hlo Hhi]. unfold run_set_addr, arg. simpl.
  split.
  - intros Ha. rewrite to_int_small by lia.
    destruct (a <? 0) eqn:E1; [lia|].
    destruct (a >? 0xfd) eqn:E2; [lia|]. simpl.
    destruct (decide (a = 0xfd)) as [->|Hne].
    + eexists. split; [reflexivity|]. simpl. auto.
    + destruct (a =? 0xfd) eqn:E3; [lia|].
      eexists. split; [reflexivity|]. simpl.
      rewrite app_nil_r. auto.
  - intros Ha.
    assert (Hbad : (to_int a <? 0) || (to_int a >? 0xfd) = true).
    { destruct (decide (a < 2 ^ 31)).
      - rewrite to_int_small by lia.
        apply orb_true_iff. right. lia.
      - pose proof (to_int_big_negative a ltac:(lia)).
        apply orb_true_iff. left. lia. }
    rewrite Hbad. eexists. split; [reflexivity|]. simpl. auto.
Qed.

End Handlers.

(** The set-address command at the addresses 5, 0xfd and 300. *)
Lemma run_set_addr_correct_witness :
  (exists s',
     run_set_addr [5] (example_state []) = Ret E_SUCCESS s'
     /\ my_address (config s') = 5
     /\ heat_limit (config s') = heat_limit (config (example_state []))
     /\ led_infos (config s') = led_infos (config (example_state []))
     /\ input s' = input (example_state [])
     /\ trace s' = trace (example_state []) ++ (if decide (5 = 0xfd)
                                  then [EWrite WARN_BROADCAST_ADDR] else []))
  /\ (exists s',
     run_set_addr [300] (example_state []) = Ret E_ARG_FORMAT s'
     /\ config s' = config (example_state [])
     /\ input s' = input (example_state [])
     /\ trace s' = trace (example_state []) ++ [EWrite ADDR_OUT_OF_RANGE]).
Proof.
  split.
  - apply (run_set_addr_correct 5 [] (example_state [])); unfold is_uint; lia.
  - apply (run_set_addr_correct 300 [] (example_state [])); unfold is_uint; lia.
Defined.

(** ** Arguments that do not fit an [int] *)

(** One step through a range check: either it passes, or the handler is
    left with the complaint. *)
Ltac step_check :=
  unfold bind, check_channel_index, check_led_index, check_short; simpl;
  match goal with
  | |- context [check_range ?v ?l ?m ?s] =>
      let H := fresh "Hrange" in
      destruct (decide (0 <= v < l)) as [H|H];
      [ rewrite (check_range_ok v l m s H)
      | rewrite (check_range_fail v l m s H) ];
      simpl
  end.

Ltac by_rejection := eexists; reflexivity.

Section CheckedArgumentsProofs.
Context {B : Board}.

Lemma rejected_config (r : outcome error_t) (s : State) :
  rejected r s ->
  exists s', r = Ret E_ARG_FORMAT s' /\ config s' = config s
             /\ input s' = input s.
Proof. intros [msg ->]. eexists. split; [reflexivity|]. done. Qed.

(** C10.  Whichever range-checked argument of whichever handler
    (address; channel and brightness of [b]; LED index of [c], [C], [m],
    [p], [y]; the three channels of [p]; sensor and limit of [h]) holds an
    [unsigned int] of 2^31 or more, the handler returns [E_ARG_FORMAT]
    having written one message, and configuration and input are as
    before: read as an [int] the value is negative and fails the check,
    so it cannot wrap into the accepted range. *)
Theorem large_argument_rejected (c : checked_arg) (args : list Z) (s : State) :
  2 ^ 31 <= arg args (checked_position c) < 2 ^ 32 ->
  exists s',
    checked_handler c args s = Ret E_ARG_FORMAT s'
    /\ config s' = config s
    /\ input s' = input s
    /\ exists msg, trace s' = trace s ++ [EWrite msg].
Proof.
  intros Hbig. apply to_int_big_negative in Hbig.
  cut (rejected (checked_handler c args s) s).
  { intros [msg ->]. eexists. split; [reflexivity|]. simpl. eauto. }
  destruct c; simpl in Hbig |- *.
  - unfold run_set_addr.
    destruct (to_int (arg args 0) <? 0) eqn:E; [|lia]. simpl. by_rejection.
  - unfold run_set_brightness, bind. step_check; [lia|]. by_rejection.
  - unfold run_set_brightness, bind. step_check; [|by_rejection].
    step_check; [lia|]. by_rejection.
  - unfold run_set_color, bind. step_check; [lia|]. by_rejection.
  - unfold run_calibrate_led, bind. step_check; [lia|]. by_rejection.
  - unfold run_set_heat_limit, bind. step_check; [lia|]. by_rejection.
  - unfold run_set_heat_limit, bind. step_check; [|by_rejection].
    step_check; [lia|]. by_rejection.
  - unfold run_set_correction, bind. step_check; [lia|]. by_rejection.
  - unfold run_set_pwm_channels, bind. step_check; [lia|]. by_rejection.
  - unfold run_set_pwm_channels, bind. step_check; [|by_rejection].
    step_check; [lia|]. by_rejection.
  - unfold run_set_pwm_channels, bind. step_check; [|by_rejection].
    step_check; [|by_rejection]. step_check; [lia|]. by_rejection.
  - unfold run_set_pwm_channels, bind. step_check; [|by_rejection].
    step_check; [|by_rejection]. step_check; [|by_rejection].
    step_check; [lia|]. by_rejection.
  - unfold run_set_max_Y, bind. step_check; [lia|]. by_rejection.
Qed.

End CheckedArgumentsProofs.

(** The value [2^32 - 1] as the brightness of channel 3. *)
Lemma large_argument_rejected_witness :
  2 ^ 31 <= arg [3; 4294967295] (checked_position BrightnessValueArg) < 2 ^ 32
  /\ exists s',
    checked_handler (B := example_board) BrightnessValueArg [3; 4294967295]
      (example_state []) = Ret E_ARG_FORMAT s'
    /\ config s' = config (example_state [])
    /\ input s' = input (example_state [])
    /\ exists msg, trace s' = trace (example_state []) ++ [EWrite msg].
Proof.
  assert (H : 2 ^ 31 <= arg [3; 4294967295] (checked_position BrightnessValueArg)
              < 2 ^ 32) by (vm_compute; split; congruence).
  split; [exact H|].
  exact (large_argument_rejected (B := example_board) BrightnessValueArg
           [3; 4294967295] (example_state []) H).
Defined.

(** ** Validation before mutation *)

Section MultiArgProofs.
Context {B : Board}.

Lemma in_range_true (u limit : Z) :
  in_range u limit = true <-> 0 <= to_int u < limit.
Proof. unfold in_range. rewrite andb_true_iff. lia. Qed.

Lemma in_range_false (u limit : Z) :
  in_range u limit = false <-> ¬ (0 <= to_int u < limit).
Proof.
  rewrite <- in_range_true. destruct (in_range u limit); split; congruence.
Qed.

(** C1.  For the commands with several arguments ([p], [h], [b]): if any
    range check fails, the handler returns [E_ARG_FORMAT] having written
    one message, and the configuration (every field of it) and the input
    are what they were; if all checks pass, the configuration is the one
    with the whole command applied.  So no failing command leaves a part
    of its update behind. *)
Theorem validation_before_mutation (c : multi_arg_command) (args : list Z)
    (s : State) :
  (multi_arg_valid c args = false ->
     exists s',
       multi_arg_handler c args s = Ret E_ARG_FORMAT s'
       /\ config s' = config s
       /\ input s' = input s
       /\ exists msg, trace s' = trace s ++ [EWrite msg])
  /\ (multi_arg_valid c args = true ->
     exists e s',
       multi_arg_handler c args s = Ret e s'
       /\ config s' = multi_arg_effect c args (config s)).
Proof.
  split.
  - intros Hbad.
    cut (rejected (multi_arg_handler c args s) s).
    { intros [msg ->]. eexists. split; [reflexivity|]. simpl. eauto. }
    destruct c; cbn [multi_arg_valid multi_arg_handler] in Hbad |- *;
      rewrite !andb_false_iff, !in_range_false in Hbad; destruct_or!.
    + unfold run_set_pwm_channels. step_check; [done|]. by_rejection.
    + unfold run_set_pwm_channels. step_check; [|by_rejection].
      step_check; [done|]. by_rejection.
    + unfold run_set_pwm_channels. step_check; [|by_rejection].
      step_check; [|by_rejection]. step_check; [done|]. by_rejection.
    + unfold run_set_pwm_channels. step_check; [|by_rejection].
      step_check; [|by_rejection]. step_check; [|by_rejection].
      step_check; [done|]. by_rejection.
    + unfold run_set_heat_limit. step_check; [done|]. by_rejection.
    + unfold run_set_heat_limit. step_check; [|by_rejection].
      step_check; [done|]. by_rejection.
    + unfold run_set_brightness. step_check; [done|]. by_rejection.
    + unfold run_set_brightness. step_check; [|by_rejection].
      step_check; [done|]. by_rejection.
  - intros Hok.
    destruct c; cbn [multi_arg_valid multi_arg_handler multi_arg_effect] in Hok |- *;
      rewrite !andb_true_iff, !in_range_true in Hok; destruct_and!.
    + unfold run_set_pwm_channels.
      do 4 (step_check; [|lia]).
      do 2 eexists. split; [reflexivity|]. reflexivity.
    + unfold run_set_heat_limit.
      do 2 (step_check; [|lia]).
      do 2 eexists. split; [reflexivity|]. reflexivity.
    + unfold run_set_brightness.
      do 2 (step_check; [|lia]).
      unfold call_pwm_set_brightness, call_pwm_send_frame.
      destruct (failed _); do 2 eexists; (split; [reflexivity|]); reflexivity.
Qed.

End MultiArgProofs.

(** The heat limit 70000 for sensor 3, and the channel 99 as the last
    argument of [p]. *)
Lemma validation_before_mutation_witness :
  (exists s',
     multi_arg_handler (B := example_board) SetPwmChannels [1; 2; 3; 99]
       (example_state []) = Ret E_ARG_FORMAT s'
     /\ config s' = config (example_state [])
     /\ input s' = input (example_state [])
     /\ exists msg, trace s' = trace (example_state []) ++ [EWrite msg])
  /\ (exists e s',
     multi_arg_handler (B := example_board) SetHeatLimit [3; 700]
       (example_state []) = Ret e s'
     /\ config s' = multi_arg_effect SetHeatLimit [3; 700]
                      (config (example_state []))).
Proof.
  split.
  - apply (validation_before_mutation (B := example_board) SetPwmChannels
             [1; 2; 3; 99] (example_state [])).
    vm_compute. reflexivity.
  - apply (validation_before_mutation (B := example_board) SetHeatLimit
             [3; 700] (example_state [])).
    vm_compute. reflexivity.
Defined.

(** ** Setting a brightness *)

Section BrightnessProofs.
Context {B : Board}.

Lemma in_range_uint (u limit : Z) :
  is_uint u -> in_range u limit = true -> to_int u = u /\ 0 <= u < limit.
Proof.
  intros [Hlo Hhi] Hin. apply in_range_true in Hin.
  destruct (decide (u < 2 ^ 31)).
  - rewrite to_int_small in Hin |- * by lia. lia.
  - pose proof (to_int_big_negative u ltac:(lia)). lia.
Qed.

(** C8, as the code has it.  Let [c] and [v] be the arguments of the
    set-brightness command.  If [c] is a channel index and [v] is in
    [0, 0xffff], [pwm_set_brightness] is called once, with the converted
    channel [convert_channel_index c] and with [v]; [pwm_send_frame] is
    called once after it when that call succeeded, and its status is the
    command's; when [pwm_set_brightness] failed, its status is the
    command's and no frame is sent.  If [c] or [v] is out of range, the
    command returns [E_ARG_FORMAT] having written one message, and
    neither PWM function is called.  The configuration stays as it is in
    every case. *)
Theorem run_set_brightness_calls (c v : Z) (more : list Z) (s : State) :
  is_uint c -> is_uint v ->
  (in_range c MODULE_LENGTH && in_range v 0x10000 = true ->
     let call := ESetBrightness (convert_channel_index c) v in
     let error := pwm_set_brightness (trace s) (convert_channel_index c) v in
     run_set_brightness (c :: v :: more) s =
       if failed error then Ret error (emit call s)
       else Ret (pwm_send_frame (trace s ++ [call])) (emit ESendFrame (emit call s)))
  /\ (in_range c MODULE_LENGTH && in_range v 0x10000 = false ->
     exists msg,
       run_set_brightness (c :: v :: more) s = Ret E_ARG_FORMAT (emit (EWrite msg) s)).
Proof.
  intros Hc Hv. split.
  - intros Hok. apply andb_true_iff in Hok as [Hc' Hv'].
    destruct (in_range_uint c _ Hc Hc') as [Ec Hcr].
    destruct (in_range_uint v _ Hv Hv') as [Ev Hvr].
    unfold run_set_brightness, arg. simpl. rewrite Ec, Ev.
    do 2 (step_check; [|lia]).
    rewrite to_uint16_small by lia.
    unfold call_pwm_set_brightness, call_pwm_send_frame.
    destruct (failed _); reflexivity.
  - intros Hbad.
    rewrite andb_false_iff, !in_range_false in Hbad.
    unfold run_set_brightness, arg. simpl.
    destruct Hbad as [Hbad|Hbad].
    + step_check; [done|]. by_rejection.
    + step_check; [|by_rejection]. step_check; [done|]. by_rejection.
Qed.

End BrightnessProofs.

(** Channel 3 at brightness 500, and channel 3 at brightness 70000. *)
Lemma run_set_brightness_calls_witness :
  (let call := ESetBrightness (convert_channel_index (Board := reversed_board) 3) 500 in
   let error := pwm_set_brightness (Board := reversed_board)
                  (trace (example_state []))
                  (convert_channel_index (Board := reversed_board) 3) 500 in
   run_set_brightness (B := reversed_board) [3; 500] (example_state []) =
     if failed error then Ret error (emit call (example_state []))
     else Ret (pwm_send_frame (Board := reversed_board)
                 (trace (example_state []) ++ [call]))
              (emit ESendFrame (emit call (example_state []))))
  /\ (exists msg,
       run_set_brightness (B := reversed_board) [3; 70000] (example_state [])
       = Ret E_ARG_FORMAT (emit (EWrite msg) (example_state []))).
Proof.
  split.
  - apply (run_set_brightness_calls (B := reversed_board) 3 500 [] (example_state []));
      [unfold is_uint; lia | unfold is_uint; lia | vm_compute; reflexivity].
  - apply (run_set_brightness_calls (B := reversed_board) 3 70000 [] (example_state []));
      [unfold is_uint; lia | unfold is_uint; lia | vm_compute; reflexivity].
Defined.

(** C8 as stated fails.  With channel and brightness in range:
    on a board whose PWM driver reports an error, [pwm_set_brightness] is
    called and no frame is sent; on a board whose channels are wired in
    reverse, the call carries the converted channel 12, not the channel 3
    that was given. *)
Lemma set_brightness_pair_and_frame_counterexample :
  (in_range 0 (MODULE_LENGTH (Board := failing_pwm_board)) && in_range 0 0x10000 = true
   /\ ¬ exists e s',
       run_set_brightness (B := failing_pwm_board) [0; 0] (example_state [])
       = Ret e s'
       /\ trace s' = trace (example_state []) ++ [ESetBrightness 0 0; ESendFrame])
  /\ (in_range 3 (MODULE_LENGTH (Board := reversed_board)) && in_range 500 0x10000 = true
   /\ ¬ exists e s',
       run_set_brightness (B := reversed_board) [3; 500] (example_state [])
       = Ret e s'
       /\ trace s' = trace (example_state []) ++ [ESetBrightness 3 500; ESendFrame]).
Proof.
  split; (split; [vm_compute; reflexivity|]);
    intros (e & s' & Hrun & Htrace);
    vm_compute in Hrun; inversion Hrun; subst s';
    vm_compute in Htrace; discriminate Htrace.
Qed.

(** ** Saving the configuration *)

Section SaveProofs.
Context {B : Board}.

Lemma new_events_app (s s' : State) (evs : list event) :
  trace s' = trace s ++ evs -> new_events s s' = evs.
Proof.
  intros E. unfold new_events. rewrite E. by rewrite drop_app_length.
Qed.

(** C7.  The save command always returns.  If [config_valid] rejects the
    configuration, it writes the invalid-configuration text, returns
    [E_NOCONFIG] and does nothing else; if [config_valid] accepts it,
    [save_config] is called once and its status, [E_FLASH_WRITE]
    included, is the command's result.  So [save_config] is among the
    calls of the command exactly when the configuration is valid. *)
Theorem run_save_config_gated (args : list Z) (s : State) :
  (config_valid (config s) = false ->
     run_save_config args s = Ret E_NOCONFIG (emit (EWrite CONFIG_IS_INVALID) s))
  /\ (config_valid (config s) = true ->
     let error := save_config (trace s ++ [EWrite SAVING_CONFIG]) (config s) in
     run_save_config args s =
       Ret error
           (MkState (config s) (input s)
              (trace s ++ [EWrite SAVING_CONFIG; ESaveConfig (config s)]
                       ++ save_diagnostic error)))
  /\ (exists e s',
        run_save_config args s = Ret e s'
        /\ (existsb is_save (new_events s s') = config_valid (config s))
        /\ (config_valid (config s) = true ->
            save_config (trace s ++ [EWrite SAVING_CONFIG]) (config s) = E_FLASH_WRITE ->
            e = E_FLASH_WRITE)).
Proof.
  assert (Hbad : config_valid (config s) = false ->
     run_save_config args s = Ret E_NOCONFIG (emit (EWrite CONFIG_IS_INVALID) s)).
  { intros E. unfold run_save_config, bind, get_config. rewrite E. reflexivity. }
  assert (Hok : config_valid (config s) = true ->
     run_save_config args s =
       Ret (save_config (trace s ++ [EWrite SAVING_CONFIG]) (config s))
           (MkState (config s) (input s)
              (trace s ++ [EWrite SAVING_CONFIG; ESaveConfig (config s)]
                 ++ save_diagnostic
                      (save_config (trace s ++ [EWrite SAVING_CONFIG]) (config s))))).
  { intros E. unfold run_save_config, bind, get_config. rewrite E. simpl.
    unfold call_save_config. simpl.
    destruct (save_config _ _); simpl; unfold emit; simpl;
      rewrite <- ?app_assoc; reflexivity. }
  split; [exact Hbad|]. split; [exact Hok|].
  destruct (config_valid (config s)) eqn:E.
  - rewrite (Hok eq_refl). do 2 eexists. split; [reflexivity|]. split.
    + erewrite new_events_app by reflexivity. reflexivity.
    + intros _ ->. reflexivity.
  - rewrite (Hbad eq_refl). do 2 eexists. split; [reflexivity|]. split.
    + erewrite new_events_app by reflexivity. reflexivity.
    + discriminate.
Qed.

End SaveProofs.

(** Saving the address 0xff, which the example board calls invalid, and
    saving a valid configuration to a flash that fails. *)
Lemma run_save_config_gated_witness :
  run_save_config (B := example_board) []
      (MkState (set_my_address 0xff example_config) [] [])
    = Ret E_NOCONFIG
        (emit (EWrite CONFIG_IS_INVALID)
           (MkState (set_my_address 0xff example_config) [] []))
  /\ run_save_config (B := failing_flash_board) [] (example_state [])
    = Ret E_FLASH_WRITE
        (MkState example_config []
           [EWrite SAVING_CONFIG; ESaveConfig example_config;
            EWrite FLASH_WRITE_FAILED]).
Proof.
  split.
  - apply (run_save_config_gated (B := example_board) []
             (MkState (set_my_address 0xff example_config) [] [])).
    vm_compute. reflexivity.
  - apply (run_save_config_gated (B := failing_flash_board) [] (example_state [])).
    vm_compute. reflexivity.
Defined.

(** ** The echo mode *)

(** The loop of [run_echo] is left by the first line that is not "q". *)
Lemma run_echo_loop_other (buf : list ascii) (rest : list (list ascii)) (s : State) :
  Ascii.eqb (char_at buf 0) "q" && Ascii.eqb (char_at buf 1) NUL = false ->
  run_echo_loop (buf :: rest) s = Ret tt (with_input rest s).
Proof. intros E. simpl. rewrite E. reflexivity. Qed.

(** A line "q" keeps the loop of [run_echo] going. *)
Lemma run_echo_loop_q (rest : list (list ascii)) (s : State) :
  run_echo_loop (text "q" :: rest) s = run_echo_loop rest (with_input rest s).
Proof. reflexivity. Qed.

(** As long as only "q" lines arrive, [run_echo] does not return. *)
Lemma run_echo_loop_all_q (n : nat) (s : State) :
  run_echo_loop (replicate n (text "q")) s = Blocked.
Proof.
  revert s. induction n as [|n IH]; intros s; [reflexivity|].
  simpl replicate. rewrite run_echo_loop_q. apply IH.
Qed.

(** C5 on the code.  With the lines "hello" and "q" to come, [run_echo]
    returns [E_SUCCESS] after "hello" and leaves the "q" unread: it does
    not stay in echo mode until "q".  With "q" lines only, it does not
    return.  Run from the dispatcher, the echo command is over after
    "hello", and the "q" that was to finish it is the next command. *)
Theorem run_echo_leaves_before_q :
  run_echo [] (example_state ["hello"; "q"])
    = Ret E_SUCCESS (MkState example_config [text "q"] [EWrite BEGINNING_ECHO])
  /\ run_echo [] (example_state ["q"; "q"; "q"]) = Blocked
  /\ run_command_prompt (B := example_board) 2 (example_state ["e"; "hello"; "q"])
    = Ret false (MkState example_config [text "q"] [EWrite BEGINNING_ECHO])
  /\ run_command_prompt (B := example_board) 2
       (MkState example_config [text "q"] [EWrite BEGINNING_ECHO])
    = Ret true (MkState example_config [] [EWrite BEGINNING_ECHO]).
Proof. repeat split; vm_compute; reflexivity. Qed.

(** ** The dispatcher *)

Section DispatcherProofs.
Context {B : Board}.

Lemma failed_false (e : error_t) : failed e = false <-> e = E_SUCCESS.
Proof. destruct e; simpl; split; congruence. Qed.

Lemma failed_true (e : error_t) : failed e = true <-> e ≠ E_SUCCESS.
Proof. destruct e; simpl; split; congruence. Qed.

(** One round of the dispatcher reads a line and dispatches it. *)
Lemma run_command_prompt_step (fuel : nat) (line : list ascii)
    (rest : list (list ascii)) (s : State) :
  input s = line :: rest ->
  run_command_prompt (S fuel) s =
    dispatch (run_paste_file (run_command_prompt fuel) fuel) line (with_input rest s).
Proof.
  intros E. simpl. unfold bind, console_getline. rewrite E. reflexivity.
Qed.

Lemma run_command_prompt_no_line (fuel : nat) (s : State) :
  input s = [] -> run_command_prompt (S fuel) s = Blocked.
Proof.
  intros E. simpl. unfold bind, console_getline. rewrite E. reflexivity.
Qed.

Lemma dispatch_unknown (paste : command_handler_t) (line : list ascii) (s : State) :
  get_command paste (char_at line 0) = None ->
  dispatch paste line s = Ret false (emit (EWrite WRONG_COMMAND) s).
Proof. intros E. unfold dispatch. rewrite E. reflexivity. Qed.

Lemma dispatch_parse_error (paste : command_handler_t) (line : list ascii)
    (s : State) (comm : console_command_t) (error : error_t) (args : list Z) :
  get_command paste (char_at line 0) = Some comm ->
  parse_args line (arg_length comm) = (error, args) ->
  error ≠ E_SUCCESS ->
  dispatch paste line s =
    Ret false
      (MkState (config s) (input s)
         (trace s ++ [EWrite (parser_diagnostic error); EWrite USAGE;
                      EWrite (usage comm); EWrite CRLF])).
Proof.
  intros Ec Ep Hne. unfold dispatch. rewrite Ec, Ep.
  apply failed_true in Hne. rewrite Hne.
  unfold bind, console_write, log, ret, emit. simpl.
  rewrite <- !app_assoc. reflexivity.
Qed.

Lemma dispatch_handler (paste : command_handler_t) (line : list ascii)
    (s : State) (comm : console_command_t) (args : list Z) :
  get_command paste (char_at line 0) = Some comm ->
  parse_args line (arg_length comm) = (E_SUCCESS, args) ->
  dispatch paste line s =
    match handler comm args s with
    | Ret e s1 =>
        if failed e then Ret false (emit (EWrite ERROR_RUNNING_COMMAND) s1)
        else Ret (does_exit comm) s1
    | Blocked => Blocked
    | OutOfFuel => OutOfFuel
    end.
Proof.
  intros Ec Ep. unfold dispatch. rewrite Ec, Ep. simpl.
  unfold bind. destruct (handler comm args s) as [e s1| |]; try reflexivity.
  destruct (failed e); reflexivity.
Qed.

End DispatcherProofs.

(** ** Paste sessions *)

Section PasteProofs.
Context {B : Board}.

Lemma get_command_paste (paste : command_handler_t) :
  get_command paste "f" = Some (Command "f" 0 paste "f: Paste a command file" false).
Proof. reflexivity. Qed.

Lemma parse_args_none (line : list ascii) : parse_args line 0 = (E_SUCCESS, []).
Proof. reflexivity. Qed.

Lemma dispatch_quit (paste : command_handler_t) (s : State) :
  dispatch paste (text "q") s = Ret true s.
Proof. reflexivity. Qed.

(** A line that begins with [f] runs the paste handler; the round
    answers exit=false whatever happened inside. *)
Lemma dispatch_paste (paste : command_handler_t) (line : list ascii) (s : State) :
  char_at line 0 = "f"%char ->
  dispatch paste line s =
    match paste [] s with
    | Ret e s1 =>
        if failed e then Ret false (emit (EWrite ERROR_RUNNING_COMMAND) s1)
        else Ret false s1
    | Blocked => Blocked
    | OutOfFuel => OutOfFuel
    end.
Proof.
  intros E.
  rewrite (dispatch_handler paste line s
             (Command "f" 0 paste "f: Paste a command file" false) []).
  - reflexivity.
  - rewrite E. apply get_command_paste.
  - apply parse_args_none.
Qed.

Lemma run_paste_file_unfold (prompt : M bool) (budget : nat) (args : list Z)
    (s : State) :
  run_paste_file prompt budget args s =
    match run_paste_loop prompt budget (emit (EWrite PASTE_NOW) s) with
    | Ret _ s' => Ret E_SUCCESS s'
    | Blocked => Blocked
    | OutOfFuel => OutOfFuel
    end.
Proof.
  unfold run_paste_file, bind, console_write, log, ret.
  destruct (run_paste_loop _ _ _); reflexivity.
Qed.

Lemma run_paste_loop_exit (prompt : M bool) (budget : nat) (s s' : State) :
  prompt s = Ret true s' ->
  run_paste_loop prompt (S budget) s = Ret tt s'.
Proof. intros E. simpl. unfold bind. rewrite E. reflexivity. Qed.

Lemma run_paste_loop_again (prompt : M bool) (budget : nat) (s s' : State) :
  prompt s = Ret false s' ->
  run_paste_loop prompt (S budget) s = run_paste_loop prompt budget s'.
Proof. intros E. simpl. unfold bind. rewrite E. reflexivity. Qed.

(** The round that runs a paste command never answers exit=true. *)
Lemma paste_round_does_not_exit (fuel : nat) (line : list ascii)
    (rest : list (list ascii)) (s s' : State) (b : bool) :
  input s = line :: rest ->
  char_at line 0 = "f"%char ->
  run_command_prompt fuel s = Ret b s' ->
  b = false.
Proof.
  intros Ein Ef. destruct fuel as [|fuel]; [discriminate|].
  rewrite (run_command_prompt_step fuel line rest s Ein).
  rewrite dispatch_paste by done.
  destruct (run_paste_file _ _ _ _) as [e s1| |]; try discriminate.
  destruct (failed e); congruence.
Qed.

(** The round that reads the line "f". *)
Lemma paste_line_step (fuel : nat) (cfg : config_entry_t)
    (lines : list (list ascii)) (tr : list event) :
  run_command_prompt (S fuel) (MkState cfg (text "f" :: lines) tr) =
    match run_paste_loop (run_command_prompt fuel) fuel
            (MkState cfg lines (tr ++ [EWrite PASTE_NOW])) with
    | Ret _ s' => Ret false s'
    | Blocked => Blocked
    | OutOfFuel => OutOfFuel
    end.
Proof.
  erewrite run_command_prompt_step by reflexivity.
  rewrite dispatch_paste by reflexivity.
  rewrite run_paste_file_unfold.
  change (emit (EWrite PASTE_NOW) (with_input lines (MkState cfg (text "f" :: lines) tr)))
    with (MkState cfg lines (tr ++ [EWrite PASTE_NOW])).
  destruct (run_paste_loop _ _ _); reflexivity.
Qed.

(** The round that reads the line "q". *)
Lemma quit_line_step (fuel : nat) (cfg : config_entry_t)
    (lines : list (list ascii)) (tr : list event) :
  run_command_prompt (S fuel) (MkState cfg (text "q" :: lines) tr)
  = Ret true (MkState cfg lines tr).
Proof.
  erewrite run_command_prompt_step by reflexivity.
  apply dispatch_quit.
Qed.

(** [k] paste commands, each inside the one before, then [k] quit
    commands: every quit ends one paste loop, the innermost first, and
    the round that read the first paste command answers exit=false. *)
Lemma nested_paste_quit (k : nat) :
  forall (fuel : nat) (cfg : config_entry_t) (rest : list (list ascii))
         (tr : list event),
    (S k < fuel)%nat ->
    run_command_prompt fuel
      (MkState cfg
         (replicate (S k) (text "f") ++ replicate (S k) (text "q") ++ rest) tr)
    = Ret false (MkState cfg rest (tr ++ replicate (S k) (EWrite PASTE_NOW))).
Proof.
  induction k as [|k IH]; intros fuel cfg rest tr Hfuel.
  - destruct fuel as [|[|fuel]]; [lia|lia|].
    change (replicate 1 (text "f") ++ replicate 1 (text "q") ++ rest)
      with (text "f" :: text "q" :: rest).
    rewrite paste_line_step.
    erewrite run_paste_loop_exit by apply quit_line_step.
    reflexivity.
  - destruct fuel as [|[|[|fuel]]]; [lia|lia|lia|].
    change (replicate (S (S k)) (text "f"))
      with (text "f" :: replicate (S k) (text "f")).
    rewrite (replicate_S_end (S k) (text "q")).
    rewrite <- app_comm_cons, <- (app_assoc (replicate (S k) (text "q"))).
    rewrite paste_line_step.
    erewrite run_paste_loop_again by (apply IH; lia).
    erewrite run_paste_loop_exit by apply quit_line_step.
    rewrite <- app_assoc. reflexivity.
Qed.

(** C9, as the code has it.  A quit command read inside a paste session
    ends that session only: the round of the dispatcher that ran the paste
    command answers exit=false, as the paste command is declared with
    [does_exit = 0].  So with [k] nested paste commands followed by [k]
    quit commands, each quit ends one paste loop and the outermost
    dispatcher call returns exit=false with the lines after them still to
    be read; and whatever a paste session reads, the round that started
    it never returns exit=true. *)
Theorem quit_ends_innermost_paste (k fuel : nat) (cfg : config_entry_t)
    (rest : list (list ascii)) (tr : list event) :
  (S k < fuel)%nat ->
  run_command_prompt fuel
    (MkState cfg
       (replicate (S k) (text "f") ++ replicate (S k) (text "q") ++ rest) tr)
  = Ret false (MkState cfg rest (tr ++ replicate (S k) (EWrite PASTE_NOW)))
  /\ forall (lines : list (list ascii)) (s' : State),
       run_command_prompt fuel (MkState cfg (text "f" :: lines) tr) ≠ Ret true s'.
Proof.
  intros Hfuel. split.
  - apply nested_paste_quit. exact Hfuel.
  - intros lines s' E.
    pose proof (paste_round_does_not_exit fuel (text "f") lines
                  (MkState cfg (text "f" :: lines) tr) s' true
                  eq_refl eq_refl E).
    discriminate.
Qed.

End PasteProofs.

(** Two nested paste commands and their two quit commands, with one more
    line after them. *)
Lemma quit_ends_innermost_paste_witness :
  (2 < 3)%nat
  /\ run_command_prompt (B := example_board) 3
       (MkState example_config
          (replicate 2 (text "f") ++ replicate 2 (text "q") ++ [text "a 5"]) [])
     = Ret false
         (MkState example_config [text "a 5"]
            ([] ++ replicate 2 (EWrite PASTE_NOW)))
  /\ forall (lines : list (list ascii)) (s' : State),
       run_command_prompt (B := example_board) 3
         (MkState example_config (text "f" :: lines) []) ≠ Ret true s'.
Proof.
  split; [lia|].
  apply (quit_ends_innermost_paste (B := example_board) 1 3 example_config
           [text "a 5"] []).
  lia.
Defined.

(** C9 as stated fails.  The lines are a paste command and a quit
    command.  The quit is read inside the paste session and ends it; the
    dispatcher call that read the paste command returns exit=false, and
    does so whatever the recursion budget. *)
Lemma quit_inside_paste_counterexample :
  run_command_prompt (B := example_board) 2 (example_state ["f"; "q"])
    = Ret false (MkState example_config [] [EWrite PASTE_NOW])
  /\ forall (fuel : nat) (s' : State),
       run_command_prompt (B := example_board) fuel (example_state ["f"; "q"])
       ≠ Ret true s'.
Proof.
  split; [vm_compute; reflexivity|].
  intros fuel s' E.
  pose proof (paste_round_does_not_exit (B := example_board) fuel (text "f")
                [text "q"] (example_state ["f"; "q"]) s' true
                eq_refl eq_refl E).
  discriminate.
Qed.

(** ** Calibration *)

Section CalibrationProofs.
Context {B : Board}.

Lemma bind_ret_eq {A C} (m : M A) (k : A -> M C) (s s' : State) (a : A) :
  m s = Ret a s' -> bind m k s = k a s'.
Proof. intros E. unfold bind. rewrite E. reflexivity. Qed.

Lemma bind_bind {A C D} (m : M A) (k1 : A -> M C) (k2 : C -> M D) (s : State) :
  bind (bind m k1) k2 s = bind m (fun a => bind (k1 a) k2) s.
Proof. unfold bind. destruct (m s); reflexivity. Qed.

Lemma console_ask_int_answer (prompt : string) (base : Z) (line : list ascii)
    (rest : list (list ascii)) (v : Z) (s : State) :
  input s = line :: rest ->
  answer base line = Some v ->
  console_ask_int prompt base s = Ret v (with_input rest (emit (EWrite prompt) s)).
Proof.
  intros Ein Ea. unfold console_ask_int. rewrite Ein. simpl.
  unfold answer in Ea.
  destruct (parse_int line 0 base) as [[e p] w].
  destruct e; try discriminate. congruence.
Qed.

Lemma enters_inv (lines : list (list ascii)) (p : primary_entry) :
  enters lines p ->
  exists lx ly li lf,
    lines = [lx; ly; li; lf]
    /\ answer 10 lx = Some (entry_x p)
    /\ answer 10 ly = Some (entry_y p)
    /\ answer 10 li = Some (entry_Y_int p)
    /\ answer 10 lf = Some (entry_Y_frac p).
Proof.
  unfold enters. intros E.
  destruct lines as [|lx [|ly [|li [|lf [|]]]]]; try discriminate.
  injection E as E1 E2 E3 E4. eauto 10.
Qed.

(** One pass of the outer loop of [run_calibrate_led]: the color [c] is
    announced, x and y go to the cells [c] and [3 + c] of the matrix, and
    the peak luminance goes to the configuration. *)
Lemma calibrate_primary (led c : nat) (lines : list (list ascii))
    (rest : list (list ascii)) (p : primary_entry) (matrix : list fixed_t)
    (cfg : config_entry_t) (tr : list event) :
  enters lines p ->
  exists tr',
    ( console_write (COLOR_NAMES !!! c) ;;;
      matrix <- for_fold 0 2 (fun v matrix =>
          input <- console_ask_int (VALUE_NAMES !!! v) 10 ;;
          ret (<[(3 * v + c)%nat := fixfract input]> matrix)) matrix ;;
      Y_int <- console_ask_int (VALUE_NAMES !!! 2%nat) 10 ;;
      Y_frac <- console_ask_int (VALUE_NAMES !!! 3%nat) 10 ;;
      let Y := fixadd (fixnum Y_int) (fixfract Y_frac) in
      modify_config (set_peak_Y led c Y) ;;;
      ret matrix ) (MkState cfg (lines ++ rest) tr)
    = Ret (<[(3 + c)%nat := fixfract (entry_y p)]>
             (<[c := fixfract (entry_x p)]> matrix))
          (MkState
             (set_peak_Y led c
                (fixadd (fixnum (entry_Y_int p)) (fixfract (entry_Y_frac p))) cfg)
             rest tr').
Proof.
  intros (lx & ly & li & lf & -> & Hx & Hy & Hi & Hf)%enters_inv.
  eexists. unfold bind at 1. simpl.
  unfold bind at 1. unfold for_fold. unfold bind at 1. unfold bind at 1.
  erewrite (console_ask_int_answer _ 10 lx) by (done || reflexivity).
  unfold ret at 1. unfold bind at 1. unfold bind at 1.
  erewrite (console_ask_int_answer _ 10 ly) by (done || reflexivity).
  unfold ret at 1. unfold ret at 1. unfold bind at 1.
  erewrite (console_ask_int_answer _ 10 li) by (done || reflexivity).
  unfold bind at 1.
  erewrite (console_ask_int_answer _ 10 lf) by (done || reflexivity).
  unfold bind, modify_config, ret. simpl.
  replace (c + 0)%nat with c by lia.
  reflexivity.
Qed.

(** C6.  Let the LED index be in range, and let the next twelve lines
    enter, in decimal, x, y, the integer part and the fractional part of
    Y for red, then for green, then for blue.  The calibrate command
    returns [E_SUCCESS] having read those lines, and afterwards the LED has
    - [peak_Y]: for every primary, the fixed-point sum of the integer
      part and of the fractional part in 65536ths;
    - [color_matrix]: [invert_3x3] of the row-major matrix whose first
      row holds the three x as 65536ths, whose second row holds the
      three y as 65536ths and whose third row is 1.0 in every column, so
      that the column of a primary is (x, y, 1.0);
    - its channels as before.
    The other LEDs, the module address and the heat limits are as
    before. *)
Theorem run_calibrate_led_builds_inverse (index : Z) (more : list Z)
    (s : State) (info : led_info_t) (red green blue : primary_entry)
    (lr lg lb rest : list (list ascii)) :
  is_uint index ->
  in_range index RGB_LED_COUNT = true ->
  led_infos (config s) !! Z.to_nat index = Some info ->
  length (peak_Y info) = 3%nat ->
  input s = lr ++ lg ++ lb ++ rest ->
  enters lr red -> enters lg green -> enters lb blue ->
  let primaries :=
    [ fixfract (entry_x red); fixfract (entry_x green); fixfract (entry_x blue);
      fixfract (entry_y red); fixfract (entry_y green); fixfract (entry_y blue);
      FIXNUM_1_0; FIXNUM_1_0; FIXNUM_1_0 ] in
  let peak (p : primary_entry) :=
    fixadd (fixnum (entry_Y_int p)) (fixfract (entry_Y_frac p)) in
  exists s',
    run_calibrate_led (index :: more) s = Ret E_SUCCESS s'
    /\ input s' = rest
    /\ led_infos (config s') !! Z.to_nat index
       = Some (LedInfo (channels info) (invert_3x3 primaries)
                       [peak red; peak green; peak blue])
    /\ (forall j, j ≠ Z.to_nat index ->
          led_infos (config s') !! j = led_infos (config s) !! j)
    /\ my_address (config s') = my_address (config s)
    /\ heat_limit (config s') = heat_limit (config s).
Proof.
  intros Hu Hin Hinfo Hlen Einput Hr Hg Hb primaries peak.
  destruct (in_range_uint index _ Hu Hin) as [Eidx Hidx].
  destruct s as [cfg inp tr]. simpl in Einput, Hinfo. subst inp.
  unfold run_calibrate_led.
  change (arg (index :: more) 0) with index. rewrite Eidx.
  unfold check_led_index.
  erewrite bind_ret_eq by (apply check_range_ok; lia).
  cbn [failed for_fold].
  rewrite bind_bind.
  destruct (calibrate_primary (Z.to_nat index) 0 lr (lg ++ lb ++ rest) red
              (replicate 9 (Fixed 0)) cfg tr Hr) as [tr1 E1].
  erewrite bind_ret_eq by exact E1. clear E1.
  rewrite bind_bind.
  destruct (calibrate_primary (Z.to_nat index) 1 lg (lb ++ rest) green
              (<[3%nat := fixfract (entry_y red)]>
                 (<[0%nat := fixfract (entry_x red)]> (replicate 9 (Fixed 0))))
              (set_peak_Y (Z.to_nat index) 0 (peak red) cfg) tr1 Hg) as [tr2 E2].
  erewrite bind_ret_eq by exact E2. clear E2.
  rewrite bind_bind.
  destruct (calibrate_primary (Z.to_nat index) 2 lb rest blue
              (<[4%nat := fixfract (entry_y green)]>
                 (<[1%nat := fixfract (entry_x green)]>
                    (<[3%nat := fixfract (entry_y red)]>
                       (<[0%nat := fixfract (entry_x red)]> (replicate 9 (Fixed 0))))))
              (set_peak_Y (Z.to_nat index) 1 (peak green)
                 (set_peak_Y (Z.to_nat index) 0 (peak red) cfg)) tr2 Hb)
    as [tr3 E3].
  erewrite bind_ret_eq by exact E3. clear E3.
  eexists. split; [reflexivity|].
  simpl. split; [reflexivity|].
  split; [|split; [|split; reflexivity]].
  - rewrite !list_lookup_alter_eq, Hinfo. simpl.
    destruct info as [ch cm py]. simpl in Hlen |- *.
    destruct py as [|p0 [|p1 [|p2 [|]]]]; try discriminate.
    reflexivity.
  - intros j Hj. rewrite !list_lookup_alter_ne by done. reflexivity.
Qed.

End CalibrationProofs.

(** The calibration of LED 1 with the answers 1 to 12. *)
Lemma run_calibrate_led_builds_inverse_witness :
  exists s',
    run_calibrate_led (B := example_board) [1]
      (example_state ["1"; "2"; "3"; "4"; "5"; "6"; "7"; "8"; "9"; "10"; "11"; "12"])
    = Ret E_SUCCESS s'
    /\ input s' = []
    /\ led_infos (config s') !! Z.to_nat 1
       = Some (LedInfo [0; 1; 2]
                 (invert_3x3 (Board := example_board)
                    [ fixfract 1; fixfract 5; fixfract 9;
                      fixfract 2; fixfract 6; fixfract 10;
                      FIXNUM_1_0; FIXNUM_1_0; FIXNUM_1_0 ])
                 [ fixadd (fixnum 3) (fixfract 4);
                   fixadd (fixnum 7) (fixfract 8);
                   fixadd (fixnum 11) (fixfract 12) ])
    /\ (forall j, j ≠ Z.to_nat 1 ->
          led_infos (config s') !! j = led_infos example_config !! j)
    /\ my_address (config s') = my_address example_config
    /\ heat_limit (config s') = heat_limit example_config.
Proof.
  apply (run_calibrate_led_builds_inverse (B := example_board) 1 []
           (example_state ["1"; "2"; "3"; "4"; "5"; "6"; "7"; "8"; "9"; "10"; "11"; "12"])
           example_led (Primary 1 2 3 4) (Primary 5 6 7 8) (Primary 9 10 11 12)
           [text "1"; text "2"; text "3"; text "4"]
           [text "5"; text "6"; text "7"; text "8"]
           [text "9"; text "10"; text "11"; text "12"] []);
    first [ unfold is_uint; lia | vm_compute; reflexivity ].
Defined.

(** ** The argument parser *)

Lemma digit_value_not_end (c : ascii) (d : Z) :
  digit_value c = Some d -> token_end c = false.
Proof.
  destruct c as [[] [] [] [] [] [] [] []]; vm_compute;
    first [reflexivity | discriminate].
Qed.

Lemma isspace_not_alnum (c : ascii) : isspace c = true -> isalnum c = false.
Proof.
  destruct c as [[] [] [] [] [] [] [] []]; vm_compute;
    first [reflexivity | discriminate].
Qed.

Lemma isspace_token_end (c : ascii) : isspace c = true -> token_end c = true.
Proof. intros E. unfold token_end. rewrite E. apply orb_true_r. Qed.

Lemma is_digit_not_end (base : Z) (c : ascii) :
  is_digit base c = true -> token_end c = false.
Proof.
  unfold is_digit. destruct (digit_value c) as [d|] eqn:E; [|discriminate].
  intros _. exact (digit_value_not_end c d E).
Qed.

Lemma token_end_false (c : ascii) :
  token_end c = false -> Ascii.eqb c NUL = false /\ isspace c = false.
Proof. unfold token_end. apply orb_false_iff. Qed.

Lemma char_at_app_length (pre txt : list ascii) :
  char_at (pre ++ txt) (length pre) = char_at txt 0.
Proof.
  unfold char_at. rewrite app_nth2 by lia.
  replace (length pre - length pre)%nat with 0%nat by lia. reflexivity.
Qed.

Lemma parse_digits_token (base : Z) (tok txt : list ascii) :
  forallb (is_digit base) tok = true ->
  ends_token txt ->
  forall acc, exists v, parse_digits base (tok ++ txt) acc = Some (v, length tok).
Proof.
  intros Htok Hend. induction tok as [|c tok IH]; intros acc.
  - exists acc. destruct txt as [|c txt]; [reflexivity|].
    simpl in Hend |- *. rewrite Hend. reflexivity.
  - simpl in Htok. apply andb_true_iff in Htok as [Hc Htok].
    simpl. rewrite (is_digit_not_end base c Hc).
    unfold is_digit in Hc. destruct (digit_value c) as [d|]; [|discriminate].
    rewrite Hc.
    destruct (IH Htok (to_uint (acc * base + d))) as [v ->].
    exists v. reflexivity.
Qed.

(** [parse_int] on a well-formed integer that stands at [pos] and ends
    there: it succeeds, and the position moves past the integer. *)
Lemma parse_int_token (base : Z) (pre tok txt : list ascii) :
  well_formed_int base tok ->
  ends_token txt ->
  exists v,
    parse_int (pre ++ tok ++ txt) (length pre) base
    = (E_SUCCESS, (length pre + length tok)%nat, v).
Proof.
  intros [Hne Htok] Hend. unfold parse_int.
  rewrite char_at_app_length, drop_app_length.
  destruct tok as [|c tok]; [done|].
  assert (Hc : token_end c = false).
  { simpl in Htok. apply andb_true_iff in Htok as [Hc _].
    exact (is_digit_not_end base c Hc). }
  change (char_at ((c :: tok) ++ txt) 0) with c. rewrite Hc.
  destruct (parse_digits_token base (c :: tok) txt Htok Hend 0) as [v ->].
  exists v. reflexivity.
Qed.

Lemma parse_digits_malformed (base : Z) (digits : list ascii) (c : ascii)
    (rest : list ascii) :
  forallb (is_digit base) digits = true ->
  token_end c = false ->
  is_digit base c = false ->
  forall acc, parse_digits base (digits ++ c :: rest) acc = None.
Proof.
  intros Hdigits Hend Hdig. induction digits as [|d digits IH]; intros acc.
  - simpl. rewrite Hend. unfold is_digit in Hdig.
    destruct (digit_value c) as [v|]; [|reflexivity].
    rewrite Hdig. reflexivity.
  - simpl in Hdigits. apply andb_true_iff in Hdigits as [Hd Hdigits].
    simpl. rewrite (is_digit_not_end base d Hd).
    unfold is_digit in Hd. destruct (digit_value d) as [v|]; [|discriminate].
    rewrite Hd, (IH Hdigits). reflexivity.
Qed.

(** [parse_int] on a token that holds, after some digits, a character
    that is neither the end of the token nor a digit of the radix. *)
Lemma parse_int_malformed_token (base : Z) (pre digits : list ascii) (c : ascii)
    (rest : list ascii) :
  forallb (is_digit base) digits = true ->
  token_end c = false ->
  is_digit base c = false ->
  fst (fst (parse_int (pre ++ digits ++ c :: rest) (length pre) base))
  = E_ARG_FORMAT.
Proof.
  intros Hdigits Hend Hdig. unfold parse_int.
  rewrite char_at_app_length, drop_app_length.
  destruct (token_end (char_at (digits ++ c :: rest) 0)); [reflexivity|].
  rewrite (parse_digits_malformed base digits c rest Hdigits Hend Hdig).
  reflexivity.
Qed.

Lemma skip_count_all (pred : ascii -> bool) (ws txt : list ascii) :
  forallb pred ws = true ->
  match txt with [] => True | c :: _ => pred c = false end ->
  skip_count pred (ws ++ txt) = length ws.
Proof.
  intros Hws Htxt. induction ws as [|c ws IH].
  - destruct txt as [|c txt]; [reflexivity|]. simpl. rewrite Htxt. reflexivity.
  - simpl in Hws. apply andb_true_iff in Hws as [Hc Hws].
    simpl. rewrite Hc, (IH Hws). reflexivity.
Qed.

Lemma SKIP_WHILE_app (pred : ascii -> bool) (pre ws txt : list ascii) :
  forallb pred ws = true ->
  match txt with [] => True | c :: _ => pred c = false end ->
  SKIP_WHILE pred (pre ++ ws ++ txt) (length pre) = length (pre ++ ws).
Proof.
  intros Hws Htxt. unfold SKIP_WHILE.
  rewrite drop_app_length, (skip_count_all pred ws txt Hws Htxt), length_app.
  reflexivity.
Qed.

(** The text after some integers begins with a digit, or it is the
    tail. *)
Lemma int_tokens_starts_solid (base : Z) (k : nat) (txt tail : list ascii) :
  int_tokens base k txt tail -> starts_solid tail -> starts_solid txt.
Proof.
  intros H Htail. destruct H as [|tok ws rest tail k [Hne Htok] _ _ _]; [done|].
  destruct tok as [|c tok]; [done|]. simpl in Htok |- *.
  apply andb_true_iff in Htok as [Hc _].
  apply is_digit_not_end, token_end_false in Hc. tauto.
Qed.

Lemma blank_ends_token (ws rest : list ascii) :
  blank ws -> ws ≠ [] \/ rest = [] -> ends_token (ws ++ rest).
Proof.
  intros Hws [Hne| ->].
  - destruct ws as [|c ws]; [done|]. simpl in Hws |- *.
    apply andb_true_iff in Hws as [Hc _]. by apply isspace_token_end.
  - rewrite app_nil_r. destruct ws as [|c ws]; [done|]. simpl in Hws |- *.
    apply andb_true_iff in Hws as [Hc _]. by apply isspace_token_end.
Qed.

(** The loop of [parse_args] over [k] well-formed integers: it reads
    them all and stands at the tail with [more] arguments to go. *)
Lemma parse_args_loop_tokens (base : Z) (k : nat) (txt tail : list ascii) :
  int_tokens base k txt tail ->
  starts_solid tail ->
  forall (pre : list ascii) (more : nat) (acc : list Z),
  exists (pre' : list ascii) (vals : list Z),
    pre ++ txt = pre' ++ tail
    /\ length vals = k
    /\ parse_args_loop base (pre ++ txt) (k + more) (length pre) acc
       = parse_args_loop base (pre' ++ tail) more (length pre') (acc ++ vals).
Proof.
  intros H Htail.
  induction H as [tail|tok ws rest tail k Htok Hws Hsep Hrest IH];
    intros pre more acc.
  - exists pre, []. rewrite app_nil_r. auto.
  - specialize (IH Htail).
    pose proof (int_tokens_starts_solid base k rest tail Hrest Htail) as Hsolid.
    destruct (parse_int_token base pre tok (ws ++ rest) Htok
                (blank_ends_token ws rest Hws Hsep)) as [v Hv].
    destruct (IH (pre ++ tok ++ ws) more (acc ++ [v])) as (pre' & vals & E & Hlen & Hloop).
    exists pre', (v :: vals).
    split; [|split].
    + rewrite <- E, <- !app_assoc. reflexivity.
    + simpl. by rewrite Hlen.
    + cbn [Nat.add parse_args_loop].
      rewrite char_at_app_length.
      assert (Hc : Ascii.eqb (char_at (tok ++ ws ++ rest) 0) NUL = false).
      { destruct Htok as [Hne Hdig]. destruct tok as [|c tok]; [done|].
        simpl in Hdig. apply andb_true_iff in Hdig as [Hc _].
        apply is_digit_not_end, token_end_false in Hc. tauto. }
      rewrite Hc, Hv. cbn [failed].
      replace (length pre + length tok)%nat with (length (pre ++ tok))
        by apply length_app.
      replace (pre ++ tok ++ ws ++ rest) with ((pre ++ tok) ++ ws ++ rest)
        by (rewrite <- !app_assoc; reflexivity).
      rewrite (SKIP_WHILE_app isspace (pre ++ tok) ws rest Hws).
      2:{ destruct rest; [done|]. exact Hsolid. }
      replace ((pre ++ tok) ++ ws ++ rest) with ((pre ++ tok ++ ws) ++ rest)
        by (rewrite <- !app_assoc; reflexivity).
      replace ((pre ++ tok) ++ ws) with (pre ++ tok ++ ws)
        by (rewrite <- !app_assoc; reflexivity).
      rewrite Hloop, <- app_assoc. reflexivity.
Qed.

Section ParserProofs.
Context {B : Board}.

Lemma parse_args_at_tokens (key sp txt : list ascii) (arity : nat) :
  forallb isalnum key = true ->
  blank sp ->
  sp ≠ [] \/ txt = [] ->
  starts_solid txt ->
  parse_args (key ++ sp ++ txt) arity
  = parse_args_loop CONSOLE_READ_BASE ((key ++ sp) ++ txt) arity
      (length (key ++ sp)) [].
Proof.
  intros Hkey Hsp Hsep Hsolid. unfold parse_args.
  assert (E1 : SKIP_WHILE isalnum (key ++ sp ++ txt) 0 = length key).
  { apply (SKIP_WHILE_app isalnum [] key (sp ++ txt) Hkey).
    destruct Hsep as [Hne| ->].
    - destruct sp as [|c sp]; [done|]. simpl in Hsp |- *.
      apply andb_true_iff in Hsp as [Hc _]. by apply isspace_not_alnum.
    - rewrite app_nil_r. destruct sp as [|c sp]; [done|]. simpl in Hsp |- *.
      apply andb_true_iff in Hsp as [Hc _]. by apply isspace_not_alnum. }
  rewrite E1.
  rewrite (SKIP_WHILE_app isspace key sp txt Hsp).
  2:{ destruct txt; [done|]. exact Hsolid. }
  rewrite <- app_assoc. reflexivity.
Qed.

(** The same where the key may end at a character that is neither a
    letter nor a digit, with no white space between. *)
Lemma parse_args_after_key (key sp txt : list ascii) (arity : nat) :
  forallb isalnum key = true ->
  blank sp ->
  sp ≠ [] \/ ends_key txt ->
  starts_solid txt ->
  parse_args (key ++ sp ++ txt) arity
  = parse_args_loop CONSOLE_READ_BASE ((key ++ sp) ++ txt) arity
      (length (key ++ sp)) [].
Proof.
  intros Hkey Hsp Hsep Hsolid. unfold parse_args.
  assert (E1 : SKIP_WHILE isalnum (key ++ sp ++ txt) 0 = length key).
  { apply (SKIP_WHILE_app isalnum [] key (sp ++ txt) Hkey).
    destruct sp as [|c sp].
    - destruct Hsep as [Hne|Hend]; [done|]. exact Hend.
    - simpl in Hsp |- *. apply andb_true_iff in Hsp as [Hc _].
      by apply isspace_not_alnum. }
  rewrite E1.
  rewrite (SKIP_WHILE_app isspace key sp txt Hsp).
  2:{ destruct txt; [done|]. exact Hsolid. }
  rewrite <- app_assoc. reflexivity.
Qed.

(** A token that is not a well-formed integer begins with a character
    that is neither white space nor NUL. *)
Lemma malformed_int_head (base : Z) (txt : list ascii) :
  malformed_int base txt ->
  exists c rest, txt = c :: rest /\ token_end c = false.
Proof.
  intros (digits & c & rest & -> & Hdig & Hend & _).
  destruct digits as [|d digits].
  - exists c, rest. auto.
  - exists d, (digits ++ c :: rest). split; [reflexivity|].
    simpl in Hdig. apply andb_true_iff in Hdig as [Hd _].
    exact (is_digit_not_end base d Hd).
Qed.

(** C4, as the code has it.  Take a line made of an alphanumeric key,
    white space, and [k] well-formed integers separated by white space,
    with [k] less than the arity.  If the line ends there, [parse_args]
    returns [E_MISSING_ARGS].  If a token follows that is not a
    well-formed integer, one that holds a character that is no digit of
    the radix, as "x", "2x" and "5!" do, [parse_args] returns
    [E_ARG_FORMAT]: a malformed argument is reported as such although the
    line holds fewer well-formed integers than the arity. *)
Theorem parse_args_short_line (key sp txt tail : list ascii) (k arity : nat) :
  forallb isalnum key = true ->
  blank sp ->
  sp ≠ [] \/ ends_key txt ->
  int_tokens CONSOLE_READ_BASE k txt tail ->
  (k < arity)%nat ->
  (tail = [] ->
     fst (parse_args (key ++ sp ++ txt) arity) = E_MISSING_ARGS)
  /\ (malformed_int CONSOLE_READ_BASE tail ->
        fst (parse_args (key ++ sp ++ txt) arity) = E_ARG_FORMAT).
Proof.
  intros Hkey Hsp Hsep Htok Hk.
  assert (Hgo : starts_solid tail ->
    exists pre' vals,
      parse_args (key ++ sp ++ txt) arity
      = parse_args_loop CONSOLE_READ_BASE (pre' ++ tail) (S (arity - S k))
          (length pre') vals).
  { intros Htail.
    rewrite (parse_args_after_key key sp txt arity Hkey Hsp Hsep
               (int_tokens_starts_solid _ k txt tail Htok Htail)).
    destruct (parse_args_loop_tokens _ k txt tail Htok Htail (key ++ sp)
                (S (arity - S k)) []) as (pre' & vals & _ & _ & E).
    replace (k + S (arity - S k))%nat with arity in E by lia.
    rewrite E. eauto. }
  split.
  - intros ->. destruct (Hgo I) as (pre' & vals & ->).
    cbn [parse_args_loop]. rewrite char_at_app_length. reflexivity.
  - intros Hbad.
    destruct (malformed_int_head _ tail Hbad) as (c0 & rest0 & E0 & Hend0).
    destruct (token_end_false c0 Hend0) as [Hnul Hspace].
    assert (Hsolid : starts_solid tail) by (rewrite E0; exact Hspace).
    destruct (Hgo Hsolid) as (pre' & vals & ->).
    cbn [parse_args_loop]. rewrite char_at_app_length.
    assert (Hhead : char_at tail 0 = c0) by (rewrite E0; reflexivity).
    rewrite Hhead, Hnul.
    destruct Hbad as (digits & c & rest & -> & Hdigits & Hend & Hdig).
    pose proof (parse_int_malformed_token CONSOLE_READ_BASE pre' digits c rest
                  Hdigits Hend Hdig) as E.
    destruct (parse_int (pre' ++ digits ++ c :: rest) (length pre')
                CONSOLE_READ_BASE) as [[error pos'] value].
    simpl in E. subst error. reflexivity.
Qed.

End ParserProofs.

(** The line "p 1 2" for the arity 4, and the lines "p 1 2 x 4",
    "h 1 2x", "h 5! 7" and "a!". *)
Lemma parse_args_short_line_witness :
  fst (parse_args (B := example_board) (text "p" ++ text " " ++ text "1 2") 4)
    = E_MISSING_ARGS
  /\ fst (parse_args (B := example_board) (text "p" ++ text " " ++ text "1 2 x 4") 4)
    = E_ARG_FORMAT
  /\ fst (parse_args (B := example_board) (text "h" ++ text " " ++ text "1 2x") 2)
    = E_ARG_FORMAT
  /\ fst (parse_args (B := example_board) (text "h" ++ text " " ++ text "5! 7") 2)
    = E_ARG_FORMAT
  /\ fst (parse_args (B := example_board) (text "a" ++ [] ++ text "!") 1)
    = E_ARG_FORMAT.
Proof.
  assert (H1 : well_formed_int 10 (text "1")) by (split; [discriminate|reflexivity]).
  assert (H2 : well_formed_int 10 (text "2")) by (split; [discriminate|reflexivity]).
  split; [|split; [|split; [|split]]].
  - assert (T : int_tokens 10 2 (text "1 2") []).
    { apply (tokens_cons 10 (text "1") (text " ") (text "2") [] 1 H1);
        [reflexivity | left; discriminate |].
      apply (tokens_cons 10 (text "2") [] [] [] 0 H2);
        [reflexivity | right; reflexivity | apply tokens_nil]. }
    assert (Hk : (2 < 4)%nat) by lia.
    assert (Hsp : text " " ≠ [] \/ ends_key (text "1 2")) by (left; discriminate).
    exact (proj1 (parse_args_short_line (B := example_board)
                    (text "p") (text " ") (text "1 2") [] 2 4
                    eq_refl eq_refl Hsp T Hk) eq_refl).
  - assert (T : int_tokens 10 2 (text "1 2 x 4") (text "x 4")).
    { apply (tokens_cons 10 (text "1") (text " ") (text "2 x 4") (text "x 4") 1 H1);
        [reflexivity | left; discriminate |].
      apply (tokens_cons 10 (text "2") (text " ") (text "x 4") (text "x 4") 0 H2);
        [reflexivity | left; discriminate | apply tokens_nil]. }
    assert (Hk : (2 < 4)%nat) by lia.
    assert (Hsp : text " " ≠ [] \/ ends_key (text "1 2 x 4")) by (left; discriminate).
    assert (Hbad : malformed_int 10 (text "x 4")).
    { exists [], "x"%char, (text " 4"). repeat split. }
    exact (proj2 (parse_args_short_line (B := example_board)
                    (text "p") (text " ") (text "1 2 x 4") (text "x 4") 2 4
                    eq_refl eq_refl Hsp T Hk) Hbad).
  - assert (T : int_tokens 10 1 (text "1 2x") (text "2x")).
    { apply (tokens_cons 10 (text "1") (text " ") (text "2x") (text "2x") 0 H1);
        [reflexivity | left; discriminate | apply tokens_nil]. }
    assert (Hk : (1 < 2)%nat) by lia.
    assert (Hsp : text " " ≠ [] \/ ends_key (text "1 2x")) by (left; discriminate).
    assert (Hbad : malformed_int 10 (text "2x")).
    { exists (text "2"), "x"%char, []. repeat split. }
    exact (proj2 (parse_args_short_line (B := example_board)
                    (text "h") (text " ") (text "1 2x") (text "2x") 1 2
                    eq_refl eq_refl Hsp T Hk) Hbad).
  - assert (T : int_tokens 10 0 (text "5! 7") (text "5! 7")) by apply tokens_nil.
    assert (Hk : (0 < 2)%nat) by lia.
    assert (Hsp : text " " ≠ [] \/ ends_key (text "5! 7")) by (left; discriminate).
    assert (Hbad : malformed_int 10 (text "5! 7")).
    { exists (text "5"), "!"%char, (text " 7"). repeat split. }
    exact (proj2 (parse_args_short_line (B := example_board)
                    (text "h") (text " ") (text "5! 7") (text "5! 7") 0 2
                    eq_refl eq_refl Hsp T Hk) Hbad).
  - assert (T : int_tokens 10 0 (text "!") (text "!")) by apply tokens_nil.
    assert (Hk : (0 < 1)%nat) by lia.
    assert (Hsp : @nil ascii ≠ [] \/ ends_key (text "!")) by (right; reflexivity).
    assert (Hbad : malformed_int 10 (text "!")).
    { exists [], "!"%char, []. repeat split. }
    exact (proj2 (parse_args_short_line (B := example_board)
                    (text "a") [] (text "!") (text "!") 0 1
                    eq_refl eq_refl Hsp T Hk) Hbad).
Defined.

(** C4 as stated fails.  On the line "a !" there is no well-formed
    integer, which is fewer than the one the set-address command takes;
    on "p 1 2 x 4" there are fewer than four, and on "h 1 2x" fewer than
    two.  [parse_args] returns [E_ARG_FORMAT] for them all, not
    [E_MISSING_ARGS]. *)
Lemma malformed_argument_is_not_missing_counterexample :
  fst (parse_args (B := example_board) (text "a !") 1) = E_ARG_FORMAT
  /\ fst (parse_args (B := example_board) (text "a !") 1) ≠ E_MISSING_ARGS
  /\ fst (parse_args (B := example_board) (text "p 1 2 x 4") 4) = E_ARG_FORMAT
  /\ fst (parse_args (B := example_board) (text "h 1 2x") 2) = E_ARG_FORMAT.
Proof. repeat split; vm_compute; congruence. Qed.

(** ** The recursion budget is never the limit *)

Section Settling.
Context {B : Board}.

Lemma settles_settles_below {A} (bound : nat) (m : M A) :
  settles m -> settles_below bound m.
Proof. intros H s _. apply H. Qed.

Lemma settles_ret {A} (a : A) : settles (ret a).
Proof. intros s. simpl. lia. Qed.

Lemma settles_bind {A C} (m : M A) (k : A -> M C) :
  settles m -> (forall a, settles (k a)) -> settles (bind m k).
Proof.
  intros Hm Hk s. unfold bind. specialize (Hm s).
  destruct (m s) as [a s1| |]; [|done|done].
  specialize (Hk a s1). destruct (k a s1); [lia|done|done].
Qed.

Lemma settles_below_bind {A C} (bound : nat) (m : M A) (k : A -> M C) :
  settles_below bound m -> (forall a, settles_below bound (k a)) ->
  settles_below bound (bind m k).
Proof.
  intros Hm Hk s Hs. unfold bind. specialize (Hm s Hs).
  destruct (m s) as [a s1| |]; [|done|done].
  specialize (Hk a s1 ltac:(lia)). destruct (k a s1); [lia|done|done].
Qed.

Lemma settles_log (e : event) : settles (log e).
Proof. intros s. simpl. lia. Qed.

Lemma settles_console_write (msg : string) : settles (console_write msg).
Proof. apply settles_log. Qed.

Lemma settles_console_uint_d (n : Z) : settles (console_uint_d n).
Proof. apply settles_log. Qed.

Lemma settles_modify_config (f : config_entry_t -> config_entry_t) :
  settles (modify_config f).
Proof. intros s. simpl. lia. Qed.

Lemma settles_get_config : settles get_config.
Proof. intros s. simpl. lia. Qed.

Lemma settles_console_ask_int (prompt : string) (base : Z) :
  settles (console_ask_int prompt base).
Proof.
  intros s. unfold console_ask_int.
  assert (H : forall lines s0,
    match console_ask_int_from prompt base lines s0 with
    | Ret _ s' => (length (input s') <= length lines)%nat
    | Blocked => True
    | OutOfFuel => False
    end).
  { induction lines as [|line rest IH]; intros s0; simpl; [done|].
    destruct (parse_int line 0 base) as [[e p] v].
    destruct e; simpl; try lia;
      (specialize (IH (with_input rest (emit (EWrite prompt) s0)));
       destruct (console_ask_int_from _ _ _ _); [lia|done|done]). }
  apply H.
Qed.

Lemma settles_call_pwm_set_brightness (channel value : Z) :
  settles (call_pwm_set_brightness channel value).
Proof. intros s. simpl. lia. Qed.

Lemma settles_call_pwm_send_frame : settles call_pwm_send_frame.
Proof. intros s. simpl. lia. Qed.

Lemma settles_call_save_config : settles call_save_config.
Proof. intros s. simpl. lia. Qed.

Lemma settles_call_load_config : settles call_load_config.
Proof. intros s. simpl. lia. Qed.

Lemma settles_check_range (value limit : Z) (message : string) :
  settles (check_range value limit message).
Proof.
  unfold check_range. destruct (_ || _).
  - apply settles_bind; [apply settles_console_write|intros _; apply settles_ret].
  - apply settles_ret.
Qed.

Lemma settles_for_fold {A} (body : nat -> A -> M A) (count start : nat) (acc : A) :
  (forall i a, settles (body i a)) -> settles (for_fold start count body acc).
Proof.
  intros Hbody. revert start acc.
  induction count as [|count IH]; intros start acc; simpl.
  - apply settles_ret.
  - apply settles_bind; [apply Hbody|]. intros a. apply IH.
Qed.

Lemma settles_for_try (body : nat -> M (option error_t)) (count start : nat) :
  (forall i, settles (body i)) -> settles (for_try start count body).
Proof.
  intros Hbody. revert start.
  induction count as [|count IH]; intros start; simpl.
  - apply settles_ret.
  - apply settles_bind; [apply Hbody|]. intros [e|]; [apply settles_ret|apply IH].
Qed.

Lemma settles_run_echo_loop :
  settles (fun s => run_echo_loop (input s) s).
Proof.
  intros s.
  assert (H : forall lines s0,
    match run_echo_loop lines s0 with
    | Ret _ s' => (length (input s') <= length lines)%nat
    | Blocked => True
    | OutOfFuel => False
    end).
  { induction lines as [|buf rest IH]; intros s0; simpl; [done|].
    destruct (_ && _).
    - specialize (IH (with_input rest s0)).
      destruct (run_echo_loop _ _); [lia|done|done].
    - simpl. lia. }
  apply H.
Qed.

Lemma settles_write_usages (table : list console_command_t) :
  settles (write_usages table).
Proof.
  induction table as [|comm table IH]; simpl.
  - apply settles_ret.
  - repeat (apply settles_bind; [apply settles_console_write|intros _]).
    exact IH.
Qed.

End Settling.

Create HintDb settles.

#[local] Hint Resolve settles_ret settles_log settles_console_write
  settles_console_uint_d settles_modify_config settles_get_config
  settles_console_ask_int settles_call_pwm_set_brightness
  settles_call_pwm_send_frame settles_call_save_config
  settles_call_load_config settles_check_range settles_run_echo_loop
  settles_write_usages : settles.

(** Goes through a handler, statement by statement. *)
Ltac settle :=
  repeat first
    [ progress auto with settles
    | apply settles_bind; [|intros ?]
    | apply settles_for_fold; intros ? ?
    | apply settles_for_try; intros ?
    | match goal with
      | |- settles (if ?b then _ else _) => destruct b
      | |- settles (match ?e with _ => _ end) => destruct e
      end ].

Section SettlingHandlers.
Context {B : Board}.

Lemma settles_run_set_addr args : settles (run_set_addr args).
Proof. unfold run_set_addr. cbv zeta. settle. Qed.

Lemma settles_run_set_brightness args : settles (run_set_brightness args).
Proof.
  unfold run_set_brightness, check_channel_index, check_short. cbv zeta. settle.
Qed.

Lemma settles_run_set_color args : settles (run_set_color args).
Proof. unfold run_set_color, check_led_index. cbv zeta. settle. Qed.

Lemma settles_run_calibrate_led args : settles (run_calibrate_led args).
Proof. unfold run_calibrate_led, check_led_index. cbv zeta. settle. Qed.

Lemma settles_run_echo args : settles (run_echo args).
Proof. unfold run_echo. settle. Qed.

Lemma settles_run_set_heat_limit args : settles (run_set_heat_limit args).
Proof. unfold run_set_heat_limit, check_short. cbv zeta. settle. Qed.

Lemma settles_run_reload_config args : settles (run_reload_config args).
Proof. unfold run_reload_config. settle. Qed.

Lemma settles_run_set_correction args : settles (run_set_correction args).
Proof. unfold run_set_correction, check_led_index. cbv zeta. settle. Qed.

Lemma settles_run_set_pwm_channels args : settles (run_set_pwm_channels args).
Proof.
  unfold run_set_pwm_channels, check_led_index, check_channel_index.
  cbv zeta. settle.
Qed.

Lemma settles_run_quit args : settles (run_quit args).
Proof. unfold run_quit. settle. Qed.

Lemma settles_run_reset args : settles (run_reset args).
Proof. unfold run_reset. settle. Qed.

Lemma settles_run_save_config args : settles (run_save_config args).
Proof. unfold run_save_config. settle. Qed.

Lemma settles_run_set_max_Y args : settles (run_set_max_Y args).
Proof. unfold run_set_max_Y, check_led_index. cbv zeta. settle. Qed.

Lemma settles_run_help args : settles (run_help args).
Proof. unfold run_help, run_help_of. settle. Qed.

End SettlingHandlers.

Section SettlingDispatcher.
Context {B : Board}.

(** What holds of all fourteen fixed handlers and of the paste handler
    holds of the handler of every command found in the table. *)
Lemma get_command_handler (P : command_handler_t -> Prop)
    (paste : command_handler_t) :
  P run_set_addr -> P run_set_brightness -> P run_set_color ->
  P run_calibrate_led -> P run_echo -> P paste -> P run_set_heat_limit ->
  P run_reload_config -> P run_set_correction -> P run_set_pwm_channels ->
  P run_quit -> P run_reset -> P run_save_config -> P run_set_max_Y ->
  P run_help ->
  forall k comm, get_command paste k = Some comm -> P (handler comm).
Proof.
  intros ? ? ? ? ? ? ? ? ? ? ? ? ? ? ? k comm.
  unfold get_command, commands, command_table. cbn [get_command_in key].
  repeat (destruct (Ascii.eqb _ k); [intros [= <-]; assumption|]).
  discriminate.
Qed.

Lemma dispatch_settles_below (bound : nat) (paste : command_handler_t)
    (line : list ascii) :
  (forall args, settles_below bound (paste args)) ->
  settles_below bound (dispatch paste line).
Proof.
  intros Hpaste. unfold dispatch.
  destruct (get_command paste (char_at line 0)) as [comm|] eqn:Ec.
  - destruct (parse_args line (arg_length comm)) as [error args].
    destruct (failed error).
    + apply settles_settles_below. settle.
    + apply settles_below_bind.
      * revert args.
        eapply (get_command_handler
                  (fun h => forall args, settles_below bound (h args)) paste);
          try exact Hpaste; try (exact Ec);
          intros args; apply settles_settles_below;
          auto using settles_run_set_addr, settles_run_set_brightness,
            settles_run_set_color, settles_run_calibrate_led, settles_run_echo,
            settles_run_set_heat_limit, settles_run_reload_config,
            settles_run_set_correction, settles_run_set_pwm_channels,
            settles_run_quit, settles_run_reset, settles_run_save_config,
            settles_run_set_max_Y, settles_run_help.
      * intros e. apply settles_settles_below. settle.
  - apply settles_settles_below. settle.
Qed.

Lemma run_paste_loop_settles (bound : nat) (prompt : M bool) :
  reads_below bound prompt ->
  forall budget s,
    (length (input s) < budget)%nat ->
    (length (input s) < bound)%nat ->
    match run_paste_loop prompt budget s with
    | Ret _ s' => (length (input s') <= length (input s))%nat
    | Blocked => True
    | OutOfFuel => False
    end.
Proof.
  intros Hprompt. induction budget as [|budget IH]; intros s Hb Hs; [lia|].
  simpl. unfold bind. specialize (Hprompt s Hs).
  destruct (prompt s) as [[] s1| |]; [simpl; lia| |done|done].
  specialize (IH s1 ltac:(lia) ltac:(lia)).
  destruct (run_paste_loop prompt budget s1); [lia|done|done].
Qed.

Lemma run_paste_file_settles (bound : nat) (prompt : M bool) (args : list Z) :
  reads_below bound prompt ->
  settles_below bound (run_paste_file prompt bound args).
Proof.
  intros Hprompt s Hs. rewrite run_paste_file_unfold.
  pose proof (run_paste_loop_settles bound prompt Hprompt bound
                (emit (EWrite PASTE_NOW) s) Hs Hs) as H.
  destruct (run_paste_loop _ _ _); [exact H|done|done].
Qed.

(** With more budget than lines left, a round of the dispatcher either
    returns, having read a line at least, or waits for a line: the
    budget is not what stops it. *)
Lemma run_command_prompt_reads (fuel : nat) :
  reads_below fuel (run_command_prompt fuel).
Proof.
  induction fuel as [|fuel IH]; intros s Hs; [lia|].
  destruct (input s) as [|line rest] eqn:Ein.
  - rewrite run_command_prompt_no_line by done. done.
  - rewrite (run_command_prompt_step fuel line rest s Ein).
    simpl in Hs.
    pose proof (dispatch_settles_below fuel
                  (run_paste_file (run_command_prompt fuel) fuel) line
                  (fun args => run_paste_file_settles fuel _ args IH)
                  (with_input rest s) ltac:(simpl; lia)) as H.
    destruct (dispatch _ _ _); [simpl in H |- *; lia|done|done].
Qed.

Lemma run_command_prompt_enough (fuel : nat) (s : State) :
  (length (input s) < fuel)%nat ->
  run_command_prompt fuel s ≠ OutOfFuel.
Proof.
  intros Hs E. pose proof (run_command_prompt_reads fuel s Hs) as H.
  rewrite E in H. exact H.
Qed.

End SettlingDispatcher.

Section Budget.
Context {B : Board}.

Lemma agrees_refl {A} (m : M A) : agrees m m.
Proof. intros s _. reflexivity. Qed.

Lemma agrees_bind {A C} (m1 m2 : M A) (k1 k2 : A -> M C) :
  agrees m1 m2 -> (forall a, agrees (k1 a) (k2 a)) ->
  agrees (bind m1 k1) (bind m2 k2).
Proof.
  intros Hm Hk s. unfold bind. intros H.
  assert (Hm1 : m1 s ≠ OutOfFuel) by (intros E; rewrite E in H; done).
  rewrite (Hm s Hm1).
  destruct (m1 s) as [a s1| |]; [|done|done].
  apply Hk. exact H.
Qed.

Lemma run_paste_loop_agrees (p1 p2 : M bool) :
  agrees p1 p2 ->
  forall b1 b2, (b1 <= b2)%nat ->
    agrees (run_paste_loop p1 b1) (run_paste_loop p2 b2).
Proof.
  intros Hp. induction b1 as [|b1 IH]; intros b2 Hb.
  - intros s H. done.
  - destruct b2 as [|b2]; [lia|]. simpl.
    apply agrees_bind; [exact Hp|].
    intros [|]; [apply agrees_refl|]. apply IH. lia.
Qed.

Lemma run_paste_file_agrees (p1 p2 : M bool) (b1 b2 : nat) (args : list Z) :
  agrees p1 p2 -> (b1 <= b2)%nat ->
  agrees (run_paste_file p1 b1 args) (run_paste_file p2 b2 args).
Proof.
  intros Hp Hb. unfold run_paste_file.
  apply agrees_bind; [apply agrees_refl|]. intros _.
  apply agrees_bind; [by apply run_paste_loop_agrees|]. intros _.
  apply agrees_refl.
Qed.

Lemma dispatch_agrees (paste1 paste2 : command_handler_t) (line : list ascii) :
  (forall args, agrees (paste1 args) (paste2 args)) ->
  agrees (dispatch paste1 line) (dispatch paste2 line).
Proof.
  intros Hp. unfold dispatch, get_command, commands, command_table.
  cbn [get_command_in key].
  repeat (destruct (Ascii.eqb _ (char_at line 0));
          [first [ apply agrees_refl
                 | cbn [arg_length handler usage does_exit];
                   rewrite parse_args_none; cbn [failed];
                   apply agrees_bind; [apply Hp | intros ?; apply agrees_refl] ]
          |]).
  apply agrees_refl.
Qed.

(** More budget changes nothing once there is enough. *)
Lemma run_command_prompt_agrees (fuel : nat) :
  forall fuel', (fuel <= fuel')%nat ->
    agrees (run_command_prompt fuel) (run_command_prompt fuel').
Proof.
  induction fuel as [|fuel IH]; intros fuel' Hf.
  - intros s H. done.
  - destruct fuel' as [|fuel']; [lia|]. simpl.
    apply agrees_bind; [apply agrees_refl|]. intros line.
    apply dispatch_agrees. intros args.
    apply run_paste_file_agrees; [apply IH|]; lia.
Qed.

(** Every budget above the number of lines left gives the result of
    [run_command_prompt_on], which is a return or a wait for input. *)
Lemma run_command_prompt_budget (fuel : nat) (s : State) :
  (length (input s) < fuel)%nat ->
  run_command_prompt fuel s = run_command_prompt_on s
  /\ run_command_prompt_on s ≠ OutOfFuel.
Proof.
  intros Hs.
  assert (H : run_command_prompt_on s ≠ OutOfFuel)
    by (apply run_command_prompt_enough; lia).
  split; [|exact H].
  apply (run_command_prompt_agrees (S (length (input s))) fuel ltac:(lia) s H).
Qed.

End Budget.

(** ** One round of the dispatcher *)

Section DispatcherRound.
Context {B : Board}.

(** C3.  One round of the dispatcher on the line [line], with [paste] the
    handler of the paste command at this depth:
    - an unknown key gives "unknown command" and exit=false;
    - a parser failure gives the diagnostic of the failure, "Not enough
      arguments" for [E_MISSING_ARGS], "Argument not a valid integer"
      for [E_ARG_FORMAT] and "Error occurred while parsing input" for
      any other status (three different texts), then "Usage: " and the
      usage text of the command, and exit=false, with the state
      otherwise as the line reader left it (the handler has not run);
    - a handler that returns something else than [E_SUCCESS] gives the
      error-running-command text and exit=false;
    - a handler that returns [E_SUCCESS] gives the [does_exit] flag of
      the command;
    - so the round returns exit=true exactly when the line names a
      command whose arguments parse, whose handler returns [E_SUCCESS]
      and whose [does_exit] flag is set;
    - and the recursion budget plays no part in any of this once it
      exceeds the number of lines left: the round then returns or waits
      for input. *)
Theorem run_command_prompt_exit (fuel : nat) (line : list ascii)
    (rest : list (list ascii)) (s : State) :
  input s = line :: rest ->
  let paste := run_paste_file (run_command_prompt fuel) fuel in
  let s0 := with_input rest s in
  (get_command paste (char_at line 0) = None ->
     run_command_prompt (S fuel) s = Ret false (emit (EWrite WRONG_COMMAND) s0))
  /\ (forall comm args,
        get_command paste (char_at line 0) = Some comm ->
        parse_args line (arg_length comm) = (E_MISSING_ARGS, args) ->
        run_command_prompt (S fuel) s =
          Ret false
            (MkState (config s) rest
               (trace s ++ [EWrite ARGUMENTS_ARE_MISSING; EWrite USAGE;
                            EWrite (usage comm); EWrite CRLF])))
  /\ (forall comm args,
        get_command paste (char_at line 0) = Some comm ->
        parse_args line (arg_length comm) = (E_ARG_FORMAT, args) ->
        run_command_prompt (S fuel) s =
          Ret false
            (MkState (config s) rest
               (trace s ++ [EWrite ARGUMENTS_ARE_INVALID; EWrite USAGE;
                            EWrite (usage comm); EWrite CRLF])))
  /\ (forall comm error args,
        get_command paste (char_at line 0) = Some comm ->
        parse_args line (arg_length comm) = (error, args) ->
        error ≠ E_SUCCESS ->
        error ≠ E_MISSING_ARGS ->
        error ≠ E_ARG_FORMAT ->
        run_command_prompt (S fuel) s =
          Ret false
            (MkState (config s) rest
               (trace s ++ [EWrite UNKNOWN_PARSER_ERROR; EWrite USAGE;
                            EWrite (usage comm); EWrite CRLF])))
  /\ ARGUMENTS_ARE_MISSING ≠ ARGUMENTS_ARE_INVALID
  /\ ARGUMENTS_ARE_MISSING ≠ UNKNOWN_PARSER_ERROR
  /\ ARGUMENTS_ARE_INVALID ≠ UNKNOWN_PARSER_ERROR
  /\ (forall comm args e s1,
        get_command paste (char_at line 0) = Some comm ->
        parse_args line (arg_length comm) = (E_SUCCESS, args) ->
        handler comm args s0 = Ret e s1 ->
        e ≠ E_SUCCESS ->
        run_command_prompt (S fuel) s =
          Ret false (emit (EWrite ERROR_RUNNING_COMMAND) s1))
  /\ (forall comm args s1,
        get_command paste (char_at line 0) = Some comm ->
        parse_args line (arg_length comm) = (E_SUCCESS, args) ->
        handler comm args s0 = Ret E_SUCCESS s1 ->
        run_command_prompt (S fuel) s = Ret (does_exit comm) s1)
  /\ (forall s',
        run_command_prompt (S fuel) s = Ret true s' <->
        exists comm args,
          get_command paste (char_at line 0) = Some comm
          /\ parse_args line (arg_length comm) = (E_SUCCESS, args)
          /\ handler comm args s0 = Ret E_SUCCESS s'
          /\ does_exit comm = true)
  /\ ((length rest < fuel)%nat ->
        run_command_prompt (S fuel) s = run_command_prompt_on s
        /\ run_command_prompt_on s ≠ OutOfFuel).
Proof.
  intros E paste s0.
  assert (Hbudget : (length rest < fuel)%nat ->
            run_command_prompt (S fuel) s = run_command_prompt_on s
            /\ run_command_prompt_on s ≠ OutOfFuel).
  { intros Hf. apply run_command_prompt_budget. rewrite E. simpl. lia. }
  rewrite (run_command_prompt_step fuel line rest s E) in Hbudget |- *.
  fold paste s0 in Hbudget |- *.
  repeat apply conj; try exact Hbudget; try discriminate.
  - apply dispatch_unknown.
  - intros comm args Ec Ep.
    rewrite (dispatch_parse_error paste line s0 comm E_MISSING_ARGS args Ec Ep)
      by discriminate.
    reflexivity.
  - intros comm args Ec Ep.
    rewrite (dispatch_parse_error paste line s0 comm E_ARG_FORMAT args Ec Ep)
      by discriminate.
    reflexivity.
  - intros comm error args Ec Ep Hne Hmissing Hformat.
    rewrite (dispatch_parse_error paste line s0 comm error args Ec Ep Hne).
    destruct error; try done; reflexivity.
  - intros comm args e s1 Ec Ep Eh Hne.
    rewrite (dispatch_handler paste line s0 comm args Ec Ep), Eh.
    apply failed_true in Hne. rewrite Hne. reflexivity.
  - intros comm args s1 Ec Ep Eh.
    rewrite (dispatch_handler paste line s0 comm args Ec Ep), Eh.
    reflexivity.
  - intros s'. split.
    + destruct (get_command paste (char_at line 0)) as [comm|] eqn:Ec.
      * destruct (parse_args line (arg_length comm)) as [error args] eqn:Ep.
        destruct (decide (error = E_SUCCESS)) as [->|Hne].
        -- rewrite (dispatch_handler paste line s0 comm args Ec Ep).
           destruct (handler comm args s0) as [e s1| |] eqn:Eh; try discriminate.
           destruct (failed e) eqn:Ef; [discriminate|].
           apply failed_false in Ef. subst e.
           intros [= Hexit ->]. exists comm, args. auto.
        -- rewrite (dispatch_parse_error paste line s0 comm error args Ec Ep Hne).
           discriminate.
      * rewrite (dispatch_unknown paste line s0 Ec). discriminate.
    + intros (comm & args & Ec & Ep & Eh & Hexit).
      rewrite (dispatch_handler paste line s0 comm args Ec Ep), Eh.
      simpl. rewrite Hexit. reflexivity.
Qed.

End DispatcherRound.

(** The lines "q", "p 1 2", "a !", "zzz" and "a 300" on the example
    board. *)
Lemma run_command_prompt_exit_witness :
  run_command_prompt (B := example_board) 2 (example_state ["q"])
    = Ret true (MkState example_config [] [])
  /\ run_command_prompt (B := example_board) 2 (example_state ["p 1 2"])
    = Ret false
        (MkState example_config []
           [EWrite ARGUMENTS_ARE_MISSING; EWrite USAGE;
            EWrite "p <led> <r-chan> <g-chan> <b-chan>: set an LED's PWM channels";
            EWrite CRLF])
  /\ run_command_prompt (B := example_board) 2 (example_state ["a !"])
    = Ret false
        (MkState example_config []
           [EWrite ARGUMENTS_ARE_INVALID; EWrite USAGE;
            EWrite "a <address>: Set module address"; EWrite CRLF])
  /\ run_command_prompt (B := example_board) 2 (example_state ["zzz"])
    = Ret false (MkState example_config [] [EWrite WRONG_COMMAND])
  /\ run_command_prompt (B := example_board) 2 (example_state ["a 300"])
    = Ret false
        (MkState example_config []
           [EWrite ADDR_OUT_OF_RANGE; EWrite ERROR_RUNNING_COMMAND]).
Proof.
  split; [|split; [|split; [|split]]].
  - destruct (run_command_prompt_exit (B := example_board) 1 (text "q") []
                (example_state ["q"]) eq_refl)
      as (_ & _ & _ & _ & _ & _ & _ & _ & H & _).
    apply (H (Command "q" 0 run_quit "q: Quit to normal mode" true) []);
      reflexivity.
  - destruct (run_command_prompt_exit (B := example_board) 1 (text "p 1 2") []
                (example_state ["p 1 2"]) eq_refl) as (_ & H & _).
    apply (H (Command "p" 4 (run_set_pwm_channels (B := example_board))
                "p <led> <r-chan> <g-chan> <b-chan>: set an LED's PWM channels"
                false) [1; 2]);
      [reflexivity | vm_compute; reflexivity].
  - destruct (run_command_prompt_exit (B := example_board) 1 (text "a !") []
                (example_state ["a !"]) eq_refl) as (_ & _ & H & _).
    apply (H (Command "a" 1 run_set_addr "a <address>: Set module address" false)
             []);
      [reflexivity | vm_compute; reflexivity].
  - destruct (run_command_prompt_exit (B := example_board) 1 (text "zzz") []
                (example_state ["zzz"]) eq_refl) as (H & _).
    apply H. reflexivity.
  - destruct (run_command_prompt_exit (B := example_board) 1 (text "a 300") []
                (example_state ["a 300"]) eq_refl)
      as (_ & _ & _ & _ & _ & _ & _ & H & _).
    apply (H (Command "a" 1 run_set_addr "a <address>: Set module address" false)
             [300] E_ARG_FORMAT
             (MkState example_config [] [EWrite ADDR_OUT_OF_RANGE]));
      [reflexivity | vm_compute; reflexivity | vm_compute; reflexivity | discriminate].
Defined.

(** ** The console at work *)

(** The line "a 5" sets the module address, without a word. *)
Example set_address_5 :
  run_command_prompt_on (B := example_board) (example_state ["a 5"])
  = Ret false (MkState (set_my_address 5 example_config) [] []).
Proof. vm_compute. reflexivity. Qed.

(** The line "a 253" sets the broadcast address and warns. *)
Example set_address_253 :
  run_command_prompt_on (B := example_board) (example_state ["a 253"])
  = Ret false (MkState (set_my_address 253 example_config) []
                 [EWrite WARN_BROADCAST_ADDR]).
Proof. vm_compute. reflexivity. Qed.

(** The line "a 300" is refused and the address stays. *)
Example set_address_300 :
  run_command_prompt_on (B := example_board) (example_state ["a 300"])
  = Ret false (MkState example_config []
                 [EWrite ADDR_OUT_OF_RANGE; EWrite ERROR_RUNNING_COMMAND]).
Proof. vm_compute. reflexivity. Qed.

(** The line "q" leaves the console, without a word. *)
Example quit_line :
  run_command_prompt_on (B := example_board) (example_state ["q"])
  = Ret true (MkState example_config [] []).
Proof. vm_compute. reflexivity. Qed.

(** The line "zzz" names no command. *)
Example unknown_line :
  run_command_prompt_on (B := example_board) (example_state ["zzz"])
  = Ret false (MkState example_config [] [EWrite WRONG_COMMAND]).
Proof. vm_compute. reflexivity. Qed.

(** The line "h 3 70000" is refused and the limit of sensor 3 stays. *)
Example heat_limit_70000 :
  run_command_prompt_on (B := example_board) (example_state ["h 3 70000"])
  = Ret false (MkState example_config []
                 [EWrite HEAT_LIMIT_OUT_OF_RANGE; EWrite ERROR_RUNNING_COMMAND]).
Proof. vm_compute. reflexivity. Qed.

(** Arguments beyond the arity are ignored. *)
Example extra_arguments_ignored :
  parse_args (B := example_board) (text "p 1 2 3 4 5 six") 4
  = (E_SUCCESS, [1; 2; 3; 4]).
Proof. vm_compute. reflexivity. Qed.

(** The command "p 1 3 4 5" rewires LED 1. *)
Example set_pwm_channels_line :
  match run_command_prompt_on (B := example_board) (example_state ["p 1 3 4 5"]) with
  | Ret b s => b = false /\ channels <$> led_infos (config s) !! 1%nat = Some [3; 4; 5]
  | _ => False
  end.
Proof. vm_compute. split; reflexivity. Qed.

(** The largest [unsigned int] as an address reads as -1 and is
    refused. *)
Example set_address_max_uint :
  run_command_prompt_on (B := example_board) (example_state ["a 4294967295"])
  = Ret false (MkState example_config []
                 [EWrite ADDR_OUT_OF_RANGE; EWrite ERROR_RUNNING_COMMAND]).
Proof. vm_compute. reflexivity. Qed.

(** * Further properties of the console *)

(** ** The status screen *)

Section StatusScreenProofs.
Context {B : Board}.
Variable GIT_VERSION_ID : string.

Lemma omap_for_items {A} (f : screen_item -> option A)
    (body : nat -> list screen_item) (g : nat -> list A) (count start : nat) :
  (forall i, omap f (body i) = g i) ->
  omap f (for_items start count body) = mjoin (g <$> seq start count).
Proof.
  intros Hbody. revert start. induction count as [|count IH]; intros start.
  - reflexivity.
  - simpl. rewrite omap_app, Hbody, IH. reflexivity.
Qed.

Lemma mjoin_nil_seq {A} (start count : nat) :
  mjoin ((fun _ : nat => @nil A) <$> seq start count) = [].
Proof.
  revert start. induction count as [|count IH]; intros start; [reflexivity|].
  simpl. apply IH.
Qed.

Lemma mjoin_singleton_seq {A} (f : nat -> A) (start count : nat) :
  mjoin ((fun i => [f i]) <$> seq start count) = f <$> seq start count.
Proof.
  revert start. induction count as [|count IH]; intros start; [reflexivity|].
  simpl. f_equal. apply IH.
Qed.

Lemma lookup_total_seq {A} `{!Inhabited A} (l : list A) :
  (fun i => l !!! i) <$> seq 0 (length l) = l.
Proof.
  apply list_eq. intros i. rewrite list_lookup_fmap.
  destruct (decide (i < length l)%nat) as [Hi|Hi].
  - rewrite lookup_seq_lt by done. simpl.
    symmetry. apply list_lookup_lookup_total_lt. exact Hi.
  - rewrite lookup_seq_ge by lia. simpl.
    symmetry. apply lookup_ge_None. lia.
Qed.

Lemma mjoin_lookup_total_seq {A C} `{!Inhabited A} (f : A -> list C) (l : list A) :
  mjoin ((fun i => f (l !!! i)) <$> seq 0 (length l)) = mjoin (f <$> l).
Proof.
  f_equal. apply list_eq. intros i. rewrite !list_lookup_fmap.
  destruct (decide (i < length l)%nat) as [Hi|Hi].
  - rewrite lookup_seq_lt by done. simpl.
    rewrite (list_lookup_lookup_total_lt l i Hi). reflexivity.
  - rewrite lookup_seq_ge by lia. simpl.
    rewrite (proj2 (lookup_ge_None l i)) by lia. reflexivity.
Qed.

Lemma shown_limits_show_led (l : nat) (info : led_info_t) :
  shown_limits (show_led l info) = [].
Proof. reflexivity. Qed.

Lemma shown_fixed_show_led (l : nat) (info : led_info_t) :
  shown_fixed (show_led l info) = led_fixed info.
Proof. reflexivity. Qed.

Lemma shown_2d_show_led (l : nat) (info : led_info_t) :
  shown_2d (show_led l info) = led_channels info.
Proof. reflexivity. Qed.

(** The heat table of the status screen: when the configuration holds a
    limit for each of the [HEAT_SENSOR_LEN] sensors, the five-digit
    numbers on the screen are these limits, one per sensor and in the
    order of the sensors. *)
Theorem status_shows_heat_limits (cfg : config_entry_t) :
  length (heat_limit cfg) = Z.to_nat HEAT_SENSOR_LEN ->
  shown_limits (show_status_prompt GIT_VERSION_ID cfg) = heat_limit cfg.
Proof.
  intros Hlen. unfold show_status_prompt, shown_limits.
  rewrite !omap_app.
  rewrite (omap_for_items _ _ (fun i => [heat_limit cfg !!! i])) by reflexivity.
  rewrite (omap_for_items _ _ (fun _ => [])).
  2:{ intros l. apply shown_limits_show_led. }
  rewrite mjoin_nil_seq, mjoin_singleton_seq, <- Hlen, lookup_total_seq.
  destruct (my_address cfg =? 0xfd); simpl; rewrite app_nil_r; reflexivity.
Qed.

(** The LED table of the status screen: when the configuration holds the
    settings of each of the [RGB_LED_COUNT] LEDs, the fixed-point numbers
    on the screen are, LED after LED, the three rows of the correction
    matrix, each followed by the peak luminance of its primary; and the
    two-digit numbers are the sensor indices followed by the three PWM
    channels of every LED. *)
Theorem status_shows_led_settings (cfg : config_entry_t) :
  length (led_infos cfg) = Z.to_nat RGB_LED_COUNT ->
  shown_fixed (show_status_prompt GIT_VERSION_ID cfg)
    = mjoin (led_fixed <$> led_infos cfg)
  /\ shown_2d (show_status_prompt GIT_VERSION_ID cfg)
    = (Z.of_nat <$> seq 0 (Z.to_nat HEAT_SENSOR_LEN))
      ++ mjoin (led_channels <$> led_infos cfg).
Proof.
  intros Hlen. unfold show_status_prompt, shown_fixed, shown_2d. split.
  - rewrite !omap_app.
    rewrite (omap_for_items _ _ (fun _ => [])) by reflexivity.
    rewrite (omap_for_items _ _ (fun l => led_fixed (led_infos cfg !!! l)))
      by (intros l; apply shown_fixed_show_led).
    rewrite mjoin_nil_seq, <- Hlen, mjoin_lookup_total_seq.
    destruct (my_address cfg =? 0xfd); simpl; rewrite app_nil_r; reflexivity.
  - rewrite !omap_app.
    rewrite (omap_for_items _ _ (fun i => [Z.of_nat i])) by reflexivity.
    rewrite (omap_for_items _ _ (fun l => led_channels (led_infos cfg !!! l)))
      by (intros l; apply shown_2d_show_led).
    rewrite mjoin_singleton_seq, <- Hlen, mjoin_lookup_total_seq.
    destruct (my_address cfg =? 0xfd); simpl; rewrite app_nil_r; reflexivity.
Qed.

Lemma elem_of_for_items (x : screen_item) (body : nat -> list screen_item)
    (count start : nat) :
  x ∈ for_items start count body -> exists i, x ∈ body i.
Proof.
  revert start. induction count as [|count IH]; intros start; simpl.
  - intros H. by apply elem_of_nil in H.
  - rewrite elem_of_app. intros [H|H]; [eauto|]. by apply IH in H.
Qed.

(** The status screen marks the module address as the broadcast address
    exactly when it is 0xfd; it begins with the program identification
    and ends with the prompt. *)
Theorem status_marks_broadcast (cfg : config_entry_t) :
  (SWrite IS_BROADCAST ∈ show_status_prompt GIT_VERSION_ID cfg
     <-> my_address cfg = 0xfd)
  /\ head (show_status_prompt GIT_VERSION_ID cfg)
     = Some (SWrite (PROGRAM_ID GIT_VERSION_ID))
  /\ last (show_status_prompt GIT_VERSION_ID cfg) = Some (SWrite CONSOLE_PROMPT).
Proof.
  split; [|split].
  - unfold show_status_prompt. split.
    + rewrite !elem_of_app.
      intros [H|[H|[H|[H|[H|[H|H]]]]]].
      * rewrite !elem_of_cons in H.
        destruct H as [H|[H|[H|H]]]; try discriminate H.
        by apply elem_of_nil in H.
      * destruct (my_address cfg =? 0xfd) eqn:E; [lia|].
        by apply elem_of_nil in H.
      * rewrite !elem_of_cons in H.
        destruct H as [H|[H|H]]; try discriminate H.
        by apply elem_of_nil in H.
      * apply elem_of_for_items in H as [i H].
        rewrite !elem_of_cons in H.
        destruct H as [H|[H|[H|[H|[H|H]]]]]; try discriminate H.
        by apply elem_of_nil in H.
      * rewrite !elem_of_cons in H.
        destruct H as [H|[H|H]]; try discriminate H.
        by apply elem_of_nil in H.
      * apply elem_of_for_items in H as [l H]. unfold show_led in H.
        rewrite elem_of_app in H. destruct H as [H|H].
        -- apply elem_of_for_items in H as [c H].
           rewrite !elem_of_app in H.
           destruct H as [H|[H|[H|H]]].
           ++ destruct (decide (c = 0%nat));
                rewrite !elem_of_cons in H;
                destruct H as [H|H]; try discriminate H;
                by apply elem_of_nil in H.
           ++ rewrite !elem_of_cons in H.
              destruct H as [H|[H|[H|H]]]; try discriminate H.
              by apply elem_of_nil in H.
           ++ apply elem_of_for_items in H as [i H].
              rewrite !elem_of_cons in H.
              destruct H as [H|[H|H]]; try discriminate H.
              by apply elem_of_nil in H.
           ++ rewrite !elem_of_cons in H.
              destruct H as [H|[H|[H|H]]]; try discriminate H.
              by apply elem_of_nil in H.
        -- rewrite !elem_of_cons in H.
           destruct H as [H|H]; try discriminate H.
           by apply elem_of_nil in H.
      * rewrite !elem_of_cons in H.
        destruct H as [H|H]; try discriminate H.
        by apply elem_of_nil in H.
    + intros E. rewrite E. simpl.
      rewrite !elem_of_cons. auto.
  - reflexivity.
  - unfold show_status_prompt. rewrite !app_assoc. apply last_snoc.
Qed.

End StatusScreenProofs.

(** The status screen of the example configuration. *)
Lemma status_shows_heat_limits_witness :
  shown_limits (show_status_prompt (B := example_board) "0123abcd" example_config)
  = heat_limit example_config.
Proof.
  apply (status_shows_heat_limits (B := example_board) "0123abcd" example_config).
  reflexivity.
Defined.

Lemma status_shows_led_settings_witness :
  shown_fixed (show_status_prompt (B := example_board) "0123abcd" example_config)
    = mjoin (led_fixed <$> led_infos example_config)
  /\ shown_2d (show_status_prompt (B := example_board) "0123abcd" example_config)
    = (Z.of_nat <$> seq 0 (Z.to_nat (HEAT_SENSOR_LEN (Board := example_board))))
      ++ mjoin (led_channels <$> led_infos example_config).
Proof.
  apply (status_shows_led_settings (B := example_board) "0123abcd" example_config).
  reflexivity.
Defined.

(** ** Commands that leave the configuration alone *)

Section KeepsConfig.
Context {B : Board}.

Lemma keeps_config_ret {A} (a : A) : keeps_config (ret a).
Proof. intros s a' s' [= _ <-]. reflexivity. Qed.

Lemma keeps_config_bind {A C} (m : M A) (k : A -> M C) :
  keeps_config m -> (forall a, keeps_config (k a)) -> keeps_config (bind m k).
Proof.
  intros Hm Hk s c s'. unfold bind.
  destruct (m s) as [a s1| |] eqn:E; [|done|done].
  intros H. rewrite (Hk a s1 c s' H). exact (Hm s a s1 E).
Qed.

Lemma keeps_config_log (e : event) : keeps_config (log e).
Proof. intros s a s' [= _ <-]. reflexivity. Qed.

Lemma keeps_config_console_write (msg : string) : keeps_config (console_write msg).
Proof. apply keeps_config_log. Qed.

Lemma keeps_config_console_uint_d (n : Z) : keeps_config (console_uint_d n).
Proof. apply keeps_config_log. Qed.

Lemma keeps_config_get_config : keeps_config get_config.
Proof. intros s a s' [= _ <-]. reflexivity. Qed.

Lemma keeps_config_call_pwm_set_brightness (channel value : Z) :
  keeps_config (call_pwm_set_brightness channel value).
Proof. intros s a s' [= _ <-]. reflexivity. Qed.

Lemma keeps_config_call_pwm_send_frame : keeps_config call_pwm_send_frame.
Proof. intros s a s' [= _ <-]. reflexivity. Qed.

Lemma keeps_config_call_save_config : keeps_config call_save_config.
Proof. intros s a s' [= _ <-]. reflexivity. Qed.

Lemma keeps_config_check_range (value limit : Z) (message : string) :
  keeps_config (check_range value limit message).
Proof.
  unfold check_range. destruct (_ || _).
  - apply keeps_config_bind; [apply keeps_config_console_write|].
    intros _. apply keeps_config_ret.
  - apply keeps_config_ret.
Qed.

Lemma keeps_config_for_try (body : nat -> M (option error_t)) (count start : nat) :
  (forall i, keeps_config (body i)) -> keeps_config (for_try start count body).
Proof.
  intros Hbody. revert start.
  induction count as [|count IH]; intros start; simpl.
  - apply keeps_config_ret.
  - apply keeps_config_bind; [apply Hbody|].
    intros [e|]; [apply keeps_config_ret|apply IH].
Qed.

Lemma keeps_config_run_echo_loop :
  keeps_config (fun s => run_echo_loop (input s) s).
Proof.
  assert (H : forall lines s0 a s',
            run_echo_loop lines s0 = Ret a s' -> config s' = config s0).
  { induction lines as [|buf rest IH]; intros s0 a s'; simpl; [done|].
    destruct (_ && _).
    - intros E. apply IH in E. exact E.
    - intros [= _ <-]. reflexivity. }
  intros s a s'. apply H.
Qed.

Lemma keeps_config_write_usages (table : list console_command_t) :
  keeps_config (write_usages table).
Proof.
  induction table as [|comm table IH]; simpl.
  - apply keeps_config_ret.
  - repeat (apply keeps_config_bind; [apply keeps_config_console_write|intros _]).
    exact IH.
Qed.

End KeepsConfig.

Create HintDb keeps.

#[local] Hint Resolve keeps_config_ret keeps_config_log keeps_config_console_write
  keeps_config_console_uint_d keeps_config_get_config
  keeps_config_call_pwm_set_brightness keeps_config_call_pwm_send_frame
  keeps_config_call_save_config keeps_config_check_range
  keeps_config_run_echo_loop keeps_config_write_usages : keeps.

(** Goes through a handler that does not write to the configuration. *)
Ltac keep :=
  repeat first
    [ progress auto with keeps
    | apply keeps_config_bind; [|intros ?]
    | apply keeps_config_for_try; intros ?
    | match goal with
      | |- keeps_config (if ?b then _ else _) => destruct b
      | |- keeps_config (match ?e with _ => _ end) => destruct e
      end ].

Section ReadOnlyCommands.
Context {B : Board}.

Lemma keeps_config_run_set_brightness args : keeps_config (run_set_brightness args).
Proof.
  unfold run_set_brightness, check_channel_index, check_short. cbv zeta. keep.
Qed.

Lemma keeps_config_run_set_color args : keeps_config (run_set_color args).
Proof. unfold run_set_color, check_led_index. cbv zeta. keep. Qed.

Lemma keeps_config_run_echo args : keeps_config (run_echo args).
Proof. unfold run_echo. keep. Qed.

Lemma keeps_config_run_quit args : keeps_config (run_quit args).
Proof. unfold run_quit. keep. Qed.

Lemma keeps_config_run_reset args : keeps_config (run_reset args).
Proof. unfold run_reset. keep. Qed.

Lemma keeps_config_run_save_config args : keeps_config (run_save_config args).
Proof. unfold run_save_config. keep. Qed.

Lemma keeps_config_run_help args : keeps_config (run_help args).
Proof. unfold run_help, run_help_of. keep. Qed.

(** The command found for a key outside [writing_keys] has a handler
    that leaves the configuration alone. *)
Lemma get_command_read_only (paste : command_handler_t) (k : ascii)
    (comm : console_command_t) :
  k ∉ writing_keys ->
  get_command paste k = Some comm ->
  forall args, keeps_config (handler comm args).
Proof.
  intros Hk. unfold get_command, commands, command_table.
  cbn [get_command_in key].
  repeat (destruct (Ascii.eqb _ k) eqn:Hkey;
          [ intros [= <-]; cbn [handler];
            first [ apply keeps_config_run_set_brightness
                  | apply keeps_config_run_set_color
                  | apply keeps_config_run_echo
                  | apply keeps_config_run_quit
                  | apply keeps_config_run_reset
                  | apply keeps_config_run_save_config
                  | apply keeps_config_run_help
                  | exfalso; apply Hk;
                    apply Ascii.eqb_eq in Hkey; subst k;
                    unfold writing_keys; rewrite !elem_of_cons; tauto ]
          | clear Hkey ]).
  discriminate.
Qed.

Lemma dispatch_keeps_config (paste : command_handler_t) (line : list ascii) :
  (forall comm, get_command paste (char_at line 0) = Some comm ->
                forall args, keeps_config (handler comm args)) ->
  keeps_config (dispatch paste line).
Proof.
  intros Hh. unfold dispatch.
  destruct (get_command paste (char_at line 0)) as [comm|]; [|keep].
  destruct (parse_args line (arg_length comm)) as [error args].
  destruct (failed error); [keep|].
  apply keeps_config_bind; [by apply Hh|]. intros e. keep.
Qed.

(** A round of the dispatcher on a line that does not begin with the key
    of a writing command ([a], [C], [f], [h], [l], [m], [p], [y]) returns
    with the configuration it found: setting a brightness or a color,
    echo, quit, reset, save, help, an unknown key and every parser
    failure leave the configuration alone. *)
Theorem read_only_round (fuel : nat) (line : list ascii)
    (rest : list (list ascii)) (s s' : State) (b : bool) :
  input s = line :: rest ->
  char_at line 0 ∉ writing_keys ->
  run_command_prompt (S fuel) s = Ret b s' ->
  config s' = config s.
Proof.
  intros Ein Hk. rewrite (run_command_prompt_step fuel line rest s Ein).
  intros E.
  apply (dispatch_keeps_config _ line) in E; [exact E|].
  intros comm Ec. exact (get_command_read_only _ _ comm Hk Ec).
Qed.

End ReadOnlyCommands.

(** The line "b 3 500" on the example board. *)
Lemma read_only_round_witness :
  config (MkState example_config []
            [ESetBrightness 3 500; ESendFrame])
  = config (example_state ["b 3 500"]).
Proof.
  apply (read_only_round (B := example_board) 1 (text "b 3 500") []
           (example_state ["b 3 500"]) _ false eq_refl).
  - unfold writing_keys. rewrite !elem_of_cons, elem_of_nil.
    intros H. repeat (destruct H as [H|H]; [discriminate H|]). exact H.
  - vm_compute. reflexivity.
Defined.

(** ** The command table *)

Section CommandTable.
Context {B : Board}.

(** What the table gives for a key: a command with that very key, with
    no more arguments than the array [args] holds, and with the exit flag
    set for [q] and for no other key. *)
Lemma get_command_entry (paste : command_handler_t) (k : ascii)
    (comm : console_command_t) :
  get_command paste k = Some comm ->
  key comm = k
  /\ (arg_length comm <= MAX_ARG_LEN)%nat
  /\ (does_exit comm = true <-> k = "q"%char)
  /\ (k = "q"%char -> arg_length comm = 0%nat /\ handler comm = run_quit).
Proof.
  unfold get_command, commands, command_table, MAX_ARG_LEN.
  cbn [get_command_in key].
  repeat (destruct (Ascii.eqb _ k) eqn:Hkey;
          [ intros [= <-]; apply Ascii.eqb_eq in Hkey; subst k;
            cbn [key arg_length does_exit handler];
            (split; [reflexivity|]); (split; [lia|]);
            split; [split; [discriminate || reflexivity
                           | discriminate || reflexivity]
                   | first [discriminate | intros _; split; reflexivity]]
          | clear Hkey ]).
  discriminate.
Qed.

(** [parse_args] stores at most [arg_length] values, and exactly that
    many when it succeeds. *)
Lemma parse_args_loop_length (base : Z) (line : list ascii) (count : nat) :
  forall pos acc,
    (length (snd (parse_args_loop base line count pos acc)) <= length acc + count)%nat
    /\ (fst (parse_args_loop base line count pos acc) = E_SUCCESS ->
        length (snd (parse_args_loop base line count pos acc))
        = (length acc + count)%nat).
Proof.
  induction count as [|count IH]; intros pos acc; simpl.
  - split; [lia|]. intros _. lia.
  - destruct (Ascii.eqb (char_at line pos) NUL); simpl.
    + split; [lia|discriminate].
    + destruct (parse_int line pos base) as [[error pos'] value].
      destruct (failed error) eqn:Ef; simpl.
      * split; [lia|]. intros ->. discriminate.
      * destruct (IH (SKIP_WHILE isspace line pos') (acc ++ [value])) as [H1 H2].
        rewrite length_app in H1, H2. simpl in H1, H2. split; [lia|].
        intros E. rewrite (H2 E). lia.
Qed.

(** The keys of the table are pairwise different, so that the first
    match of [get_command] is the only one; and whatever line is parsed
    for a command of the table, [parse_args] fills no more than the
    [MAX_ARG_LEN] cells of the array [args], and exactly the command's
    [arg_length] cells when it succeeds. *)
Theorem command_table_fits_args (paste : command_handler_t) :
  NoDup (key <$> commands paste)
  /\ forall (line : list ascii) (comm : console_command_t),
       get_command paste (char_at line 0) = Some comm ->
       key comm = char_at line 0
       /\ (length (snd (parse_args line (arg_length comm))) <= MAX_ARG_LEN)%nat
       /\ (fst (parse_args line (arg_length comm)) = E_SUCCESS ->
           length (snd (parse_args line (arg_length comm))) = arg_length comm).
Proof.
  split.
  - unfold commands, command_table. simpl.
    repeat (apply NoDup_cons_2;
            [rewrite ?elem_of_cons, elem_of_nil;
             intros H; repeat (destruct H as [H|H]; [discriminate H|]); exact H|]).
    apply NoDup_nil_2.
  - intros line comm Ec.
    destruct (get_command_entry paste _ comm Ec) as (Hkey & Hlen & _).
    unfold parse_args.
    destruct (parse_args_loop_length CONSOLE_READ_BASE line (arg_length comm)
                (SKIP_WHILE isspace line (SKIP_WHILE isalnum line 0)) [])
      as [H1 H2].
    simpl in H1, H2. split; [exact Hkey|]. split; [lia|exact H2].
Qed.

(** A round of the dispatcher returns exit=true exactly when its line
    begins with [q], whatever follows on the line; the round has then
    done nothing but read the line. *)
Theorem exit_iff_quit_line (fuel : nat) (line : list ascii)
    (rest : list (list ascii)) (s s' : State) :
  input s = line :: rest ->
  (run_command_prompt (S fuel) s = Ret true s'
   <-> char_at line 0 = "q"%char /\ s' = with_input rest s).
Proof.
  intros Ein. rewrite (run_command_prompt_step fuel line rest s Ein).
  set (paste := run_paste_file (run_command_prompt fuel) fuel).
  set (s0 := with_input rest s).
  split.
  - destruct (get_command paste (char_at line 0)) as [comm|] eqn:Ec.
    + destruct (get_command_entry paste _ comm Ec) as (_ & _ & Hexit & Hquit).
      destruct (parse_args line (arg_length comm)) as [error args] eqn:Ep.
      destruct (decide (error = E_SUCCESS)) as [->|Hne].
      * rewrite (dispatch_handler paste line s0 comm args Ec Ep).
        destruct (handler comm args s0) as [e s1| |] eqn:Eh; try discriminate.
        destruct (failed e); [discriminate|].
        intros [= Hflag ->]. apply Hexit in Hflag.
        split; [exact Hflag|].
        destruct (Hquit Hflag) as [_ Hh]. rewrite Hh in Eh.
        injection Eh as _ <-. reflexivity.
      * rewrite (dispatch_parse_error paste line s0 comm error args Ec Ep Hne).
        discriminate.
    + rewrite (dispatch_unknown paste line s0 Ec). discriminate.
  - intros [Hq ->].
    rewrite (dispatch_handler paste line s0
               (Command "q" 0 run_quit "q: Quit to normal mode" true) []).
    + reflexivity.
    + rewrite Hq. reflexivity.
    + apply parse_args_none.
Qed.

End CommandTable.

(** The line "quit now", which begins with [q]. *)
Lemma exit_iff_quit_line_witness :
  run_command_prompt (B := example_board) 1 (example_state ["quit now"])
    = Ret true (MkState example_config [] [])
  <-> char_at (text "quit now") 0 = "q"%char
      /\ MkState example_config [] [] = with_input [] (example_state ["quit now"]).
Proof.
  apply (exit_iff_quit_line (B := example_board) 0 (text "quit now") []
           (example_state ["quit now"]) (MkState example_config [] []) eq_refl).
Defined.

(** The line "p 1 2 3 4 5" on the example board. *)
Lemma command_table_fits_args_witness :
  key (Command "p" 4 (run_set_pwm_channels (B := example_board))
         "p <led> <r-chan> <g-chan> <b-chan>: set an LED's PWM channels" false)
    = char_at (text "p 1 2 3 4 5") 0
  /\ (length (snd (parse_args (B := example_board) (text "p 1 2 3 4 5") 4))
      <= MAX_ARG_LEN)%nat
  /\ (fst (parse_args (B := example_board) (text "p 1 2 3 4 5") 4) = E_SUCCESS ->
      length (snd (parse_args (B := example_board) (text "p 1 2 3 4 5") 4)) = 4%nat).
Proof.
  exact (proj2 (command_table_fits_args (B := example_board) run_quit)
           (text "p 1 2 3 4 5")
           (Command "p" 4 (run_set_pwm_channels (B := example_board))
              "p <led> <r-chan> <g-chan> <b-chan>: set an LED's PWM channels" false)
           eq_refl).
Defined.

(** ** Failure and the configuration *)

Section FailureKeepsConfig.
Context {B : Board}.

Lemma only_success_ret : only_success (ret E_SUCCESS).
Proof. intros s e s' [= <- _]. reflexivity. Qed.

Lemma only_success_bind {A} (m : M A) (k : A -> M error_t) :
  (forall a, only_success (k a)) -> only_success (bind m k).
Proof.
  intros Hk s e s'. unfold bind.
  destruct (m s) as [a s1| |]; [|done|done]. apply Hk.
Qed.

Lemma keeps_config_failure (m : M error_t) :
  keeps_config m -> failure_keeps_config m.
Proof. intros H s e s' E _. exact (H s e s' E). Qed.

Lemma only_success_failure (m : M error_t) :
  only_success m -> failure_keeps_config m.
Proof. intros H s e s' E Hne. destruct (Hne (H s e s' E)). Qed.

(** A handler that begins with a range check and cannot fail after it. *)
Lemma check_then_success_failure (value limit : Z) (message : string)
    (k : M error_t) :
  only_success k ->
  failure_keeps_config
    (e <- check_range value limit message ;;
     if failed e then ret E_ARG_FORMAT else k).
Proof.
  intros Hk s e s'. unfold bind.
  destruct (decide (0 <= value < limit)) as [H|H].
  - rewrite (check_range_ok value limit message s H). simpl.
    intros E Hne. destruct (Hne (Hk s e s' E)).
  - rewrite (check_range_fail value limit message s H). simpl.
    intros [= _ <-] _. reflexivity.
Qed.

Lemma failure_run_set_addr args : failure_keeps_config (run_set_addr args).
Proof.
  intros s e s'. unfold run_set_addr. cbv zeta.
  destruct (_ || _).
  - intros [= _ <-] _. reflexivity.
  - intros E Hne. exfalso. apply Hne. revert E.
    apply only_success_bind. intros _.
    apply only_success_bind. intros _. apply only_success_ret.
Qed.

Lemma failure_run_calibrate_led args : failure_keeps_config (run_calibrate_led args).
Proof.
  unfold run_calibrate_led, check_led_index. cbv zeta.
  apply check_then_success_failure.
  repeat (apply only_success_bind; intros ?). apply only_success_ret.
Qed.

Lemma failure_run_set_correction args :
  failure_keeps_config (run_set_correction args).
Proof.
  unfold run_set_correction, check_led_index. cbv zeta.
  apply check_then_success_failure.
  repeat (apply only_success_bind; intros ?). apply only_success_ret.
Qed.

Lemma failure_run_set_max_Y args : failure_keeps_config (run_set_max_Y args).
Proof.
  unfold run_set_max_Y, check_led_index. cbv zeta.
  apply check_then_success_failure.
  repeat (apply only_success_bind; intros ?). apply only_success_ret.
Qed.

Lemma failure_run_set_heat_limit args :
  failure_keeps_config (run_set_heat_limit args).
Proof.
  intros s e s'. unfold run_set_heat_limit. cbv zeta.
  step_check; [|intros [= _ <-] _; reflexivity].
  step_check; [|intros [= _ <-] _; reflexivity].
  intros [= <- _] Hne. done.
Qed.

Lemma failure_run_set_pwm_channels args :
  failure_keeps_config (run_set_pwm_channels args).
Proof.
  intros s e s'. unfold run_set_pwm_channels. cbv zeta.
  do 4 (step_check; [|intros [= _ <-] _; reflexivity]).
  intros [= <- _] Hne. done.
Qed.

Lemma only_success_run_paste_file (prompt : M bool) (budget : nat) args :
  only_success (run_paste_file prompt budget args).
Proof.
  unfold run_paste_file.
  repeat (apply only_success_bind; intros ?). apply only_success_ret.
Qed.

(** Whatever command of the table other than the reload command [l]
    fails, by a range check or by a status of the PWM driver or of the
    flash, the configuration in memory is what it was before the command
    ran.  (The reload command hands the configuration to [load_config].) *)
Theorem failed_command_keeps_config (prompt : M bool) (budget : nat)
    (k : ascii) (comm : console_command_t) (args : list Z)
    (s s' : State) (e : error_t) :
  get_command (run_paste_file prompt budget) k = Some comm ->
  k ≠ "l"%char ->
  handler comm args s = Ret e s' ->
  e ≠ E_SUCCESS ->
  config s' = config s.
Proof.
  intros Ec Hk. revert s e s'.
  change (failure_keeps_config (handler comm args)).
  revert Ec.
  unfold get_command, commands, command_table. cbn [get_command_in key].
  repeat (destruct (Ascii.eqb _ k) eqn:Hkey;
          [ intros [= <-]; cbn [handler];
            lazymatch goal with
            | |- failure_keeps_config (run_set_addr _) =>
                apply failure_run_set_addr
            | |- failure_keeps_config (run_set_brightness _) =>
                apply keeps_config_failure, keeps_config_run_set_brightness
            | |- failure_keeps_config (run_set_color _) =>
                apply keeps_config_failure, keeps_config_run_set_color
            | |- failure_keeps_config (run_calibrate_led _) =>
                apply failure_run_calibrate_led
            | |- failure_keeps_config (run_echo _) =>
                apply keeps_config_failure, keeps_config_run_echo
            | |- failure_keeps_config (run_paste_file _ _ _) =>
                apply only_success_failure, only_success_run_paste_file
            | |- failure_keeps_config (run_set_heat_limit _) =>
                apply failure_run_set_heat_limit
            | |- failure_keeps_config (run_reload_config _) =>
                exfalso; apply Hk; apply Ascii.eqb_eq in Hkey;
                symmetry; exact Hkey
            | |- failure_keeps_config (run_set_correction _) =>
                apply failure_run_set_correction
            | |- failure_keeps_config (run_set_pwm_channels _) =>
                apply failure_run_set_pwm_channels
            | |- failure_keeps_config (run_quit _) =>
                apply keeps_config_failure, keeps_config_run_quit
            | |- failure_keeps_config (run_reset _) =>
                apply keeps_config_failure, keeps_config_run_reset
            | |- failure_keeps_config (run_save_config _) =>
                apply keeps_config_failure, keeps_config_run_save_config
            | |- failure_keeps_config (run_set_max_Y _) =>
                apply failure_run_set_max_Y
            | |- failure_keeps_config (run_help _) =>
                apply keeps_config_failure, keeps_config_run_help
            end
          | clear Hkey ]).
  discriminate.
Qed.

End FailureKeepsConfig.

(** The command "h 3 70000" on the example board: the limit is out of
    range. *)
Lemma failed_command_keeps_config_witness :
  config (emit (EWrite HEAT_LIMIT_OUT_OF_RANGE) (example_state []))
  = config (example_state []).
Proof.
  apply (failed_command_keeps_config (B := example_board) (ret true) 0 "h"
           (Command "h" 2 (run_set_heat_limit (B := example_board))
              "h <sensor> <heat-limit>: Set heat limit" false)
           [3; 70000] (example_state []) _ E_ARG_FORMAT).
  - reflexivity.
  - discriminate.
  - vm_compute. reflexivity.
  - discriminate.
Defined.

(** ** What the setting commands store *)

Section Stores.
Context {B : Board}.

(** The set-heat-limit command with a sensor index and a limit in range
    returns [E_SUCCESS] without a word; afterwards the limit of that
    sensor is the one given, the limits of the other sensors, the module
    address and the LED settings are as before, and giving the same
    command again changes nothing. *)
Theorem run_set_heat_limit_stores (index limit : Z) (more : list Z) (s : State) :
  is_uint index -> is_uint limit ->
  in_range index HEAT_SENSOR_LEN = true ->
  in_range limit 0x10000 = true ->
  (Z.to_nat index < length (heat_limit (config s)))%nat ->
  exists s',
    run_set_heat_limit (index :: limit :: more) s = Ret E_SUCCESS s'
    /\ heat_limit (config s') !! Z.to_nat index = Some limit
    /\ (forall j, j ≠ Z.to_nat index ->
          heat_limit (config s') !! j = heat_limit (config s) !! j)
    /\ length (heat_limit (config s')) = length (heat_limit (config s))
    /\ my_address (config s') = my_address (config s)
    /\ led_infos (config s') = led_infos (config s)
    /\ input s' = input s /\ trace s' = trace s
    /\ run_set_heat_limit (index :: limit :: more) s' = Ret E_SUCCESS s'.
Proof.
  intros Hui Hul Hi Hl Hlen.
  destruct (in_range_uint index _ Hui Hi) as [Ei Hir].
  destruct (in_range_uint limit _ Hul Hl) as [El Hlr].
  assert (Hrun : forall s0,
    run_set_heat_limit (index :: limit :: more) s0
    = Ret E_SUCCESS (with_config (set_heat_limit (Z.to_nat index) limit (config s0)) s0)).
  { intros s0. unfold run_set_heat_limit, arg. simpl. rewrite Ei, El.
    do 2 (step_check; [|lia]). reflexivity. }
  eexists. split; [apply Hrun|]. simpl.
  split; [by apply list_lookup_insert_eq|].
  split; [intros j Hj; by apply list_lookup_insert_ne|].
  split; [apply length_insert|].
  do 4 (split; [reflexivity|]).
  rewrite Hrun. unfold with_config, set_heat_limit. simpl.
  rewrite list_insert_insert_eq. reflexivity.
Qed.

(** The set-PWM-channels command with an LED index and three channels in
    range returns [E_SUCCESS] without a word; afterwards the three
    channels of that LED are the ones given, in the order red, green,
    blue, its matrix and peak luminances are as before, and so are the
    other LEDs, the module address and the heat limits. *)
Theorem run_set_pwm_channels_stores (led r g b : Z) (more : list Z) (s : State)
    (info : led_info_t) :
  is_uint led -> is_uint r -> is_uint g -> is_uint b ->
  in_range led RGB_LED_COUNT = true ->
  in_range r MODULE_LENGTH = true ->
  in_range g MODULE_LENGTH = true ->
  in_range b MODULE_LENGTH = true ->
  led_infos (config s) !! Z.to_nat led = Some info ->
  length (channels info) = 3%nat ->
  exists s',
    run_set_pwm_channels (led :: r :: g :: b :: more) s = Ret E_SUCCESS s'
    /\ led_infos (config s') !! Z.to_nat led
       = Some (LedInfo [r; g; b] (color_matrix info) (peak_Y info))
    /\ (forall j, j ≠ Z.to_nat led ->
          led_infos (config s') !! j = led_infos (config s) !! j)
    /\ my_address (config s') = my_address (config s)
    /\ heat_limit (config s') = heat_limit (config s)
    /\ input s' = input s /\ trace s' = trace s.
Proof.
  intros Hul Hur Hug Hub Hl Hr Hg Hb Hinfo Hlen.
  destruct (in_range_uint led _ Hul Hl) as [El Hlr].
  destruct (in_range_uint r _ Hur Hr) as [Er Hrr].
  destruct (in_range_uint g _ Hug Hg) as [Eg Hgr].
  destruct (in_range_uint b _ Hub Hb) as [Eb Hbr].
  unfold run_set_pwm_channels, arg. simpl. rewrite El, Er, Eg, Eb.
  do 4 (step_check; [|lia]).
  eexists. split; [reflexivity|]. simpl.
  split; [|split; [|repeat split]].
  - rewrite !list_lookup_alter_eq, Hinfo. simpl.
    destruct info as [ch cm py]. simpl in Hlen |- *.
    destruct ch as [|c0 [|c1 [|c2 [|]]]]; try discriminate. reflexivity.
  - intros j Hj. rewrite !list_lookup_alter_ne by done. reflexivity.
Qed.

End Stores.

(** The limit 700 for sensor 3. *)
Lemma run_set_heat_limit_stores_witness :
  exists s',
    run_set_heat_limit (B := example_board) [3; 700] (example_state [])
      = Ret E_SUCCESS s'
    /\ heat_limit (config s') !! Z.to_nat 3 = Some 700
    /\ (forall j, j ≠ Z.to_nat 3 ->
          heat_limit (config s') !! j = heat_limit example_config !! j)
    /\ length (heat_limit (config s')) = length (heat_limit example_config)
    /\ my_address (config s') = my_address example_config
    /\ led_infos (config s') = led_infos example_config
    /\ input s' = [] /\ trace s' = []
    /\ run_set_heat_limit (B := example_board) [3; 700] s' = Ret E_SUCCESS s'.
Proof.
  apply (run_set_heat_limit_stores (B := example_board) 3 700 []
           (example_state []));
    first [ unfold is_uint; lia | vm_compute; reflexivity | vm_compute; lia ].
Defined.

(** The channels 3, 4, 5 for LED 1. *)
Lemma run_set_pwm_channels_stores_witness :
  exists s',
    run_set_pwm_channels (B := example_board) [1; 3; 4; 5] (example_state [])
      = Ret E_SUCCESS s'
    /\ led_infos (config s') !! Z.to_nat 1
       = Some (LedInfo [3; 4; 5] (color_matrix example_led) (peak_Y example_led))
    /\ (forall j, j ≠ Z.to_nat 1 ->
          led_infos (config s') !! j = led_infos example_config !! j)
    /\ my_address (config s') = my_address example_config
    /\ heat_limit (config s') = heat_limit example_config
    /\ input s' = [] /\ trace s' = [].
Proof.
  apply (run_set_pwm_channels_stores (B := example_board) 1 3 4 5 []
           (example_state []) example_led);
    first [ unfold is_uint; lia | vm_compute; reflexivity ].
Defined.

(** ** The complaint of a command *)

Section ComplaintProofs.
Context {B : Board}.

(** The commands [c], [C], [m] and [y] with an LED index out of range
    write the LED-index text and return [E_ARG_FORMAT] at once: no prompt
    is shown, no line is read, no PWM function is called and the
    configuration is untouched. *)
Theorem led_index_rejected (c : led_command) (args : list Z) (s : State) :
  in_range (arg args 0) RGB_LED_COUNT = false ->
  led_handler c args s = Ret E_ARG_FORMAT (emit (EWrite LED_OUT_OF_RANGE) s).
Proof.
  intros Hbad. apply in_range_false in Hbad.
  destruct c; cbn [led_handler].
  - unfold run_set_color. step_check; [done|]. reflexivity.
  - unfold run_calibrate_led. step_check; [done|]. reflexivity.
  - unfold run_set_correction. step_check; [done|]. reflexivity.
  - unfold run_set_max_Y. step_check; [done|]. reflexivity.
Qed.

(** The commands [p], [h] and [b] complain about the first check that
    fails, in the order LED, red, green, blue channel for [p], sensor
    before limit for [h], channel before brightness for [b]; the text
    written is the one for that check, and nothing else happens. *)
Theorem complaint_names_first_failure (c : multi_arg_command) (args : list Z)
    (msg : string) (s : State) :
  first_complaint c args = Some msg ->
  multi_arg_handler c args s = Ret E_ARG_FORMAT (emit (EWrite msg) s).
Proof.
  destruct c; cbn [first_complaint multi_arg_handler].
  - destruct (in_range (arg args 0) RGB_LED_COUNT) eqn:E0; cbn [negb].
    2:{ intros [= <-]. apply in_range_false in E0.
        unfold run_set_pwm_channels. step_check; [done|]. reflexivity. }
    apply in_range_true in E0.
    destruct (in_range (arg args 1) MODULE_LENGTH) eqn:E1; cbn [negb andb].
    2:{ intros [= <-]. apply in_range_false in E1.
        unfold run_set_pwm_channels. step_check; [|done].
        step_check; [done|]. reflexivity. }
    apply in_range_true in E1.
    destruct (in_range (arg args 2) MODULE_LENGTH) eqn:E2; cbn [negb andb].
    2:{ intros [= <-]. apply in_range_false in E2.
        unfold run_set_pwm_channels. do 2 (step_check; [|done]).
        step_check; [done|]. reflexivity. }
    apply in_range_true in E2.
    destruct (in_range (arg args 3) MODULE_LENGTH) eqn:E3; cbn [negb andb];
      [discriminate|].
    intros [= <-]. apply in_range_false in E3.
    unfold run_set_pwm_channels. do 3 (step_check; [|done]).
    step_check; [done|]. reflexivity.
  - destruct (in_range (arg args 0) HEAT_SENSOR_LEN) eqn:E0; cbn [negb].
    2:{ intros [= <-]. apply in_range_false in E0.
        unfold run_set_heat_limit. step_check; [done|]. reflexivity. }
    apply in_range_true in E0.
    destruct (in_range (arg args 1) 0x10000) eqn:E1; cbn [negb]; [discriminate|].
    intros [= <-]. apply in_range_false in E1.
    unfold run_set_heat_limit. step_check; [|done].
    step_check; [done|]. reflexivity.
  - destruct (in_range (arg args 0) MODULE_LENGTH) eqn:E0; cbn [negb].
    2:{ intros [= <-]. apply in_range_false in E0.
        unfold run_set_brightness. step_check; [done|]. reflexivity. }
    apply in_range_true in E0.
    destruct (in_range (arg args 1) 0x10000) eqn:E1; cbn [negb]; [discriminate|].
    intros [= <-]. apply in_range_false in E1.
    unfold run_set_brightness. step_check; [|done].
    step_check; [done|]. reflexivity.
Qed.

End ComplaintProofs.

(** The calibrate command for LED 7 of five. *)
Lemma led_index_rejected_witness :
  led_handler (B := example_board) CalibrateLed [7] (example_state ["1"; "2"])
  = Ret E_ARG_FORMAT
      (emit (EWrite (LED_OUT_OF_RANGE (B := example_board)))
         (example_state ["1"; "2"])).
Proof.
  apply (led_index_rejected (B := example_board) CalibrateLed [7]
           (example_state ["1"; "2"])).
  vm_compute. reflexivity.
Defined.

(** The command "h 9 70000" on a board with six sensors: the sensor is
    complained about, not the limit. *)
Lemma complaint_names_first_failure_witness :
  multi_arg_handler (B := example_board) SetHeatLimit [9; 70000] (example_state [])
  = Ret E_ARG_FORMAT
      (emit (EWrite (SENSOR_OUT_OF_RANGE (B := example_board))) (example_state [])).
Proof.
  apply (complaint_names_first_failure (B := example_board) SetHeatLimit
           [9; 70000] _ (example_state [])).
  vm_compute. reflexivity.
Defined.

(** ** Setting a color *)

Section ColorProofs.
Context {B : Board}.

(** The set-color command with an LED index in range prints the
    corrected values and then sets the brightness of the LED's red, green
    and blue channel, in this order, to them.  It stops at the first of
    these calls that fails and returns its status, without sending a
    frame; when all three succeed it sends one frame and returns the
    status of that.  The configuration and the input are untouched, and x,
    y and Y are passed on unchecked. *)
Theorem run_set_color_calls (led x y Y : Z) (more : list Z) (s : State) :
  is_uint led ->
  in_range led RGB_LED_COUNT = true ->
  let info := led_infos (config s) !!! Z.to_nat led in
  let rgb := color_correct info (to_int x) (to_int y) (to_int Y) in
  let t0 := trace s ++ color_banner rgb in
  let t1 := t0 ++ [color_call info rgb 0] in
  let t2 := t1 ++ [color_call info rgb 1] in
  let t3 := t2 ++ [color_call info rgb 2] in
  let e0 := pwm_set_brightness t0 (channels info !!! 0%nat) (rgb !!! 0%nat) in
  let e1 := pwm_set_brightness t1 (channels info !!! 1%nat) (rgb !!! 1%nat) in
  let e2 := pwm_set_brightness t2 (channels info !!! 2%nat) (rgb !!! 2%nat) in
  run_set_color (led :: x :: y :: Y :: more) s =
    if failed e0 then Ret e0 (MkState (config s) (input s) t1)
    else if failed e1 then Ret e1 (MkState (config s) (input s) t2)
    else if failed e2 then Ret e2 (MkState (config s) (input s) t3)
    else Ret (pwm_send_frame t3) (MkState (config s) (input s) (t3 ++ [ESendFrame])).
Proof.
  intros Hu Hin info rgb t0 t1 t2 t3 e0 e1 e2.
  destruct (in_range_uint led _ Hu Hin) as [El Hlr].
  unfold run_set_color, arg. simpl lookup_total. rewrite El.
  unfold bind at 1. unfold check_led_index.
  rewrite check_range_ok by lia. cbn [failed].
  unfold bind, get_config, console_write, console_uint_d, log, ret, emit,
    call_pwm_set_brightness, call_pwm_send_frame.
  cbn [for_try config input trace]. unfold bind, ret. cbn [config input trace].
  fold info. fold rgb.
  assert (E0 : ((((((trace s ++ [EWrite "Color correction: "])
                     ++ [EUintD (rgb !!! RED)]) ++ [EWrite " "])
                   ++ [EUintD (rgb !!! GREEN)]) ++ [EWrite " "])
                 ++ [EUintD (rgb !!! BLUE)]) ++ [EWrite CRLF] = t0).
  { unfold t0, color_banner. rewrite <- !app_assoc. reflexivity. }
  rewrite !E0. clear E0.
  unfold e0, e1, e2, t3, t2, t1, color_call. clearbody t0.
  do 3 (match goal with
        | |- context [failed ?e] => destruct (failed e)
        end; cbn [emit trace config input]; [reflexivity|]).
  reflexivity.
Qed.

End ColorProofs.

(** The color command for LED 1 on the board whose PWM driver refuses. *)
Lemma run_set_color_calls_witness :
  run_set_color (B := failing_pwm_board) [1; 100; 200; 300] (example_state [])
  = Ret (E_OTHER 1)
      (MkState example_config []
         (color_banner [0; 0; 0] ++ [ESetBrightness 0 0])).
Proof.
  apply (run_set_color_calls (B := failing_pwm_board) 1 100 200 300 []
           (example_state []));
    [unfold is_uint; lia | vm_compute; reflexivity].
Defined.

(** ** Reloading the configuration *)

Section ReloadProofs.
Context {B : Board}.

(** The reload command always returns, with exactly the status of
    [load_config], and leaves in memory the configuration [load_config]
    left.  After the reloading text it prints nothing on success, the
    no-configuration text for [E_NOCONFIG] and the internal-error text
    for every other status. *)
Theorem run_reload_config_forwards (args : list Z) (s : State) :
  let r := load_config (trace s ++ [EWrite RELOADING_CONFIG]) (config s) in
  run_reload_config args s =
    Ret (fst r)
        (MkState (snd r) (input s)
           (trace s ++ [EWrite RELOADING_CONFIG; ELoadConfig]
                    ++ load_diagnostic (fst r))).
Proof.
  intros r. unfold run_reload_config, bind, console_write, log,
    call_load_config, ret, emit, with_config. simpl. fold r.
  destruct (fst r); simpl; rewrite <- ?app_assoc; reflexivity.
Qed.

End ReloadProofs.

(** ** Entering a matrix or peak values directly *)

Section DirectEntryProofs.
Context {B : Board}.

Lemma answers_cons_inv (base : Z) (line : list ascii) (lines : list (list ascii))
    (vals : list Z) :
  answers base (line :: lines) vals ->
  exists v vals', vals = v :: vals' /\ answer base line = Some v
                  /\ answers base lines vals'.
Proof.
  unfold answers. destruct vals as [|v vals']; [discriminate|].
  simpl. intros [= E1 E2]. eauto.
Qed.

Lemma answers_length (base : Z) (lines : list (list ascii)) (vals : list Z) :
  answers base lines vals -> length vals = length lines.
Proof.
  unfold answers. intros E.
  rewrite <- (length_fmap Some vals), <- E, length_fmap. reflexivity.
Qed.

(** A loop that asks for a number and stores it, once per cell. *)
Lemma for_fold_asks (prompt : string) (base : Z)
    (write : nat -> Z -> config_entry_t -> config_entry_t)
    (lines : list (list ascii)) :
  forall (vals : list Z) (start : nat) (cfg : config_entry_t)
         (rest : list (list ascii)) (tr : list event),
    answers base lines vals ->
    for_fold start (length lines)
      (fun i _ => input <- console_ask_int prompt base ;;
                  modify_config (write i input)) tt
      (MkState cfg (lines ++ rest) tr)
    = Ret tt (MkState (write_cells write start vals cfg) rest
                (tr ++ replicate (length lines) (EWrite prompt))).
Proof.
  induction lines as [|line lines IH]; intros vals start cfg rest tr Ha.
  - destruct vals; [|discriminate]. simpl. rewrite app_nil_r. reflexivity.
  - apply answers_cons_inv in Ha as (v & vals' & -> & Hv & Ha).
    cbn [length for_fold].
    rewrite bind_bind.
    erewrite bind_ret_eq
      by (apply (console_ask_int_answer prompt base line (lines ++ rest) v);
          [reflexivity|exact Hv]).
    unfold bind at 1. unfold modify_config at 1.
    change (with_config ?c (with_input ?i (emit ?e (MkState cfg ?l tr))))
      with (MkState c i (tr ++ [e])).
    rewrite (IH vals' (S start) _ rest (tr ++ [EWrite prompt]) Ha).
    cbn [write_cells replicate]. rewrite <- app_assoc. reflexivity.
Qed.

(** The set-correction command with an LED index in range reads nine
    lines as decimal numbers and stores them, as raw fixed-point values
    and in the order given, as the nine cells of the LED's matrix; the
    channels and peak luminances of the LED, the other LEDs, the module
    address and the heat limits are as before. *)
Theorem run_set_correction_stores (led : Z) (more : list Z) (s : State)
    (info : led_info_t) (lines rest : list (list ascii)) (vals : list Z) :
  is_uint led ->
  in_range led RGB_LED_COUNT = true ->
  led_infos (config s) !! Z.to_nat led = Some info ->
  length (color_matrix info) = 9%nat ->
  length lines = 9%nat ->
  answers 10 lines vals ->
  input s = lines ++ rest ->
  exists s',
    run_set_correction (led :: more) s = Ret E_SUCCESS s'
    /\ input s' = rest
    /\ led_infos (config s') !! Z.to_nat led
       = Some (LedInfo (channels info) (raw_fixed <$> vals) (peak_Y info))
    /\ (forall j, j ≠ Z.to_nat led ->
          led_infos (config s') !! j = led_infos (config s) !! j)
    /\ my_address (config s') = my_address (config s)
    /\ heat_limit (config s') = heat_limit (config s)
    /\ trace s' = trace s ++ EWrite ENTER_MATRIX :: replicate 9 (EWrite "").
Proof.
  intros Hu Hin Hinfo Hcm Hlen Ha Ein.
  destruct (in_range_uint led _ Hu Hin) as [El Hlr].
  destruct s as [cfg inp tr]. simpl in Ein, Hinfo. subst inp.
  unfold run_set_correction.
  change (arg (led :: more) 0) with led. rewrite El.
  unfold check_led_index.
  erewrite bind_ret_eq by (apply check_range_ok; lia).
  cbn [failed].
  erewrite bind_ret_eq by reflexivity.
  rewrite <- Hlen.
  erewrite bind_ret_eq.
  2:{ apply (for_fold_asks "" 10
               (fun i v => set_color_matrix_cell (Z.to_nat led) i (Fixed (to_int v)))
               lines vals 0). exact Ha. }
  eexists. split; [reflexivity|]. cbn [input config trace].
  pose proof (answers_length 10 lines vals Ha) as Hvals. rewrite Hlen in Hvals.
  destruct vals as [|v0 [|v1 [|v2 [|v3 [|v4 [|v5 [|v6 [|v7 [|v8 [|]]]]]]]]]];
    try discriminate.
  split; [reflexivity|]. cbn [write_cells]. simpl.
  split; [|split; [|split; [reflexivity|split; [reflexivity|]]]].
  - rewrite !list_lookup_alter_eq, Hinfo. simpl.
    destruct info as [ch cm py]. simpl in Hcm |- *.
    destruct cm as [|c0 [|c1 [|c2 [|c3 [|c4 [|c5 [|c6 [|c7 [|c8 [|]]]]]]]]]];
      try discriminate.
    reflexivity.
  - intros j Hj. rewrite !list_lookup_alter_ne by done. reflexivity.
  - rewrite Hlen. rewrite <- app_assoc. reflexivity.
Qed.

(** The set-maximum-Y command with an LED index in range reads three
    lines as hexadecimal numbers and stores them, as raw fixed-point
    values, as the peak luminances of red, green and blue; the channels
    and the matrix of the LED, the other LEDs, the module address and the
    heat limits are as before. *)
Theorem run_set_max_Y_stores (led : Z) (more : list Z) (s : State)
    (info : led_info_t) (lines rest : list (list ascii)) (vals : list Z) :
  is_uint led ->
  in_range led RGB_LED_COUNT = true ->
  led_infos (config s) !! Z.to_nat led = Some info ->
  length (peak_Y info) = 3%nat ->
  length lines = 3%nat ->
  answers 16 lines vals ->
  input s = lines ++ rest ->
  exists s',
    run_set_max_Y (led :: more) s = Ret E_SUCCESS s'
    /\ input s' = rest
    /\ led_infos (config s') !! Z.to_nat led
       = Some (LedInfo (channels info) (color_matrix info) (raw_fixed <$> vals))
    /\ (forall j, j ≠ Z.to_nat led ->
          led_infos (config s') !! j = led_infos (config s) !! j)
    /\ my_address (config s') = my_address (config s)
    /\ heat_limit (config s') = heat_limit (config s)
    /\ trace s' = trace s ++ EWrite ENTER_MAX_Y :: replicate 3 (EWrite "").
Proof.
  intros Hu Hin Hinfo Hpy Hlen Ha Ein.
  destruct (in_range_uint led _ Hu Hin) as [El Hlr].
  destruct s as [cfg inp tr]. simpl in Ein, Hinfo. subst inp.
  unfold run_set_max_Y.
  change (arg (led :: more) 0) with led. rewrite El.
  unfold check_led_index.
  erewrite bind_ret_eq by (apply check_range_ok; lia).
  cbn [failed].
  erewrite bind_ret_eq by reflexivity.
  rewrite <- Hlen.
  erewrite bind_ret_eq.
  2:{ apply (for_fold_asks "" 16
               (fun i v => set_peak_Y (Z.to_nat led) i (Fixed (to_int v)))
               lines vals 0). exact Ha. }
  eexists. split; [reflexivity|]. cbn [input config trace].
  pose proof (answers_length 16 lines vals Ha) as Hvals. rewrite Hlen in Hvals.
  destruct vals as [|v0 [|v1 [|v2 [|]]]]; try discriminate.
  split; [reflexivity|]. cbn [write_cells]. simpl.
  split; [|split; [|split; [reflexivity|split; [reflexivity|]]]].
  - rewrite !list_lookup_alter_eq, Hinfo. simpl.
    destruct info as [ch cm py]. simpl in Hpy |- *.
    destruct py as [|p0 [|p1 [|p2 [|]]]]; try discriminate.
    reflexivity.
  - intros j Hj. rewrite !list_lookup_alter_ne by done. reflexivity.
  - rewrite Hlen. rewrite <- app_assoc. reflexivity.
Qed.

End DirectEntryProofs.

(** The matrix 1 to 9 for LED 2. *)
Lemma run_set_correction_stores_witness :
  exists s',
    run_set_correction (B := example_board) [2]
      (example_state ["1"; "2"; "3"; "4"; "5"; "6"; "7"; "8"; "9"; "q"])
    = Ret E_SUCCESS s'
    /\ input s' = [text "q"]
    /\ led_infos (config s') !! Z.to_nat 2
       = Some (LedInfo (channels example_led)
                 (raw_fixed <$> [1; 2; 3; 4; 5; 6; 7; 8; 9]) (peak_Y example_led))
    /\ (forall j, j ≠ Z.to_nat 2 ->
          led_infos (config s') !! j = led_infos example_config !! j)
    /\ my_address (config s') = my_address example_config
    /\ heat_limit (config s') = heat_limit example_config
    /\ trace s' = [] ++ EWrite ENTER_MATRIX :: replicate 9 (EWrite "").
Proof.
  apply (run_set_correction_stores (B := example_board) 2 []
           (example_state ["1"; "2"; "3"; "4"; "5"; "6"; "7"; "8"; "9"; "q"])
           example_led
           (text <$> ["1"; "2"; "3"; "4"; "5"; "6"; "7"; "8"; "9"])
           [text "q"] [1; 2; 3; 4; 5; 6; 7; 8; 9]);
    first [ unfold is_uint; lia | vm_compute; reflexivity ].
Defined.

(** The peak values 10000, 2fffe and ff, in hexadecimal, for LED 0. *)
Lemma run_set_max_Y_stores_witness :
  exists s',
    run_set_max_Y (B := example_board) [0]
      (example_state ["10000"; "2fffe"; "ff"])
    = Ret E_SUCCESS s'
    /\ input s' = []
    /\ led_infos (config s') !! Z.to_nat 0
       = Some (LedInfo (channels example_led) (color_matrix example_led)
                 (raw_fixed <$> [65536; 196606; 255]))
    /\ (forall j, j ≠ Z.to_nat 0 ->
          led_infos (config s') !! j = led_infos example_config !! j)
    /\ my_address (config s') = my_address example_config
    /\ heat_limit (config s') = heat_limit example_config
    /\ trace s' = [] ++ EWrite ENTER_MAX_Y :: replicate 3 (EWrite "").
Proof.
  apply (run_set_max_Y_stores (B := example_board) 0 []
           (example_state ["10000"; "2fffe"; "ff"])
           example_led
           (text <$> ["10000"; "2fffe"; "ff"])
           [] [65536; 196606; 255]);
    first [ unfold is_uint; lia | vm_compute; reflexivity ].
Defined.

(** ** Arguments beyond the arity *)

Lemma parse_digits_app (base : Z) (tok txt : list ascii) :
  forallb (is_digit base) tok = true ->
  ends_token txt ->
  forall acc, parse_digits base (tok ++ txt) acc = parse_digits base tok acc.
Proof.
  intros Htok Hend. induction tok as [|c tok IH]; intros acc.
  - destruct txt as [|c txt]; [reflexivity|].
    simpl in Hend |- *. rewrite Hend. reflexivity.
  - simpl in Htok. apply andb_true_iff in Htok as [Hc Htok].
    simpl. rewrite (is_digit_not_end base c Hc).
    destruct (digit_value c) as [d|]; [|reflexivity].
    destruct (d <? base); [|reflexivity].
    rewrite (IH Htok). reflexivity.
Qed.

(** [parse_int] on a well-formed integer reads its value. *)
Lemma parse_int_token_value (base : Z) (pre tok txt : list ascii) :
  well_formed_int base tok ->
  ends_token txt ->
  parse_int (pre ++ tok ++ txt) (length pre) base
  = (E_SUCCESS, (length pre + length tok)%nat, token_value base tok).
Proof.
  intros Hwf Hend.
  destruct (parse_int_token base pre tok txt Hwf Hend) as [v Hv].
  rewrite Hv. f_equal.
  unfold parse_int in Hv.
  rewrite char_at_app_length, drop_app_length in Hv.
  destruct (token_end (char_at (tok ++ txt) 0)); [discriminate|].
  rewrite (parse_digits_app base tok txt (proj2 Hwf) Hend) in Hv.
  unfold token_value.
  destruct (parse_digits base tok 0) as [[v' n]|]; [|discriminate].
  congruence.
Qed.

Lemma join_tokens_starts_solid (base : Z) (toks : list (list ascii * list ascii))
    (tail : list ascii) :
  tokens_ok base toks tail -> starts_solid tail ->
  starts_solid (join_tokens toks tail).
Proof.
  destruct toks as [|[tok ws] toks]; [done|].
  intros ([Hne Hdig] & _) _. simpl.
  destruct tok as [|c tok]; [done|]. simpl in Hdig |- *.
  apply andb_true_iff in Hdig as [Hc _].
  apply is_digit_not_end, token_end_false in Hc. tauto.
Qed.

(** The loop of [parse_args] over as many well-formed integers as it is
    to read: it succeeds with their values, whatever comes after. *)
Lemma parse_args_loop_values (base : Z) (toks : list (list ascii * list ascii)) :
  forall (tail pre : list ascii) (acc : list Z),
    tokens_ok base toks tail ->
    starts_solid tail ->
    parse_args_loop base (pre ++ join_tokens toks tail) (length toks)
      (length pre) acc
    = (E_SUCCESS, acc ++ ((fun t => token_value base t.1) <$> toks)).
Proof.
  induction toks as [|[tok ws] toks IH]; intros tail pre acc Hok Htail.
  - simpl. rewrite app_nil_r. reflexivity.
  - destruct Hok as (Hwf & Hws & Hsep & Hok).
    pose proof (join_tokens_starts_solid base toks tail Hok Htail) as Hsolid.
    cbn [length join_tokens parse_args_loop].
    rewrite char_at_app_length.
    assert (Hc : Ascii.eqb (char_at (tok ++ ws ++ join_tokens toks tail) 0) NUL
                 = false).
    { destruct Hwf as [Hne Hdig]. destruct tok as [|c tok]; [done|].
      simpl in Hdig. apply andb_true_iff in Hdig as [Hc _].
      apply is_digit_not_end, token_end_false in Hc. tauto. }
    rewrite Hc.
    rewrite (parse_int_token_value base pre tok (ws ++ join_tokens toks tail) Hwf
               (blank_ends_token ws _ Hws Hsep)).
    cbn [failed].
    replace (length pre + length tok)%nat with (length (pre ++ tok))
      by apply length_app.
    replace (pre ++ tok ++ ws ++ join_tokens toks tail)
      with ((pre ++ tok) ++ ws ++ join_tokens toks tail)
      by (rewrite <- !app_assoc; reflexivity).
    rewrite (SKIP_WHILE_app isspace (pre ++ tok) ws _ Hws).
    2:{ destruct (join_tokens toks tail); [done|]. exact Hsolid. }
    replace ((pre ++ tok) ++ ws ++ join_tokens toks tail)
      with (((pre ++ tok) ++ ws) ++ join_tokens toks tail)
      by (rewrite <- !app_assoc; reflexivity).
    rewrite (IH tail _ _ Hok Htail).
    cbn [fmap list_fmap fst]. rewrite <- app_assoc. reflexivity.
Qed.

Section ExtraArguments.
Context {B : Board}.

(** On a line made of an alphanumeric key, white space, as many
    well-formed integers as the command takes and anything at all after
    them, [parse_args] succeeds and the arguments are the values of these
    integers, in order: what follows them is not looked at. *)
Theorem parse_args_ignores_extra (key sp tail : list ascii)
    (toks : list (list ascii * list ascii)) :
  forallb isalnum key = true ->
  blank sp ->
  sp ≠ [] \/ join_tokens toks tail = [] ->
  tokens_ok CONSOLE_READ_BASE toks tail ->
  starts_solid tail ->
  parse_args (key ++ sp ++ join_tokens toks tail) (length toks)
  = (E_SUCCESS, (fun t => token_value CONSOLE_READ_BASE t.1) <$> toks).
Proof.
  intros Hkey Hsp Hsep Hok Htail.
  rewrite (parse_args_at_tokens key sp _ (length toks) Hkey Hsp Hsep
             (join_tokens_starts_solid _ toks tail Hok Htail)).
  apply (parse_args_loop_values CONSOLE_READ_BASE toks tail (key ++ sp) []
           Hok Htail).
Qed.

End ExtraArguments.

(** The line "h 3 700 and more" for the two arguments of [h]. *)
Lemma parse_args_ignores_extra_witness :
  parse_args (B := example_board)
    (text "h" ++ text " "
     ++ join_tokens [(text "3", text " "); (text "700", text "  ")] (text "and more"))
    (length [(text "3", text " "); (text "700", text "  ")])
  = (E_SUCCESS, [3; 700]).
Proof.
  assert (Hsp : text " " ≠ []
                \/ join_tokens [(text "3", text " "); (text "700", text "  ")]
                     (text "and more") = []) by (left; discriminate).
  assert (Hok : tokens_ok 10 [(text "3", text " "); (text "700", text "  ")]
                  (text "and more")).
  { simpl. repeat split; try reflexivity; try discriminate;
      left; discriminate. }
  exact (parse_args_ignores_extra (B := example_board) (text "h") (text " ")
           (text "and more") [(text "3", text " "); (text "700", text "  ")]
           eq_refl eq_refl Hsp Hok eq_refl).
Defined.

(** ** Help *)

Section HelpProofs.
Context {B : Board}.

Lemma write_usages_trace (table : list console_command_t) (s : State) :
  write_usages table s
  = Ret tt (MkState (config s) (input s)
              (trace s ++ mjoin (usage_lines <$> table))).
Proof.
  revert s. induction table as [|comm table IH]; intros s.
  - simpl. rewrite app_nil_r. destruct s; reflexivity.
  - cbn [write_usages].
    unfold bind at 1. unfold console_write at 1, log at 1.
    unfold bind at 1. unfold console_write at 1, log at 1.
    rewrite IH. unfold emit. simpl. rewrite <- !app_assoc. reflexivity.
Qed.

Lemma get_command_in_elem_of (table : list console_command_t) (k : ascii)
    (comm : console_command_t) :
  get_command_in table k = Some comm -> comm ∈ table.
Proof.
  induction table as [|c table IH]; simpl; [discriminate|].
  destruct (Ascii.eqb (key c) k).
  - intros [= ->]. apply elem_of_cons. left. reflexivity.
  - intros E. apply elem_of_cons. right. exact (IH E).
Qed.

(** The help command always returns [E_SUCCESS] and touches neither the
    configuration nor the input.  It writes, in the order of the table
    and each followed by a line break, the usage texts of exactly the
    commands the dispatcher looks up (whatever the paste handler is),
    and one more line break; so every key the dispatcher accepts is
    listed. *)
Theorem run_help_lists_commands (paste : command_handler_t) (args : list Z)
    (s : State) :
  run_help args s
  = Ret E_SUCCESS
      (MkState (config s) (input s)
         (trace s ++ mjoin (usage_lines <$> commands paste) ++ [EWrite CRLF]))
  /\ forall k comm,
       get_command paste k = Some comm ->
       EWrite (usage comm) ∈ mjoin (usage_lines <$> commands paste).
Proof.
  split.
  - unfold run_help, run_help_of. unfold bind at 1.
    rewrite write_usages_trace.
    unfold bind, console_write, log, ret, emit. simpl.
    rewrite <- !app_assoc. reflexivity.
  - intros k comm Ec. apply get_command_in_elem_of in Ec.
    apply list_elem_of_join. exists (usage_lines comm). split.
    + unfold usage_lines. apply elem_of_cons. left. reflexivity.
    + apply list_elem_of_fmap. exists comm. split; [reflexivity|exact Ec].
Qed.

End HelpProofs.

(** ** Echo *)

(** The echo command reads on for as long as the lines are "q" and
    returns [E_SUCCESS] with the first line that is not, which it
    consumes; it writes its banner only and touches nothing else.  When
    every line left is "q" it does not return. *)
Theorem run_echo_reads_while_q (args : list Z) (s : State) :
  (forall (qs : list (list ascii)) (other : list ascii) (rest : list (list ascii)),
     input s = qs ++ other :: rest ->
     forallb echo_goes_on qs = true ->
     echo_goes_on other = false ->
     run_echo args s
     = Ret E_SUCCESS
         (MkState (config s) rest (trace s ++ [EWrite BEGINNING_ECHO])))
  /\ (forallb echo_goes_on (input s) = true -> run_echo args s = Blocked).
Proof.
  assert (Hloop : forall qs other rest s0,
            forallb echo_goes_on qs = true ->
            echo_goes_on other = false ->
            run_echo_loop (qs ++ other :: rest) s0
            = Ret tt (MkState (config s0) rest (trace s0))).
  { induction qs as [|q qs IH]; intros other rest s0 Hqs Ho.
    - rewrite app_nil_l, run_echo_loop_other by exact Ho. reflexivity.
    - simpl in Hqs. apply andb_true_iff in Hqs as [Hq Hqs].
      simpl. unfold echo_goes_on in Hq. rewrite Hq.
      rewrite (IH other rest _ Hqs Ho). reflexivity. }
  assert (Hblock : forall qs s0,
            forallb echo_goes_on qs = true -> run_echo_loop qs s0 = Blocked).
  { induction qs as [|q qs IH]; intros s0 Hqs; [reflexivity|].
    simpl in Hqs. apply andb_true_iff in Hqs as [Hq Hqs].
    simpl. unfold echo_goes_on in Hq. rewrite Hq. apply IH. exact Hqs. }
  split.
  - intros qs other rest Ein Hqs Ho.
    unfold run_echo, bind, console_write, log, ret. simpl.
    rewrite Ein, (Hloop qs other rest _ Hqs Ho). reflexivity.
  - intros Hqs.
    unfold run_echo, bind, console_write, log, ret. simpl.
    rewrite (Hblock _ _ Hqs). reflexivity.
Qed.

(** The lines "q", "q", "hello", "q". *)
Lemma run_echo_reads_while_q_witness :
  run_echo [] (example_state ["q"; "q"; "hello"; "q"])
  = Ret E_SUCCESS
      (MkState example_config [text "q"] ([] ++ [EWrite BEGINNING_ECHO])).
Proof.
  apply (proj1 (run_echo_reads_while_q [] (example_state ["q"; "q"; "hello"; "q"]))
           [text "q"; text "q"] (text "hello") [text "q"]);
    reflexivity.
Defined.

(** ** A paste session as a sequence of rounds *)

Lemma run_paste_loop_rounds (prompt : M bool) (budget : nat) :
  forall s s2,
    run_paste_loop prompt budget s = Ret tt s2
    <-> exists n s1,
          (n < budget)%nat /\ rounds prompt n s s1 /\ prompt s1 = Ret true s2.
Proof.
  induction budget as [|budget IH]; intros s s2.
  - split; [discriminate|]. intros (n & s1 & Hn & _). lia.
  - simpl. unfold bind. split.
    + destruct (prompt s) as [[|] s1| |] eqn:E; try discriminate.
      * intros [= <-]. exists 0%nat, s.
        split; [lia|]. split; [constructor|exact E].
      * intros H. apply IH in H as (n & s1' & Hn & Hr & He).
        exists (S n), s1'. split; [lia|]. split; [|exact He].
        econstructor; eassumption.
    + intros (n & s1 & Hn & Hr & He).
      destruct Hr as [s|n s sa s1 Ea Hr].
      * rewrite He. reflexivity.
      * rewrite Ea. apply IH. exists n, s1.
        split; [lia|]. split; assumption.
Qed.

(** The paste command returns exactly when, after its banner, some
    rounds of the dispatcher that do not exit are followed by a round
    that does, all within the budget of the loop; it then returns
    [E_SUCCESS] in the state that last round left, and it never returns
    another status. *)
Theorem run_paste_file_runs_rounds (prompt : M bool) (budget : nat)
    (args : list Z) (s s2 : State) (e : error_t) :
  run_paste_file prompt budget args s = Ret e s2
  <-> e = E_SUCCESS
      /\ exists n s1,
           (n < budget)%nat
           /\ rounds prompt n (emit (EWrite PASTE_NOW) s) s1
           /\ prompt s1 = Ret true s2.
Proof.
  rewrite run_paste_file_unfold. split.
  - destruct (run_paste_loop prompt budget (emit (EWrite PASTE_NOW) s))
      as [[] s'| |] eqn:E; try discriminate.
    intros [= <- <-]. split; [reflexivity|].
    apply run_paste_loop_rounds. exact E.
  - intros [-> H]. apply run_paste_loop_rounds in H. rewrite H. reflexivity.
Qed.

(** ** Progress *)

Section Progress.
Context {B : Board}.

(** A round of the dispatcher, paste sessions inside it included, either
    waits for input or returns having consumed at least one line: on a
    finite input the console cannot loop for ever without reading. *)
Theorem round_consumes_a_line (s : State) :
  match run_command_prompt_on s with
  | Ret _ s' => (length (input s') < length (input s))%nat
  | Blocked => True
  | OutOfFuel => False
  end.
Proof.
  apply (run_command_prompt_reads (S (length (input s))) s). lia.
Qed.

End Progress.
